(** * HyRec recombination history (history.c): model and verified properties

    The program computes the free-electron fraction xe and the matter
    temperature Tm on a redshift grid that is uniform in ln(a).  This file
    embeds history.c function by function and proves properties of it.

    Conventions of the embedding:
    - a C [double] is read as a real number ([R]); rounding, overflow and
      NaN are outside this reading.  [log], [exp], [sqrt], [fabs] are [ln],
      [exp], [sqrt], [Rabs]; [pow] with a literal integer exponent is the
      natural power [x ^ n]; [pow] with a computed exponent is [Rpower],
      which agrees with C on a positive base.  For the one property that is
      about NaN, rec_HubbleConstant is embedded a second time, in the module
      [Double], on doubles that have the infinities, NaN and overflow;
    - a C [long] is an integer ([Z]); the conversion to [unsigned] is
      written out as a remainder modulo 2^32;
    - the arrays [xe_output] and [Tm_output] are the caller's memory: the
      content at the call, a total map [Z -> R], together with the sequence
      of stores performed since.  A read returns the value of the last store
      at the index, or the content at the call.  The code never checks an
      index, so every index can be read and stored to;
    - functions of the repository that history.c calls but does not define
      (Saha and post-Saha solvers, the rate kernels, the photon occupation
      number bookkeeping, [cube], [kBoltz], the model and mechanism tags) are
      variables of the section [History]. *)

From Stdlib Require Import Reals Lra Lia ZArith List Bool.
Import ListNotations.
Open Scope R_scope.

(** ** Comparisons on doubles, as booleans *)

Definition Rgtb (x y : R) : bool := if Rgt_dec x y then true else false.
Definition Rltb (x y : R) : bool := if Rlt_dec x y then true else false.
Definition Rleb (x y : R) : bool := if Rle_dec x y then true else false.

(** Nonnegativity of a product of nonnegative factors. *)
Ltac prod_nonneg := repeat first [assumption | lra | apply Rmult_le_pos].

(** ** REC_COSMOPARAMS *)

(** Modelled from the spec: the declaration of the struct REC_COSMOPARAMS is
    in a header that is not among the sources.  The fields are the scalars
    the data model of the specification lists, under the names history.c
    reads and writes them by. *)

Record REC_COSMOPARAMS : Type := mkREC_COSMOPARAMS {
  T0 : R; obh2 : R; omh2 : R; okh2 : R; odeh2 : R;
  w0 : R; wa : R; Y : R; Nnueff : R;
  nH0 : R; fHe : R;
  zstart : R; zend : R; dlna : R; nz : Z;
  p_ann : R; alpha : R; p_dec : R
}.

(** ** rec_get_cosmoparam

    [fin] is the sequence of numbers the input stream holds.  Each
    [fscanf(fin, "%lg", &x)] stores the next number in [x]; at the end of the
    stream it stores nothing and [x] keeps its value.  The prompts written to
    [fout] are not modelled.  The function has no return value and no error
    path; the injection parameters of [param] are left as they were. *)

Definition fscanf_lg (fin : list R) (old : R) : R * list R :=
  match fin with
  | x :: rest => (x, rest)
  | [] => (old, [])
  end.

Definition rec_get_cosmoparam (fin : list R) (param : REC_COSMOPARAMS)
  : REC_COSMOPARAMS :=
  let '(vT0, fin) := fscanf_lg fin (T0 param) in
  let '(vobh2, fin) := fscanf_lg fin (obh2 param) in
  let '(vomh2, fin) := fscanf_lg fin (omh2 param) in
  let '(vokh2, fin) := fscanf_lg fin (okh2 param) in
  let '(vodeh2, fin) := fscanf_lg fin (odeh2 param) in
  let '(vw0, fin) := fscanf_lg fin (w0 param) in
  let '(vwa, fin) := fscanf_lg fin (wa param) in
  let '(vY, fin) := fscanf_lg fin (Y param) in
  let '(vNnueff, _) := fscanf_lg fin (Nnueff param) in
  let vnH0 := 11.223846333047 * vobh2 * (1 - vY) in
  let vfHe := vY / (1 - vY) / 3.97153 in
  let vzstart := 8000 in
  let vzend := 0 in
  let vdlna := 8.49e-5 in
  let vnz := Zfloor (2 + ln ((1 + vzstart) / (1 + vzend)) / vdlna) in
  mkREC_COSMOPARAMS vT0 vobh2 vomh2 vokh2 vodeh2 vw0 vwa vY vNnueff
    vnH0 vfHe vzstart vzend vdlna vnz
    (p_ann param) (alpha param) (p_dec param).

(** The grid length as the specification words it: two plus the ceiling of
    the log-ratio of the grid bounds divided by the log step. *)
Definition nz_ceiling_formula (param : REC_COSMOPARAMS) : Z :=
  (2 + Zceil (ln ((1 + zstart param) / (1 + zend param)) / dlna param))%Z.

(** The preconditions the specification lists: all density parameters
    nonnegative, T0 > 0, Y in [0, 1). *)
Definition physically_valid (param : REC_COSMOPARAMS) : bool :=
  Rleb 0 (obh2 param) && Rleb 0 (omh2 param) && Rleb 0 (okh2 param)
  && Rleb 0 (odeh2 param) && Rltb 0 (T0 param)
  && Rleb 0 (Y param) && Rltb (Y param) 1.

(** The constructor as the specification words it: it builds the parameters
    and fails ([None], a configuration error) when a precondition is violated
    or when nz <= 4. *)
Definition validated_cosmoparam (fin : list R) (param : REC_COSMOPARAMS)
  : option REC_COSMOPARAMS :=
  let q := rec_get_cosmoparam fin param in
  if physically_valid q && (4 <? nz q)%Z then Some q else None.

(** ** rec_HubbleConstant *)

(** The array [rho_i] of the five component densities. *)
Definition rho_i (param : REC_COSMOPARAMS) (z : R) : list R :=
  let ainv := 1 + z in
  let rho_0 := omh2 param * ainv * ainv * ainv in
  let rho_1 := okh2 param * ainv * ainv in
  let rho_2 := odeh2 param * Rpower ainv (3 * (1 + w0 param))
               * exp (3 * wa param * (ln ainv - 1 + 1 / ainv)) in
  let ogh2 := 4.48162687719e-7 * T0 param * T0 param * T0 param * T0 param in
  let rho_3 := ogh2 * ainv * ainv * ainv * ainv in
  let rho_4 := 0.227107317660239 * rho_3 * Nnueff param in
  [rho_0; rho_1; rho_2; rho_3; rho_4].

(** [rho = 0.; for (j = 0; j < 5; j++) rho += rho_i[j];] *)
Definition rho_total (param : REC_COSMOPARAMS) (z : R) : R :=
  fold_left Rplus (rho_i param z) 0.

Definition rec_HubbleConstant (param : REC_COSMOPARAMS) (z : R) : R :=
  3.2407792896393e-18 * sqrt (rho_total param z).

(** ** rec_Tmss and rec_dTmdlna *)

Definition rec_Tmss (xe Tr H fHe nH z energy_rate : R) : R :=
  let eV := 1.60217653e-19 in
  let k_b := 1.3806503e-23 in
  Tr / (1 + H / 4.91466895548409e-22 / Tr / Tr / Tr / Tr * (1 + xe + fHe) / xe)
  + 1 / (4.91466895548409e-22 * Tr ^ 4 * xe) * 2 / (3 * k_b) * (1 + 2 * xe)
    / (3 * nH * 1e6) * energy_rate.

Definition rec_dTmdlna (xe Tm Tr H fHe nH z energy_rate : R) : R :=
  let k_b := 1.3806503e-23 in
  -2 * Tm
  + 4.91466895548409e-22 * Tr * Tr * Tr * Tr * xe / (1 + xe + fHe) * (Tr - Tm) / H
  + 2 / (3 * k_b) * (1 + 2 * xe) / (3 * nH * 1e6) * energy_rate / (1 + xe + fHe) / H.

(** ** energy_injection_rate *)

(** The three assignments to [p_annihilation_at_z], one per branch. *)
Definition p_annihilation_high (param : REC_COSMOPARAMS) : R :=
  p_ann param * exp (- alpha param * 0.838490285049671).

Definition p_annihilation_mid (param : REC_COSMOPARAMS) (z : R) : R :=
  p_ann param
  * exp (alpha param
         * (ln ((1 + z) / 2501) * ln ((1 + z) / 2501) - 0.838490285049671)).

Definition p_annihilation_low (param : REC_COSMOPARAMS) : R :=
  p_ann param
  * exp (alpha param
         * (ln (31 / 2501) * ln (31 / 2501) - 0.838490285049671)).

Definition p_annihilation_at_z (param : REC_COSMOPARAMS) (z : R) : R :=
  if Rgt_dec z 2500 then p_annihilation_high param
  else if Rgt_dec z 30 then p_annihilation_mid param z
  else p_annihilation_low param.

Definition energy_injection_rate (param : REC_COSMOPARAMS) (z : R) : R :=
  let coeff := 1.932e-10 in
  (omh2 param * 4.827652e-18) ^ 2 * (1 + z) ^ 6 * p_annihilation_at_z param z
  + coeff * (1 + z) ^ 3 * p_dec param.

(** ** The multistep operation of the specification

    [step y_n f_n f_n2 dlna] is the operation the specification names
    step(y_n, f_n, f_{n-2}, dlna); the integrators below are written from the
    source and compared with it. *)

Definition step (y_n f_n f_n2 dlna_ : R) : R :=
  y_n + dlna_ * (1.25 * f_n - 0.25 * f_n2).

(** The locals of rec_build_history that the integrators reach through
    pointers. *)
Record LAGS : Type := mkLAGS {
  z_prev : R; dxedlna_prev : R; dTmdlna_prev : R;
  z_prev2 : R; dxedlna_prev2 : R; dTmdlna_prev2 : R
}.

(** Conversion of a [long] to the [unsigned] parameter [iz]. *)
Definition to_unsigned (i : Z) : Z := (i mod 2 ^ 32)%Z.

(** ** Memory of an output array

    [at_call] is the content of the caller's memory when the program is
    entered and [stores] the sequence of stores performed since, oldest
    first, each with its index and its value.  [store a i v] is the
    assignment [a[i] = v]; [load a j] is the read [a[j]]: the value of the
    last store at [j], or the content at the call when there is none.  An
    array is applied to an index like a function, which reads it. *)
Record ARRAY : Type := mkARRAY {
  at_call : Z -> R;
  stores : list (Z * R)
}.

Definition store (a : ARRAY) (i : Z) (v : R) : ARRAY :=
  mkARRAY (at_call a) (stores a ++ [(i, v)]).

Definition load (a : ARRAY) (j : Z) : R :=
  fold_left (fun r p => if Z.eq_dec j (fst p) then snd p else r)
    (stores a) (at_call a j).

Coercion load : ARRAY >-> Funclass.

(** The grid formula. *)

Definition z_grid (param : REC_COSMOPARAMS) (i : Z) : R :=
  (1 + zstart param) * exp (- dlna param * IZR i) - 1.

(** ** Certified bounds on exp

    The grid length is the integer part of an expression in ln 8001; to
    evaluate it the development bounds exp at two rationals.
    [exp_lb sc m bn bd / sc] is a lower bound on exp (bn / bd): the power
    (1 + t / 2^m)^(2^m) computed by [m] squarings in fixed point, every
    square rounded down to a multiple of 1 / sc. *)
Definition sq_down (sc x : Z) : Z := (x * x / sc)%Z.

Fixpoint rep_sq (sc : Z) (m : nat) (x : Z) : Z :=
  match m with
  | O => x
  | S m' => rep_sq sc m' (sq_down sc x)
  end.

Definition exp_lb (sc : Z) (m : nat) (bn bd : Z) : Z :=
  rep_sq sc m (sc * (bd * 2 ^ Z.of_nat m + bn) / (bd * 2 ^ Z.of_nat m))%Z.

(** Certificates: [c < exp (bn/bd)] and [exp (an/ad) < c]. *)
Definition exp_gt_cert (sc : Z) (m : nat) (c bn bd : Z) : bool :=
  (0 <? sc)%Z && (0 <? bd)%Z && (0 <=? bd * 2 ^ Z.of_nat m + bn)%Z
  && (c * sc <? exp_lb sc m bn bd)%Z.

Definition exp_lt_cert (sc : Z) (m : nat) (c an ad : Z) : bool :=
  (0 <? sc)%Z && (0 <? ad)%Z && (0 <=? ad * 2 ^ Z.of_nat m - an)%Z
  && (0 <? c)%Z && (sc <? c * exp_lb sc m (- an) ad)%Z.

(** ** Doubles with overflow

    Where a property is about NaN or an infinity, a real number is not
    enough of a C double.  A [double] below is a real number, an infinity or
    NaN.  An operation on finite operands forms the real result and delivers
    it when its magnitude is at most DBL_MAX, and the infinity of its sign
    otherwise; on infinities and NaN the operations follow IEC 60559 as C99
    Annex F has it (0 * inf and inf - inf are NaN, exp(-inf) is 0, and so
    on).  Rounding of a result in range, underflow and the sign of a zero
    stay outside the model: a zero is +0. *)
Module Double.

Inductive double : Type :=
  | Finite (r : R)
  | PInf
  | NInf
  | NaN.

(** The largest finite double, (2 - 2^-52) * 2^1023. *)
Definition DBL_MAX : R := (2 - / 2 ^ 52) * 2 ^ 1023.

Definition in_range (r : R) : Prop := Rabs r <= DBL_MAX.

(** The result of an operation whose real value is [r]. *)
Definition overflow (r : R) : double :=
  if Rle_dec (Rabs r) DBL_MAX then Finite r
  else if Rlt_dec 0 r then PInf else NInf.

Definition dneg (x : double) : double :=
  match x with
  | Finite a => Finite (- a)
  | PInf => NInf
  | NInf => PInf
  | NaN => NaN
  end.

Definition dadd (x y : double) : double :=
  match x, y with
  | NaN, _ | _, NaN => NaN
  | Finite a, Finite b => overflow (a + b)
  | PInf, NInf | NInf, PInf => NaN
  | PInf, _ | _, PInf => PInf
  | NInf, _ | _, NInf => NInf
  end.

Definition dsub (x y : double) : double := dadd x (dneg y).

(** The infinity whose sign is the sign of [a] times the sign of [x]. *)
Definition inf_times (a : R) (x : double) : double :=
  if Req_dec_T a 0 then NaN
  else if Rlt_dec 0 a then x else dneg x.

Definition dmul (x y : double) : double :=
  match x, y with
  | NaN, _ | _, NaN => NaN
  | Finite a, Finite b => overflow (a * b)
  | Finite a, inf => inf_times a inf
  | inf, Finite b => inf_times b inf
  | PInf, PInf | NInf, NInf => PInf
  | PInf, NInf | NInf, PInf => NInf
  end.

Definition ddiv (x y : double) : double :=
  match x, y with
  | NaN, _ | _, NaN => NaN
  | Finite a, Finite b =>
    if Req_dec_T b 0 then
      if Req_dec_T a 0 then NaN else if Rlt_dec 0 a then PInf else NInf
    else overflow (a / b)
  | Finite a, _ => Finite 0
  | inf, Finite b => if Rlt_dec b 0 then dneg inf else inf
  | _, _ => NaN
  end.

Definition dexp (x : double) : double :=
  match x with
  | Finite a => overflow (exp a)
  | PInf => PInf
  | NInf => Finite 0
  | NaN => NaN
  end.

Definition dlog (x : double) : double :=
  match x with
  | Finite a =>
    if Rlt_dec a 0 then NaN
    else if Req_dec_T a 0 then NInf else overflow (ln a)
  | PInf => PInf
  | NInf => NaN
  | NaN => NaN
  end.

Definition dsqrt (x : double) : double :=
  match x with
  | Finite a => if Rlt_dec a 0 then NaN else Finite (sqrt a)
  | PInf => PInf
  | NInf => NaN
  | NaN => NaN
  end.

(** [is_odd_integer y]: [y] is an odd integer; [is_integer y]: an integer. *)
Definition is_integer (y : R) : bool :=
  if Req_dec_T (IZR (Zfloor y)) y then true else false.

Definition is_odd_integer (y : R) : bool :=
  is_integer y && Z.odd (Zfloor y).

(** [pow(x, y)] with a finite exponent [b] that is not zero. *)
Definition pow_finite_exponent (x : double) (b : R) : double :=
  match x with
  | Finite a =>
    if Rlt_dec 0 a then overflow (Rpower a b)
    else if Req_dec_T a 0 then (if Rlt_dec b 0 then PInf else Finite 0)
    else if is_integer b then
      overflow ((if Z.odd (Zfloor b) then -1 else 1) * Rpower (- a) b)
    else NaN
  | PInf => if Rlt_dec b 0 then Finite 0 else PInf
  | NInf =>
    if Rlt_dec b 0 then Finite 0
    else if is_odd_integer b then NInf else PInf
  | NaN => NaN
  end.

(** [pow(x, +inf)] when [grows] and [pow(x, -inf)] otherwise. *)
Definition pow_infinite_exponent (x : double) (grows : bool) : double :=
  match x with
  | Finite a =>
    if Req_dec_T (Rabs a) 1 then Finite 1
    else if Rlt_dec (Rabs a) 1 then (if grows then Finite 0 else PInf)
    else (if grows then PInf else Finite 0)
  | PInf | NInf => if grows then PInf else Finite 0
  | NaN => NaN
  end.

Definition dpow (x y : double) : double :=
  match y with
  | Finite b =>
    if Req_dec_T b 0 then Finite 1
    else match x with
         | Finite a =>
           if Req_dec_T a 1 then Finite 1 else pow_finite_exponent x b
         | _ => pow_finite_exponent x b
         end
  | PInf => pow_infinite_exponent x true
  | NInf => pow_infinite_exponent x false
  | NaN =>
    match x with
    | Finite a => if Req_dec_T a 1 then Finite 1 else NaN
    | _ => NaN
    end
  end.

(** rec_HubbleConstant on doubles.  The parameters and [z] are finite
    doubles; the operations are those of the source, in its order of
    evaluation. *)
Definition rho_i (param : REC_COSMOPARAMS) (z : R) : list double :=
  let ainv := dadd (Finite 1) (Finite z) in
  let rho_0 := dmul (dmul (dmul (Finite (omh2 param)) ainv) ainv) ainv in
  let rho_1 := dmul (dmul (Finite (okh2 param)) ainv) ainv in
  let rho_2 :=
    dmul (dmul (Finite (odeh2 param))
            (dpow ainv (dmul (Finite 3) (dadd (Finite 1) (Finite (w0 param))))))
      (dexp (dmul (dmul (Finite 3) (Finite (wa param)))
               (dadd (dsub (dlog ainv) (Finite 1))
                  (ddiv (Finite 1) ainv)))) in
  let ogh2 :=
    dmul (dmul (dmul (dmul (Finite 4.48162687719e-7) (Finite (T0 param)))
                  (Finite (T0 param))) (Finite (T0 param)))
      (Finite (T0 param)) in
  let rho_3 := dmul (dmul (dmul (dmul ogh2 ainv) ainv) ainv) ainv in
  let rho_4 :=
    dmul (dmul (Finite 0.227107317660239) rho_3) (Finite (Nnueff param)) in
  [rho_0; rho_1; rho_2; rho_3; rho_4].

Definition rho_total (param : REC_COSMOPARAMS) (z : R) : double :=
  fold_left dadd (rho_i param z) (Finite 0).

Definition rec_HubbleConstant (param : REC_COSMOPARAMS) (z : R) : double :=
  dmul (Finite 3.2407792896393e-18) (dsqrt (rho_total param z)).

(** A double that is not negative: a nonnegative number, +inf or NaN. *)
Definition not_negative (x : double) : Prop :=
  match x with
  | Finite r => 0 <= r
  | PInf => True
  | NInf => False
  | NaN => True
  end.

(** A double that is positive: a positive number or +inf. *)
Definition positive (x : double) : Prop :=
  match x with
  | Finite r => 0 < r
  | PInf => True
  | NInf => False
  | NaN => False
  end.

End Double.

(** The real results of the operations of rec_HubbleConstant, in the order
    of evaluation: the run has no overflow when all of them are in the range
    of a double. *)
Definition hubble_results (param : REC_COSMOPARAMS) (z : R) : list R :=
  let ainv := 1 + z in
  let p := Rpower ainv (3 * (1 + w0 param)) in
  let u := ln ainv - 1 + 1 / ainv in
  let e := exp (3 * wa param * u) in
  let c := 4.48162687719e-7 in
  let ogh2 := c * T0 param * T0 param * T0 param * T0 param in
  let rho_3 := ogh2 * ainv * ainv * ainv * ainv in
  let r0 := omh2 param * ainv * ainv * ainv in
  let r1 := okh2 param * ainv * ainv in
  let r2 := odeh2 param * p * e in
  let r4 := 0.227107317660239 * rho_3 * Nnueff param in
  [ainv;
   omh2 param * ainv; omh2 param * ainv * ainv; r0;
   okh2 param * ainv; r1;
   1 + w0 param; 3 * (1 + w0 param); p; odeh2 param * p;
   3 * wa param; ln ainv; ln ainv - 1; 1 / ainv; u; 3 * wa param * u; e; r2;
   c * T0 param; c * T0 param * T0 param; c * T0 param * T0 param * T0 param;
   ogh2;
   ogh2 * ainv; ogh2 * ainv * ainv; ogh2 * ainv * ainv * ainv; rho_3;
   0.227107317660239 * rho_3; r4;
   0 + r0; 0 + r0 + r1; 0 + r0 + r1 + r2; 0 + r0 + r1 + r2 + rho_3;
   0 + r0 + r1 + r2 + rho_3 + r4;
   3.2407792896393e-18 * sqrt (0 + r0 + r1 + r2 + rho_3 + r4)].

(** The input on which the dark-energy exponential overflows while the
    dark-energy density parameter is zero. *)
Definition overflow_param : REC_COSMOPARAMS :=
  mkREC_COSMOPARAMS 2.726 0.022 0.14 0 0 (-1) 30 0.24 3.046
    (11.223846333047 * 0.022 * (1 - 0.24)) (0.24 / (1 - 0.24) / 3.97153)
    8000 0 8.49e-5 105859 0 0 0.

(** ** Concrete inputs

    A parameter set with a dynamical dark energy (w0 = -1, wa = 1). *)
Definition cpl_param : REC_COSMOPARAMS :=
  mkREC_COSMOPARAMS 2.726 0.022 0.14 0 1 (-1) 1 0.24 3.046 0 0 8000 0 8.49e-5 105859 0 0 0.

(** The canonical parameter set, on the grid that rec_get_cosmoparam fixes,
    without energy injection. *)
Definition canonical_param : REC_COSMOPARAMS :=
  mkREC_COSMOPARAMS 2.726 0.022 0.14 0 0.35 (-1) 0 0.24 3.046
    (11.223846333047 * 0.022 * (1 - 0.24)) (0.24 / (1 - 0.24) / 3.97153)
    8000 0 8.49e-5 105859 0 0 0.

(** The canonical composition on a short grid: five points downwards from
    z = 1000. *)
Definition short_param : REC_COSMOPARAMS :=
  mkREC_COSMOPARAMS 2.726 0.022 0.14 0 0.35 (-1) 0 0.24 3.046
    (11.223846333047 * 0.022 * (1 - 0.24)) (0.24 / (1 - 0.24) / 3.97153)
    1000 0 8.49e-5 5 0 0 0.

(** A Saha solver under which He III never recombines: it reports xe = 1 and
    a He III fraction of 1 at every redshift. *)
Definition stub_sahaHeII (nH0_ T0_ fHe_ z : R) : R * R := (1, 1).

Definition stub_cube (x : R) : R := x * x * x.

(** A constant Peebles kernel. *)
Definition stub_HPeebles (xe nH H TM TR z energy_rate : R) : R := 2.

Definition zero_lags : LAGS := mkLAGS 0 0 0 0 0 0.

(** ** The integrators and the stage machine *)

Section History.

(** Types of the collaborators: the effective rate table, the two-photon
    parameters, and the photon occupation number history (the 2-D array
    [logfminus_hist] and the three Lyman arrays [logfminus_Ly_hist]). *)
Variables HRATEEFF TWO_PHOTON_PARAMS ARRAY_2D ARRAY_1D : Type.

Record FMINUS : Type := mkFMINUS {
  logfminus_hist : ARRAY_2D;
  logfminus_Ly_hist : ARRAY_1D * ARRAY_1D * ARRAY_1D
}.

(** Macros of the missing headers. *)
Variables MODEL PEEBLES RECFAST EMLA2s2p : Z.
Variables FUNC_HEI FUNC_H2G FUNC_HMLA FUNC_PEEBLES : Z.
Variable NVIRT : Z.
Variable kBoltz : R.
Variable cube : R -> R.

(** Functions of the missing translation units.  A function that stores
    through a pointer returns the stored value next to its result. *)
Variable create_2D_array : Z -> Z -> ARRAY_2D.
Variable create_1D_array : Z -> ARRAY_1D.
Variable rec_sahaHeII : R -> R -> R -> R -> R * R.
Variable xe_PostSahaHe : R -> R -> R -> R -> R -> R * R.
Variable rec_saha_xe_H : R -> R -> R -> R.
Variable xe_PostSahaH :
  R -> R -> R -> HRATEEFF -> TWO_PHOTON_PARAMS -> R -> R -> FMINUS -> Z -> R
  -> Z -> R -> R * R * FMINUS.
Variable update_fminus_Saha :
  FMINUS -> R -> R -> R -> TWO_PHOTON_PARAMS -> R -> R -> Z -> R -> Z -> FMINUS.
Variable rec_helium_dxedt : R -> R -> R -> R -> R -> R -> R.
Variable rec_HPeebles_dxedlna : R -> R -> R -> R -> R -> R -> R -> R.
Variable rec_HRecFast_dxedlna : R -> R -> R -> R -> R -> R -> R -> R.
Variable rec_HMLA_dxedlna : R -> R -> R -> R -> R -> R -> R -> HRATEEFF -> R.
Variable rec_HMLA_2photon_dxedlna :
  R -> R -> R -> R -> R -> HRATEEFF -> TWO_PHOTON_PARAMS -> R -> R -> FMINUS
  -> Z -> R -> R -> R * FMINUS.

(** *** rec_get_xe_next1 *)

(** The value assigned to the local [dxedlna] of rec_get_xe_next1, with the
    occupation number history after the call. *)
Definition next1_dxedlna (param : REC_COSMOPARAMS) (z1 xe_in : R)
    (rate_table : HRATEEFF) (func_select : Z) (iz : Z)
    (twog_params : TWO_PHOTON_PARAMS) (fminus : FMINUS) : R * FMINUS :=
  let ainv := 1 + z1 in
  let Tr := T0 param * ainv in
  let nH := nH0 param * ainv * ainv * ainv in
  let H := rec_HubbleConstant param z1 in
  let Tm := rec_Tmss xe_in Tr H (fHe param) (nH * 1e-6) z1
              (energy_injection_rate param z1) in
  let helium :=
    rec_helium_dxedt xe_in (nH0 param) (T0 param) (fHe param) H z1 / H in
  if (MODEL =? PEEBLES)%Z then
    (if (func_select =? FUNC_HEI)%Z then helium
     else rec_HPeebles_dxedlna xe_in (nH * 1e-6) H (Tm * kBoltz) (Tr * kBoltz)
            z1 (energy_injection_rate param z1), fminus)
  else if (MODEL =? RECFAST)%Z then
    (if (func_select =? FUNC_HEI)%Z then helium
     else rec_HRecFast_dxedlna xe_in (nH * 1e-6) H (Tm * kBoltz) (Tr * kBoltz)
            z1 (energy_injection_rate param z1), fminus)
  else if (MODEL =? EMLA2s2p)%Z then
    (if (func_select =? FUNC_HEI)%Z then helium
     else rec_HMLA_dxedlna xe_in (nH * 1e-6) H (Tm * kBoltz) (Tr * kBoltz)
            z1 (energy_injection_rate param z1) rate_table, fminus)
  else
    if (func_select =? FUNC_HEI)%Z then (helium, fminus)
    else if (func_select =? FUNC_H2G)%Z then
      rec_HMLA_2photon_dxedlna xe_in (nH * 1e-6) H (Tm * kBoltz) (Tr * kBoltz)
        rate_table twog_params (zstart param) (dlna param) fminus iz z1
        (energy_injection_rate param z1)
    else
      (rec_HMLA_dxedlna xe_in (nH * 1e-6) H (Tm * kBoltz) (Tr * kBoltz)
         z1 (energy_injection_rate param z1) rate_table, fminus).

(** Returns the value stored in [*xe_out], the occupation number history and
    the four lagged locals after the call. *)
Definition rec_get_xe_next1 (param : REC_COSMOPARAMS) (z1 xe_in : R)
    (rate_table : HRATEEFF) (func_select : Z) (iz : Z)
    (twog_params : TWO_PHOTON_PARAMS) (fminus : FMINUS) (lags : LAGS)
  : R * FMINUS * LAGS :=
  let '(dxedlna, fminus') :=
    next1_dxedlna param z1 xe_in rate_table func_select iz twog_params fminus in
  let xe_out :=
    xe_in + dlna param * (1.25 * dxedlna - 0.25 * dxedlna_prev2 lags) in
  (xe_out, fminus',
   {| z_prev2 := z_prev lags;
      dxedlna_prev2 := dxedlna_prev lags;
      z_prev := z1;
      dxedlna_prev := dxedlna;
      dTmdlna_prev := dTmdlna_prev lags;
      dTmdlna_prev2 := dTmdlna_prev2 lags |}).

(** Repeated stepping: [n] successive calls of rec_get_xe_next1, each one
    fed the value the previous one stored, at the redshifts [zs 0], [zs 1],
    ... and the grid indices [izs 0], [izs 1], ... *)
Fixpoint repeat_next1 (param : REC_COSMOPARAMS) (rate_table : HRATEEFF)
    (func_select : Z) (twog_params : TWO_PHOTON_PARAMS)
    (zs : nat -> R) (izs : nat -> Z) (n : nat)
    (xe : R) (fminus : FMINUS) (lags : LAGS) : R * FMINUS * LAGS :=
  match n with
  | O => (xe, fminus, lags)
  | S m =>
    let '(xe1, fminus1, lags1) :=
      rec_get_xe_next1 param (zs O) xe rate_table func_select (izs O)
        twog_params fminus lags in
    repeat_next1 param rate_table func_select twog_params
      (fun i => zs (S i)) (fun i => izs (S i)) m xe1 fminus1 lags1
  end.

(** *** rec_get_xe_next2 *)

Definition next2_dxedlna (param : REC_COSMOPARAMS) (z1 xe_in Tm_in : R)
    (rate_table : HRATEEFF) (func_select : Z) (iz : Z)
    (twog_params : TWO_PHOTON_PARAMS) (fminus : FMINUS) : R * FMINUS :=
  let ainv := 1 + z1 in
  let Tr := T0 param * ainv in
  let nH := nH0 param * ainv * ainv * ainv in
  let H := rec_HubbleConstant param z1 in
  let helium :=
    rec_helium_dxedt xe_in (nH0 param) (T0 param) (fHe param) H z1 / H in
  if (MODEL =? PEEBLES)%Z then
    (if (func_select =? FUNC_HEI)%Z then helium
     else rec_HPeebles_dxedlna xe_in (nH * 1e-6) H (Tm_in * kBoltz)
            (Tr * kBoltz) z1 (energy_injection_rate param z1), fminus)
  else if (MODEL =? RECFAST)%Z then
    (if (func_select =? FUNC_HEI)%Z then helium
     else rec_HRecFast_dxedlna xe_in (nH * 1e-6) H (Tm_in * kBoltz)
            (Tr * kBoltz) z1 (energy_injection_rate param z1), fminus)
  else if (MODEL =? EMLA2s2p)%Z then
    (if (func_select =? FUNC_HEI)%Z then helium
     else rec_HMLA_dxedlna xe_in (nH * 1e-6) H (Tm_in * kBoltz) (Tr * kBoltz)
            z1 (energy_injection_rate param z1) rate_table, fminus)
  else
    if (func_select =? FUNC_HEI)%Z then (helium, fminus)
    else if (func_select =? FUNC_H2G)%Z then
      rec_HMLA_2photon_dxedlna xe_in (nH * 1e-6) H (Tm_in * kBoltz)
        (Tr * kBoltz) rate_table twog_params (zstart param) (dlna param)
        fminus iz z1 (energy_injection_rate param z1)
    else if (func_select =? FUNC_HMLA)%Z then
      (rec_HMLA_dxedlna xe_in (nH * 1e-6) H (Tm_in * kBoltz) (Tr * kBoltz)
         z1 (energy_injection_rate param z1) rate_table, fminus)
    else
      (rec_HPeebles_dxedlna xe_in (nH * 1e-6) H (Tm_in * kBoltz) (Tr * kBoltz)
         z1 (energy_injection_rate param z1), fminus).

(** The value assigned to the local [dTmdlna] of rec_get_xe_next2. *)
Definition next2_dTmdlna (param : REC_COSMOPARAMS) (z1 xe_in Tm_in : R) : R :=
  let ainv := 1 + z1 in
  let Tr := T0 param * ainv in
  let nH := nH0 param * ainv * ainv * ainv in
  let H := rec_HubbleConstant param z1 in
  rec_dTmdlna xe_in Tm_in Tr H (fHe param) (nH * 1e-6) z1
    (energy_injection_rate param z1).

(** Returns the values stored in [*xe_out] and [*Tm_out], the occupation
    number history and the six lagged locals after the call. *)
Definition rec_get_xe_next2 (param : REC_COSMOPARAMS) (z1 xe_in Tm_in : R)
    (rate_table : HRATEEFF) (func_select : Z) (iz : Z)
    (twog_params : TWO_PHOTON_PARAMS) (fminus : FMINUS) (lags : LAGS)
  : R * R * FMINUS * LAGS :=
  let '(dxedlna, fminus') :=
    next2_dxedlna param z1 xe_in Tm_in rate_table func_select iz twog_params
      fminus in
  let dTmdlna := next2_dTmdlna param z1 xe_in Tm_in in
  let xe_out :=
    xe_in + dlna param * (1.25 * dxedlna - 0.25 * dxedlna_prev2 lags) in
  let Tm_out :=
    Tm_in + dlna param * (1.25 * dTmdlna - 0.25 * dTmdlna_prev2 lags) in
  (xe_out, Tm_out, fminus',
   {| z_prev2 := z_prev lags;
      dxedlna_prev2 := dxedlna_prev lags;
      dTmdlna_prev2 := dTmdlna_prev lags;
      z_prev := z1;
      dxedlna_prev := dxedlna;
      dTmdlna_prev := dTmdlna |}).

(** *** rec_build_history *)

(** The locals of rec_build_history, the two output arrays and the
    occupation number history. *)
Record STATE : Type := mkSTATE {
  s_iz : Z; s_z : R; s_Delta_xe : R; s_H : R;
  s_lags : LAGS;
  xe_output : ARRAY; Tm_output : ARRAY;
  s_fminus : FMINUS
}.

(** The indices the program has stored to so far, in the order of the
    stores. *)
Definition xe_stores (s : STATE) : list Z := map fst (stores (xe_output s)).
Definition Tm_stores (s : STATE) : list Z := map fst (stores (Tm_output s)).

Definition set_Delta_xe (s : STATE) (v : R) : STATE :=
  mkSTATE (s_iz s) (s_z s) v (s_H s) (s_lags s) (xe_output s) (Tm_output s)
    (s_fminus s).

Definition set_lags (s : STATE) (l : LAGS) : STATE :=
  mkSTATE (s_iz s) (s_z s) (s_Delta_xe s) (s_H s) l (xe_output s)
    (Tm_output s) (s_fminus s).

(** The state with other values in the two lagged redshifts. *)
Definition set_z_lags (s : STATE) (a b : R) : STATE :=
  set_lags s
    {| z_prev := a; dxedlna_prev := dxedlna_prev (s_lags s);
       dTmdlna_prev := dTmdlna_prev (s_lags s);
       z_prev2 := b; dxedlna_prev2 := dxedlna_prev2 (s_lags s);
       dTmdlna_prev2 := dTmdlna_prev2 (s_lags s) |}.

(** The increment [iz++] of every loop header. *)
Definition next_iz (s : STATE) : STATE :=
  mkSTATE (s_iz s + 1) (s_z s) (s_Delta_xe s) (s_H s) (s_lags s) (xe_output s)
    (Tm_output s) (s_fminus s).

(** [for (; cond; iz++) body].  The loop runs on fuel; it returns [None] only
    when the fuel is used up while the condition still holds. *)
Fixpoint for_loop (fuel : nat) (cond : STATE -> bool) (body : STATE -> STATE)
    (s : STATE) : option STATE :=
  if cond s then
    match fuel with
    | O => None
    | S fuel' => for_loop fuel' cond body (next_iz (body s))
    end
  else Some s.

Section Stages.

Variable param : REC_COSMOPARAMS.
Variable rate_table : HRATEEFF.
Variable twog_params : TWO_PHOTON_PARAMS.

(** He II + III Saha phase. *)
Definition stage1_cond (s : STATE) : bool :=
  (s_iz s <? nz param)%Z && Rgtb (s_Delta_xe s) 1e-9.

Definition stage1_body (s : STATE) : STATE :=
  let iz := s_iz s in
  let z := (1 + zstart param) * exp (- dlna param * IZR iz) - 1 in
  let '(xe, Delta_xe) :=
    rec_sahaHeII (nH0 param) (T0 param) (fHe param) z in
  mkSTATE iz z Delta_xe (s_H s) (s_lags s)
    (store (xe_output s) iz xe)
    (store (Tm_output s) iz (T0 param * (1 + z)))
    (s_fminus s).

(** He I + II post-Saha phase. *)
Definition stage2_cond (s : STATE) : bool :=
  (s_iz s <? nz param)%Z && Rltb (s_Delta_xe s) 5e-4.

Definition stage2_body (s : STATE) : STATE :=
  let iz := s_iz s in
  let z := (1 + zstart param) * exp (- dlna param * IZR iz) - 1 in
  let '(xe, Delta_xe) :=
    xe_PostSahaHe (nH0 param) (T0 param) (fHe param)
      (rec_HubbleConstant param z) z in
  mkSTATE iz z Delta_xe (s_H s) (s_lags s)
    (store (xe_output s) iz xe)
    (store (Tm_output s) iz (T0 param * (1 + z)))
    (s_fminus s).

(** Seeding of the lagged redshifts and xe derivatives, before the helium
    segment and again before the hydrogen two-photon segment. *)
Definition seed_xe (s : STATE) : STATE :=
  let iz := s_iz s in
  let xe := xe_output s in
  let v_z_prev2 :=
    (1 + zstart param) * exp (- dlna param * IZR (iz - 3)) - 1 in
  let v_dxedlna_prev2 := (xe (iz - 2)%Z - xe (iz - 4)%Z) / 2 / dlna param in
  let v_z_prev :=
    (1 + zstart param) * exp (- dlna param * IZR (iz - 2)) - 1 in
  let v_dxedlna_prev := (xe (iz - 1)%Z - xe (iz - 3)%Z) / 2 / dlna param in
  set_lags s
    {| z_prev := v_z_prev; dxedlna_prev := v_dxedlna_prev;
       dTmdlna_prev := dTmdlna_prev (s_lags s);
       z_prev2 := v_z_prev2; dxedlna_prev2 := v_dxedlna_prev2;
       dTmdlna_prev2 := dTmdlna_prev2 (s_lags s) |}.

(** Helium recombination, Tm fixed to steady state. *)
Definition stage3_cond (s : STATE) : bool :=
  (s_iz s <? nz param)%Z
  && (Rgtb (s_Delta_xe s) 1e-4 || Rgtb (s_z s) 1650).

Definition stage3_body (s : STATE) : STATE :=
  let iz := s_iz s in
  let '(xe_out, fminus1, lags1) :=
    rec_get_xe_next1 param (s_z s) (xe_output s (iz - 1)%Z) rate_table
      FUNC_HEI (to_unsigned (iz - 1)) twog_params (s_fminus s) (s_lags s) in
  let xe := store (xe_output s) iz xe_out in
  let z := (1 + zstart param) * exp (- dlna param * IZR iz) - 1 in
  let Tm :=
    rec_Tmss (xe iz) (T0 param * (1 + z)) (rec_HubbleConstant param z)
      (fHe param) (nH0 param * cube (1 + z)) (z_prev2 lags1)
      (energy_injection_rate param z) in
  let fminus2 :=
    update_fminus_Saha fminus1 (xe iz) (T0 param * (1 + z) * kBoltz)
      (nH0 param * cube (1 + z) * 1e-6) twog_params (zstart param)
      (dlna param) iz z 0 in
  let Delta_xe := Rabs (xe iz - rec_saha_xe_H (nH0 param) (T0 param) z) in
  mkSTATE iz z Delta_xe (s_H s) lags1 xe (store (Tm_output s) iz Tm)
    fminus2.

(** Hydrogen post-Saha equilibrium phase. *)
Definition stage4_cond (s : STATE) : bool :=
  (s_iz s <? nz param)%Z && Rltb (s_Delta_xe s) 5e-5.

Definition stage4_body (s : STATE) : STATE :=
  let iz := s_iz s in
  let z := (1 + zstart param) * exp (- dlna param * IZR iz) - 1 in
  let H := rec_HubbleConstant param z in
  let '(xe_iz, Delta_xe, fminus1) :=
    xe_PostSahaH (nH0 param * cube (1 + z) * 1e-6) H
      (kBoltz * T0 param * (1 + z)) rate_table twog_params (zstart param)
      (dlna param) (s_fminus s) iz z MODEL (energy_injection_rate param z) in
  let xe := store (xe_output s) iz xe_iz in
  let Tm :=
    rec_Tmss (xe iz) (T0 param * (1 + z)) H (fHe param)
      (nH0 param * cube (1 + z)) (z_prev2 (s_lags s))
      (energy_injection_rate param z) in
  mkSTATE iz z Delta_xe H (s_lags s) xe (store (Tm_output s) iz Tm)
    fminus1.

(** Hydrogen recombination with two-photon processes, Tm fixed to steady
    state. *)
Definition stage5_cond (s : STATE) : bool :=
  (s_iz s <? nz param)%Z
  && Rltb (1 - Tm_output s (s_iz s - 1)%Z / T0 param / (1 + s_z s)) 5e-4
  && Rgtb (s_z s) 700.

Definition stage5_body (s : STATE) : STATE :=
  let iz := s_iz s in
  let '(xe_out, fminus1, lags1) :=
    rec_get_xe_next1 param (s_z s) (xe_output s (iz - 1)%Z) rate_table
      FUNC_H2G (to_unsigned (iz - 1)) twog_params (s_fminus s) (s_lags s) in
  let xe := store (xe_output s) iz xe_out in
  let z := (1 + zstart param) * exp (- dlna param * IZR iz) - 1 in
  let Tm :=
    rec_Tmss (xe iz) (T0 param * (1 + z)) (rec_HubbleConstant param z)
      (fHe param) (nH0 param * cube (1 + z) * 1e-6) (z_prev2 lags1)
      (energy_injection_rate param z) in
  mkSTATE iz z (s_Delta_xe s) (s_H s) lags1 xe (store (Tm_output s) iz Tm)
    fminus1.

(** Seeding of the lagged Tm derivatives, before the first segment that
    evolves Tm. *)
Definition seed_Tm (s : STATE) : STATE :=
  let iz := s_iz s in
  let z := s_z s in
  let l := s_lags s in
  let v_dTmdlna_prev2 :=
    rec_dTmdlna (xe_output s (iz - 3)%Z) (Tm_output s (iz - 3)%Z)
      (T0 param * (1 + z_prev2 l)) (rec_HubbleConstant param (z_prev2 l))
      (fHe param) (nH0 param * cube (1 + z)) (z_prev2 l)
      (energy_injection_rate param (z_prev2 l)) in
  let v_dTmdlna_prev :=
    rec_dTmdlna (xe_output s (iz - 2)%Z) (Tm_output s (iz - 2)%Z)
      (T0 param * (1 + z_prev l)) (rec_HubbleConstant param (z_prev l))
      (fHe param) (nH0 param * cube (1 + z)) (z_prev l)
      (energy_injection_rate param (z_prev l)) in
  set_lags s
    {| z_prev := z_prev l; dxedlna_prev := dxedlna_prev l;
       dTmdlna_prev := v_dTmdlna_prev;
       z_prev2 := z_prev2 l; dxedlna_prev2 := dxedlna_prev2 l;
       dTmdlna_prev2 := v_dTmdlna_prev2 |}.

(** The seeding as a property of a state: the lagged xe derivatives are the
    centred differences of [xe_output] around [iz - 2] and [iz - 3], and the
    lagged redshifts are the grid redshifts there. *)
Definition xe_lags_seeded (s : STATE) : Prop :=
  let iz := s_iz s in
  let l := s_lags s in
  dxedlna_prev l
  = (xe_output s (iz - 1)%Z - xe_output s (iz - 3)%Z) / (2 * dlna param)
  /\ dxedlna_prev2 l
     = (xe_output s (iz - 2)%Z - xe_output s (iz - 4)%Z) / (2 * dlna param)
  /\ z_prev l = z_grid param (iz - 2)
  /\ z_prev2 l = z_grid param (iz - 3).

(** The lagged Tm derivatives are rec_dTmdlna evaluated on the history at
    [iz - 2] and [iz - 3], at the lagged redshifts. *)
Definition Tm_lags_seeded (s : STATE) : Prop :=
  let iz := s_iz s in
  let l := s_lags s in
  dTmdlna_prev l
  = rec_dTmdlna (xe_output s (iz - 2)%Z) (Tm_output s (iz - 2)%Z)
      (T0 param * (1 + z_prev l)) (rec_HubbleConstant param (z_prev l))
      (fHe param) (nH0 param * cube (1 + s_z s)) (z_prev l)
      (energy_injection_rate param (z_prev l))
  /\ dTmdlna_prev2 l
     = rec_dTmdlna (xe_output s (iz - 3)%Z) (Tm_output s (iz - 3)%Z)
         (T0 param * (1 + z_prev2 l)) (rec_HubbleConstant param (z_prev2 l))
         (fHe param) (nH0 param * cube (1 + s_z s)) (z_prev2 l)
         (energy_injection_rate param (z_prev2 l)).

(** The body shared by the three segments that evolve xe and Tm together;
    they differ in the mechanism tag only. *)
Definition stage678_body (func_select : Z) (s : STATE) : STATE :=
  let iz := s_iz s in
  let '(xe_out, Tm_out, fminus1, lags1) :=
    rec_get_xe_next2 param (s_z s) (xe_output s (iz - 1)%Z)
      (Tm_output s (iz - 1)%Z) rate_table func_select (to_unsigned (iz - 1))
      twog_params (s_fminus s) (s_lags s) in
  let z := (1 + zstart param) * exp (- dlna param * IZR iz) - 1 in
  mkSTATE iz z (s_Delta_xe s) (s_H s) lags1
    (store (xe_output s) iz xe_out) (store (Tm_output s) iz Tm_out)
    fminus1.

Definition stage6_cond (s : STATE) : bool :=
  (s_iz s <? nz param)%Z && Rgtb (s_z s) 700.

Definition stage7_cond (s : STATE) : bool :=
  (s_iz s <? nz param)%Z && Rgtb (s_z s) 20.

Definition stage8_cond (s : STATE) : bool := (s_iz s <? nz param)%Z.

(** No loop can run more than [nz] times. *)
Definition fuel : nat := Z.to_nat (nz param).

(** The state before the first loop.  [H] and the lagged locals are not
    initialised by the code: [H_indet] and [lags_indet] stand for their
    indeterminate values.  [xe0] and [Tm0] are the contents of the caller's
    arrays at the call; nothing has been stored yet. *)
Definition initial_state (xe0 Tm0 : Z -> R) (H_indet : R) (lags_indet : LAGS)
  : STATE :=
  let fminus :=
    {| logfminus_hist := create_2D_array NVIRT (nz param);
       logfminus_Ly_hist :=
         (create_1D_array (nz param), create_1D_array (nz param),
          create_1D_array (nz param)) |} in
  mkSTATE 0 (zstart param) 1 H_indet lags_indet (mkARRAY xe0 [])
    (mkARRAY Tm0 []) fminus.

Definition obind {A B : Type} (o : option A) (f : A -> option B) : option B :=
  match o with Some a => f a | None => None end.

(** The state at the entry of the helium segment (stage 3), after seeding. *)
Definition history_to_stage3 (s0 : STATE) : option STATE :=
  obind (for_loop fuel stage1_cond stage1_body s0) (fun s1 =>
  obind (for_loop fuel stage2_cond stage2_body (set_Delta_xe s1 0)) (fun s2 =>
  Some (set_Delta_xe (seed_xe s2) 1))).

(** The state at the entry of the two-photon segment (stage 5), after
    seeding. *)
Definition history_to_stage5 (s0 : STATE) : option STATE :=
  obind (history_to_stage3 s0) (fun s =>
  obind (for_loop fuel stage3_cond stage3_body s) (fun s3 =>
  obind (for_loop fuel stage4_cond stage4_body (set_Delta_xe s3 0)) (fun s4 =>
  Some (seed_xe s4)))).

(** The state at the entry of the first segment with explicit Tm (stage 6),
    after seeding. *)
Definition history_to_stage6 (s0 : STATE) : option STATE :=
  obind (history_to_stage5 s0) (fun s =>
  obind (for_loop fuel stage5_cond stage5_body s) (fun s5 =>
  Some (seed_Tm s5))).

Definition history_from_stage6 (s : STATE) : option STATE :=
  obind (for_loop fuel stage6_cond (stage678_body FUNC_H2G) s) (fun s6 =>
  obind (for_loop fuel stage7_cond (stage678_body FUNC_HMLA) s6) (fun s7 =>
  for_loop fuel stage8_cond (stage678_body FUNC_PEEBLES) s7)).

(** The whole function: the final state holds the two output arrays.  The
    release of the occupation number history at the end is not modelled. *)
Definition rec_build_history (xe0 Tm0 : Z -> R) (H_indet : R)
    (lags_indet : LAGS) : option STATE :=
  obind (history_to_stage6 (initial_state xe0 Tm0 H_indet lags_indet))
    history_from_stage6.

End Stages.

(** *** Predicates on states and loops, used in the statements below *)

(** A loop condition that implies [iz < n]. *)
Definition cond_bounded (n : Z) (cond : STATE -> bool) : Prop :=
  forall s, cond s = true -> (s_iz s < n)%Z.

(** A loop body that stores once to each array, at [iz], and leaves [iz]
    alone. *)
Definition body_stores_at_iz (body : STATE -> STATE) : Prop :=
  forall s,
    s_iz (body s) = s_iz s
    /\ xe_stores (body s) = xe_stores s ++ [s_iz s]
    /\ Tm_stores (body s) = Tm_stores s ++ [s_iz s].

(** Both arrays have been stored to at 0, ..., iz-1, once each and in this
    order, and [iz] has not passed [n]. *)
Definition populated (n : Z) (s : STATE) : Prop :=
  (0 <= s_iz s)%Z /\ (s_iz s <= Z.max 0 n)%Z
  /\ xe_stores s = map Z.of_nat (seq 0 (Z.to_nat (s_iz s)))
  /\ Tm_stores s = map Z.of_nat (seq 0 (Z.to_nat (s_iz s))).

(** The state after a first stage that has filled the arrays up to [iz]. *)
Definition saha_filled (param : REC_COSMOPARAMS) (s : STATE) : Prop :=
  s_Delta_xe s > 1e-9
  /\ forall j, (0 <= j < s_iz s)%Z ->
               Tm_output s j = T0 param * (1 + z_grid param j).

(** A loop body that changes the two arrays at [iz] only. *)
Definition body_frames (body : STATE -> STATE) : Prop :=
  forall s j,
    j <> s_iz s ->
    xe_output (body s) j = xe_output s j
    /\ Tm_output (body s) j = Tm_output s j.

(** Two states that agree on everything but the local [H] and the lagged
    locals. *)
Definition same_outputs (s s' : STATE) : Prop :=
  s_iz s = s_iz s' /\ s_z s = s_z s' /\ s_Delta_xe s = s_Delta_xe s'
  /\ xe_output s = xe_output s' /\ Tm_output s = Tm_output s'
  /\ s_fminus s = s_fminus s'
  /\ xe_stores s = xe_stores s' /\ Tm_stores s = Tm_stores s'.

(** Two states that agree, beyond that, on the lagged redshifts and the
    lagged xe derivatives. *)
Definition same_xe_lags (s s' : STATE) : Prop :=
  same_outputs s s'
  /\ z_prev (s_lags s) = z_prev (s_lags s')
  /\ dxedlna_prev (s_lags s) = dxedlna_prev (s_lags s')
  /\ z_prev2 (s_lags s) = z_prev2 (s_lags s')
  /\ dxedlna_prev2 (s_lags s) = dxedlna_prev2 (s_lags s').

(** Two states that agree on everything but the local [H]. *)
Definition same_but_H (s s' : STATE) : Prop :=
  same_outputs s s' /\ s_lags s = s_lags s'.

(** Below [iz] the matter temperature is the radiation temperature of the
    grid redshift. *)
Definition Tm_follows_radiation (param : REC_COSMOPARAMS) (s : STATE) : Prop :=
  forall j, (0 <= j < s_iz s)%Z ->
            Tm_output s j = T0 param * (1 + z_grid param j).

(** Below [iz] the free-electron fraction is the value of the He II Saha
    solver at the grid redshift. *)
Definition xe_is_saha (param : REC_COSMOPARAMS) (s : STATE) : Prop :=
  forall j, (0 <= j < s_iz s)%Z ->
            xe_output s j
            = fst (rec_sahaHeII (nH0 param) (T0 param) (fHe param)
                     (z_grid param j)).

(** From index [lo] up to [iz] the stored matter temperature is the
    steady-state temperature of the stored xe at the same index, with the
    hydrogen density argument [nH_of z]. *)
Definition Tm_is_steady (param : REC_COSMOPARAMS) (nH_of : R -> R) (lo : Z)
    (s : STATE) : Prop :=
  forall j, (lo <= j < s_iz s)%Z ->
            Tm_output s j
            = rec_Tmss (xe_output s j) (T0 param * (1 + z_grid param j))
                (rec_HubbleConstant param (z_grid param j)) (fHe param)
                (nH_of (z_grid param j)) (z_grid param j)
                (energy_injection_rate param (z_grid param j)).

(** After a pass the local [z] is the grid redshift of the index handled
    last. *)
Definition z_on_grid (param : REC_COSMOPARAMS) (s : STATE) : Prop :=
  (0 < s_iz s)%Z -> s_z s = z_grid param (s_iz s - 1).

(** A loop body that assigns the grid redshift of its index to [z]. *)
Definition body_sets_z (param : REC_COSMOPARAMS) (body : STATE -> STATE)
  : Prop :=
  forall s, s_z (body s) = z_grid param (s_iz s).

(** The lagged redshifts are the grid redshifts at [iz - 2] and [iz - 3]. *)
Definition z_lags_on_grid (param : REC_COSMOPARAMS) (s : STATE) : Prop :=
  z_prev (s_lags s) = z_grid param (s_iz s - 2)
  /\ z_prev2 (s_lags s) = z_grid param (s_iz s - 3).

(** The cells of the two arrays that the run has stored to so far are the
    cells 0, ..., iz-1. *)
Definition written_below_iz (s : STATE) : Prop :=
  forall j, (In j (xe_stores s) <-> (0 <= j < s_iz s)%Z)
            /\ (In j (Tm_stores s) <-> (0 <= j < s_iz s)%Z).

(** The newer lagged xe derivative is the derivative that rec_get_xe_next1
    evaluates at the grid point [iz - 2] from the history there, for some
    content of the occupation number history. *)
Definition xe_lag_from_next1 (param : REC_COSMOPARAMS) (rate_table : HRATEEFF)
    (twog_params : TWO_PHOTON_PARAMS) (func_select : Z) (s : STATE) : Prop :=
  exists fminus,
    dxedlna_prev (s_lags s)
    = fst (next1_dxedlna param (z_grid param (s_iz s - 2))
             (xe_output s (s_iz s - 2)%Z) rate_table func_select
             (to_unsigned (s_iz s - 2)) twog_params fminus).

(** The same for the derivative that rec_get_xe_next2 evaluates. *)
Definition xe_lag_from_next2 (param : REC_COSMOPARAMS) (rate_table : HRATEEFF)
    (twog_params : TWO_PHOTON_PARAMS) (func_select : Z) (s : STATE) : Prop :=
  exists fminus,
    dxedlna_prev (s_lags s)
    = fst (next2_dxedlna param (z_grid param (s_iz s - 2))
             (xe_output s (s_iz s - 2)%Z) (Tm_output s (s_iz s - 2)%Z)
             rate_table func_select (to_unsigned (s_iz s - 2)) twog_params
             fminus).

(** Parameter sets for the examples: matter only, and with energy
    injection switched on. *)
Definition matter_only_param : REC_COSMOPARAMS :=
  mkREC_COSMOPARAMS 0 0.022 0.14 0 0 (-1) 0 0.24 3.046
    (11.223846333047 * 0.022 * (1 - 0.24)) (0.24 / (1 - 0.24) / 3.97153)
    8000 0 8.49e-5 105859 0 0 0.

Definition injecting_param : REC_COSMOPARAMS :=
  mkREC_COSMOPARAMS 2.726 0.022 0.14 0 0.35 (-1) 0 0.24 3.046
    (11.223846333047 * 0.022 * (1 - 0.24)) (0.24 / (1 - 0.24) / 3.97153)
    8000 0 8.49e-5 105859 1e-6 0.1 1e-3.

(** Proof steps shared by the lemmas on streams and on pairs of states. *)
Ltac split_stream fin :=
  let x := fresh "x" in
  destruct fin as [|x fin].

Ltac open_states s s' :=
  destruct s as [iz z D Hh [zp dp tp zp2 dp2 tp2] xe Tm fm];
  destruct s' as [iz' z' D' Hh' [zp' dp' tp' zp2' dp2' tp2'] xe' Tm' fm'];
  unfold same_but_H, same_xe_lags, same_outputs in *;
  cbn [s_iz s_z s_Delta_xe s_H s_lags xe_output Tm_output s_fminus xe_stores
       Tm_stores z_prev dxedlna_prev dTmdlna_prev z_prev2 dxedlna_prev2
       dTmdlna_prev2] in *.

Ltac close_states :=
  cbv beta iota zeta;
  cbn [s_iz s_z s_Delta_xe s_H s_lags xe_output Tm_output s_fminus xe_stores
       Tm_stores z_prev dxedlna_prev dTmdlna_prev z_prev2 dxedlna_prev2
       dTmdlna_prev2 fst snd];
  repeat split; reflexivity.

(** ** Basic facts *)

Lemma Rgtb_true x y : x > y -> Rgtb x y = true.
Proof. intros Hxy; unfold Rgtb; destruct (Rgt_dec x y); [reflexivity | contradiction]. Qed.

Lemma Rgtb_false x y : x <= y -> Rgtb x y = false.
Proof. intros Hxy; unfold Rgtb; destruct (Rgt_dec x y); [lra | reflexivity]. Qed.

Lemma Rltb_true x y : x < y -> Rltb x y = true.
Proof. intros Hxy; unfold Rltb; destruct (Rlt_dec x y); [reflexivity | contradiction]. Qed.

Lemma Rltb_false x y : y <= x -> Rltb x y = false.
Proof. intros Hxy; unfold Rltb; destruct (Rlt_dec x y); [lra | reflexivity]. Qed.

Lemma Rleb_true x y : x <= y -> Rleb x y = true.
Proof. intros Hxy; unfold Rleb; destruct (Rle_dec x y); [reflexivity | contradiction]. Qed.

Lemma load_store a i v j :
  load (store a i v) j = if Z.eq_dec j i then v else load a j.
Proof. unfold load, store; cbn [stores at_call]; apply fold_left_app. Qed.

Lemma store_same (a : ARRAY) i v : store a i v i = v.
Proof.
  rewrite load_store; destruct (Z.eq_dec i i); [reflexivity | contradiction].
Qed.

Lemma store_other (a : ARRAY) i v j : j <> i -> store a i v j = a j.
Proof.
  intros Hji; rewrite load_store.
  destruct (Z.eq_dec j i); [contradiction | reflexivity].
Qed.

(** ** Properties of the integrators *)

Lemma next1_out_eq param z1 xe_in rate_table func_select iz twog_params fminus
    lags :
  rec_get_xe_next1 param z1 xe_in rate_table func_select iz twog_params fminus
    lags
  = let d := next1_dxedlna param z1 xe_in rate_table func_select iz
               twog_params fminus in
    (xe_in + dlna param * (1.25 * fst d - 0.25 * dxedlna_prev2 lags), snd d,
     {| z_prev2 := z_prev lags; dxedlna_prev2 := dxedlna_prev lags;
        z_prev := z1; dxedlna_prev := fst d;
        dTmdlna_prev := dTmdlna_prev lags;
        dTmdlna_prev2 := dTmdlna_prev2 lags |}).
Proof.
  unfold rec_get_xe_next1.
  destruct (next1_dxedlna _ _ _ _ _ _ _ _) as [d f]; reflexivity.
Qed.

Lemma next2_out_eq param z1 xe_in Tm_in rate_table func_select iz twog_params
    fminus lags :
  rec_get_xe_next2 param z1 xe_in Tm_in rate_table func_select iz twog_params
    fminus lags
  = let d := next2_dxedlna param z1 xe_in Tm_in rate_table func_select iz
               twog_params fminus in
    let t := next2_dTmdlna param z1 xe_in Tm_in in
    (xe_in + dlna param * (1.25 * fst d - 0.25 * dxedlna_prev2 lags),
     Tm_in + dlna param * (1.25 * t - 0.25 * dTmdlna_prev2 lags), snd d,
     {| z_prev2 := z_prev lags; dxedlna_prev2 := dxedlna_prev lags;
        dTmdlna_prev2 := dTmdlna_prev lags;
        z_prev := z1; dxedlna_prev := fst d; dTmdlna_prev := t |}).
Proof.
  unfold rec_get_xe_next2.
  destruct (next2_dxedlna _ _ _ _ _ _ _ _ _) as [d f]; reflexivity.
Qed.

(** C1.  Every call of rec_get_xe_next1 stores
    xe_in + dlna * (1.25 * f_n - 0.25 * f_{n-2}) in its output, where f_n is
    the derivative the call evaluates at its own point and f_{n-2} is the
    older of the two stored samples; rec_get_xe_next2 does the same for xe
    with dxe/dlna and for Tm with dTm/dlna.  Each call then shifts the
    samples (the newer one becomes the older one, the derivative just
    evaluated becomes the newer one), so that the sample a call reads as
    f_{n-2} is the derivative evaluated two calls earlier. *)
Theorem C1_multistep_update :
  forall param z1 xe_in Tm_in rate_table func_select iz twog_params fminus lags,
    let f1 := fst (next1_dxedlna param z1 xe_in rate_table func_select iz
                     twog_params fminus) in
    let r1 := rec_get_xe_next1 param z1 xe_in rate_table func_select iz
                twog_params fminus lags in
    let f2 := fst (next2_dxedlna param z1 xe_in Tm_in rate_table func_select
                     iz twog_params fminus) in
    let g2 := rec_dTmdlna xe_in Tm_in (T0 param * (1 + z1))
                (rec_HubbleConstant param z1) (fHe param)
                (nH0 param * (1 + z1) * (1 + z1) * (1 + z1) * 1e-6) z1
                (energy_injection_rate param z1) in
    let r2 := rec_get_xe_next2 param z1 xe_in Tm_in rate_table func_select iz
                twog_params fminus lags in
    (fst (fst r1) = step xe_in f1 (dxedlna_prev2 lags) (dlna param)
     /\ dxedlna_prev (snd r1) = f1
     /\ dxedlna_prev2 (snd r1) = dxedlna_prev lags)
    /\ (fst (fst (fst r2)) = step xe_in f2 (dxedlna_prev2 lags) (dlna param)
        /\ snd (fst (fst r2)) = step Tm_in g2 (dTmdlna_prev2 lags) (dlna param)
        /\ dxedlna_prev (snd r2) = f2
        /\ dxedlna_prev2 (snd r2) = dxedlna_prev lags
        /\ dTmdlna_prev (snd r2) = g2
        /\ dTmdlna_prev2 (snd r2) = dTmdlna_prev lags).
Proof.
  intros; subst r1 r2 f1 f2 g2.
  rewrite next1_out_eq, next2_out_eq; cbn -[next1_dxedlna next2_dxedlna].
  unfold step, next2_dTmdlna; repeat split; reflexivity.
Qed.

(** The sample read as f_{n-2} by the third of three successive calls is the
    derivative that the first of them evaluated. *)
Lemma next1_reads_two_calls_back param rate_table twog_params lags
    za xa fa ia fma zb xb fb ib fmb zc xc fc ic fmc :
  let ra := rec_get_xe_next1 param za xa rate_table fa ia twog_params fma lags in
  let rb := rec_get_xe_next1 param zb xb rate_table fb ib twog_params fmb
              (snd ra) in
  let rc := rec_get_xe_next1 param zc xc rate_table fc ic twog_params fmc
              (snd rb) in
  fst (fst rc)
  = step xc (fst (next1_dxedlna param zc xc rate_table fc ic twog_params fmc))
      (fst (next1_dxedlna param za xa rate_table fa ia twog_params fma))
      (dlna param).
Proof.
  intros ra rb rc; subst ra rb rc.
  rewrite !next1_out_eq; reflexivity.
Qed.

(** Pure repeated stepping with the derivative and the lagged sample both
    equal to [k]. *)
Lemma iter_step_const (k dl : R) (n : nat) (y0 : R) :
  Nat.iter n (fun y => step y k k dl) y0 = y0 + k * INR n * dl.
Proof.
  induction n as [|n IH].
  - simpl; ring.
  - rewrite S_INR; simpl Nat.iter; rewrite IH; unfold step; lra.
Qed.

Lemma repeat_next1_const param rate_table func_select twog_params (k : R)
    (Hk : forall z xe iz fminus,
        fst (next1_dxedlna param z xe rate_table func_select iz twog_params
               fminus) = k) :
  forall n zs izs xe fminus lags,
    dxedlna_prev lags = k -> dxedlna_prev2 lags = k ->
    fst (fst (repeat_next1 param rate_table func_select twog_params zs izs n
                xe fminus lags))
    = xe + k * INR n * dlna param.
Proof.
  induction n as [|n IH]; intros zs izs xe fminus lags Hp Hp2.
  - simpl; ring.
  - rewrite S_INR; simpl repeat_next1.
    rewrite next1_out_eq; cbv beta iota zeta.
    rewrite IH; cbn [dxedlna_prev dxedlna_prev2]; auto.
    rewrite Hk, Hp2; lra.
Qed.

(** C8.  With both derivative samples equal to k one step gives
    step(c, k, k, dlna) = c + k * dlna, and n repeated steps from y_0 give
    y_0 + k * n * dlna: for the operation of the specification, and for n
    successive calls of rec_get_xe_next1 whose kernel evaluates to k at every
    point, started with both stored samples equal to k. *)
Theorem C8_constant_derivative :
  (forall c k dl, step c k k dl = c + k * dl)
  /\ (forall k dl n y0,
         Nat.iter n (fun y => step y k k dl) y0 = y0 + k * INR n * dl)
  /\ (forall param rate_table func_select twog_params k,
         (forall z xe iz fminus,
             fst (next1_dxedlna param z xe rate_table func_select iz
                    twog_params fminus) = k) ->
         forall n zs izs y0 fminus lags,
           dxedlna_prev lags = k -> dxedlna_prev2 lags = k ->
           fst (fst (repeat_next1 param rate_table func_select twog_params
                       zs izs n y0 fminus lags))
           = y0 + k * INR n * dlna param).
Proof.
  split; [intros; unfold step; lra | split].
  - intros; apply iter_step_const.
  - intros; apply repeat_next1_const; assumption.
Qed.

(** ** Properties of the steady-state matter temperature *)

Lemma stage3_Tm_ignores_z_lags param rate_table twog_params s a b :
  Tm_output (stage3_body param rate_table twog_params (set_z_lags s a b))
  = Tm_output (stage3_body param rate_table twog_params s)
  /\ xe_output (stage3_body param rate_table twog_params (set_z_lags s a b))
     = xe_output (stage3_body param rate_table twog_params s).
Proof.
  unfold stage3_body, set_z_lags, set_lags; cbn [s_iz s_z xe_output Tm_output
    s_fminus s_lags s_H xe_stores Tm_stores].
  rewrite !next1_out_eq; cbn -[next1_dxedlna]; split; reflexivity.
Qed.

Lemma stage4_Tm_ignores_z_lags param rate_table twog_params s a b :
  Tm_output (stage4_body param rate_table twog_params (set_z_lags s a b))
  = Tm_output (stage4_body param rate_table twog_params s)
  /\ xe_output (stage4_body param rate_table twog_params (set_z_lags s a b))
     = xe_output (stage4_body param rate_table twog_params s).
Proof.
  unfold stage4_body, set_z_lags, set_lags; cbn [s_iz s_z xe_output Tm_output
    s_fminus s_lags s_H xe_stores Tm_stores].
  destruct (xe_PostSahaH _ _ _ _ _ _ _ _ _ _ _ _) as [[x d] f].
  split; reflexivity.
Qed.

(** C9.  rec_Tmss does not depend on its redshift argument; hence one pass
    of the body of the helium segment (stage 3) or of the hydrogen post-Saha
    segment (stage 4) stores the same Tm, and the same xe, whatever the
    lagged redshifts hold on entry. *)
Theorem C9_Tmss_independent_of_redshift :
  (forall xe Tr H fHe_ nH energy_rate z z',
      rec_Tmss xe Tr H fHe_ nH z energy_rate
      = rec_Tmss xe Tr H fHe_ nH z' energy_rate)
  /\ (forall param rate_table twog_params s a b,
         Tm_output (stage3_body param rate_table twog_params
                      (set_z_lags s a b))
         = Tm_output (stage3_body param rate_table twog_params s))
  /\ (forall param rate_table twog_params s a b,
         Tm_output (stage4_body param rate_table twog_params
                      (set_z_lags s a b))
         = Tm_output (stage4_body param rate_table twog_params s)).
Proof.
  split; [reflexivity | split]; intros.
  - apply stage3_Tm_ignores_z_lags.
  - apply stage4_Tm_ignores_z_lags.
Qed.


(** ** Properties of the Hubble rate *)

Lemma Rpower_pos x y : 0 < Rpower x y.
Proof. unfold Rpower; apply exp_pos. Qed.

(** Over the reals: for z > -1 and nonnegative omh2, okh2, odeh2, T0 and
    Nnueff, the inverse scale factor is positive, each of the five component
    densities is nonnegative, and so are their sum and the Hubble rate. *)
Lemma hubble_densities_nonneg :
  forall param z,
    -1 < z -> 0 <= omh2 param -> 0 <= okh2 param -> 0 <= odeh2 param ->
    0 <= T0 param -> 0 <= Nnueff param ->
    0 < 1 + z
    /\ Forall (fun r => 0 <= r) (rho_i param z)
    /\ 0 <= rho_total param z
    /\ 0 <= rec_HubbleConstant param z.
Proof.
  intros param z Hz Hm Hk Hde HT HN.
  assert (Ha : 0 < 1 + z) by lra.
  assert (H0 : 0 <= omh2 param * (1 + z) * (1 + z) * (1 + z)).
  { prod_nonneg. }
  assert (H1 : 0 <= okh2 param * (1 + z) * (1 + z)).
  { prod_nonneg. }
  assert (H2 : 0 <= odeh2 param * Rpower (1 + z) (3 * (1 + w0 param))
               * exp (3 * wa param * (ln (1 + z) - 1 + 1 / (1 + z)))).
  { apply Rmult_le_pos; [apply Rmult_le_pos; [lra |] |].
    - left; apply Rpower_pos.
    - left; apply exp_pos. }
  assert (H3 : 0 <= 4.48162687719e-7 * T0 param * T0 param * T0 param * T0 param
               * (1 + z) * (1 + z) * (1 + z) * (1 + z)).
  { prod_nonneg. }
  assert (H4 : 0 <= 0.227107317660239
               * (4.48162687719e-7 * T0 param * T0 param * T0 param * T0 param
                  * (1 + z) * (1 + z) * (1 + z) * (1 + z)) * Nnueff param).
  { prod_nonneg. }
  assert (Hsum : 0 <= rho_total param z).
  { unfold rho_total, rho_i; cbn [fold_left]; lra. }
  split; [exact Ha | split; [| split]].
  - unfold rho_i; cbv zeta.
    repeat (apply Forall_cons; [cbv beta; assumption |]); apply Forall_nil.
  - exact Hsum.
  - unfold rec_HubbleConstant; apply Rmult_le_pos; [lra | apply sqrt_pos].
Qed.


(** *** The Hubble rate on doubles with overflow *)

Lemma DBL_MAX_bounds : 1e300 <= Double.DBL_MAX < 1e309.
Proof. unfold Double.DBL_MAX; lra. Qed.

Lemma in_range_small r : -1e300 <= r <= 1e300 -> Double.in_range r.
Proof.
  intros Hr; unfold Double.in_range.
  apply Rle_trans with 1e300; [apply Rabs_le; lra |].
  apply DBL_MAX_bounds.
Qed.

Lemma overflow_in_range r :
  Double.in_range r -> Double.overflow r = Double.Finite r.
Proof.
  intros Hr; unfold Double.overflow.
  destruct (Rle_dec (Rabs r) Double.DBL_MAX); [reflexivity | contradiction].
Qed.

Lemma overflow_above r :
  Double.DBL_MAX < r -> Double.overflow r = Double.PInf.
Proof.
  intros Hr; unfold Double.overflow.
  pose proof DBL_MAX_bounds as [Hm _].
  destruct (Rle_dec (Rabs r) Double.DBL_MAX) as [Hle | _].
  - rewrite Rabs_right in Hle by lra; lra.
  - destruct (Rlt_dec 0 r); [reflexivity | lra].
Qed.

Lemma overflow_not_negative r :
  0 <= r -> Double.not_negative (Double.overflow r).
Proof.
  intros Hr; unfold Double.overflow.
  destruct (Rle_dec (Rabs r) Double.DBL_MAX) as [_ | Hn]; [exact Hr |].
  destruct (Rlt_dec 0 r) as [_ | Hn0]; [exact I |].
  apply Hn; replace r with 0 by lra.
  rewrite Rabs_R0; pose proof DBL_MAX_bounds; lra.
Qed.

Lemma overflow_positive r : 0 < r -> Double.positive (Double.overflow r).
Proof.
  intros Hr; unfold Double.overflow.
  destruct (Rle_dec (Rabs r) Double.DBL_MAX); [exact Hr |].
  destruct (Rlt_dec 0 r); [exact I | contradiction].
Qed.

Lemma positive_not_negative x : Double.positive x -> Double.not_negative x.
Proof. destruct x; cbn; intros H; first [exact I | contradiction | lra]. Qed.

Lemma dmul_not_negative x y :
  Double.not_negative x -> Double.not_negative y ->
  Double.not_negative (Double.dmul x y).
Proof.
  destruct x as [a | | |], y as [b | | |]; cbn; intros Ha Hb;
    try exact I; try contradiction.
  - apply overflow_not_negative, Rmult_le_pos; assumption.
  - unfold Double.inf_times.
    destruct (Req_dec_T a 0); [exact I |].
    destruct (Rlt_dec 0 a); [exact I | lra].
  - unfold Double.inf_times.
    destruct (Req_dec_T b 0); [exact I |].
    destruct (Rlt_dec 0 b); [exact I | lra].
Qed.

Lemma dadd_not_negative x y :
  Double.not_negative x -> Double.not_negative y ->
  Double.not_negative (Double.dadd x y).
Proof.
  destruct x as [a | | |], y as [b | | |]; cbn; intros Ha Hb;
    try exact I; try contradiction.
  apply overflow_not_negative; lra.
Qed.

Lemma dexp_not_negative x : Double.not_negative (Double.dexp x).
Proof.
  destruct x as [a | | |]; cbn; try exact I; try lra.
  apply overflow_not_negative; left; apply exp_pos.
Qed.

Lemma dsqrt_not_negative x :
  Double.not_negative x -> Double.not_negative (Double.dsqrt x).
Proof.
  destruct x as [a | | |]; cbn; intros Ha; try exact I; try contradiction.
  destruct (Rlt_dec a 0); [exact I | apply sqrt_pos].
Qed.

Lemma dpow_not_negative x y :
  Double.positive x -> Double.not_negative (Double.dpow x y).
Proof.
  intros Hx; unfold Double.dpow.
  destruct y as [b | | |].
  - destruct (Req_dec_T b 0); [cbn; lra |].
    destruct x as [a | | |]; cbn in Hx; try contradiction.
    + destruct (Req_dec_T a 1); [cbn; lra |].
      unfold Double.pow_finite_exponent.
      destruct (Rlt_dec 0 a); [| contradiction].
      apply overflow_not_negative; left; apply Rpower_pos.
    + unfold Double.pow_finite_exponent.
      destruct (Rlt_dec b 0); cbn; [lra | exact I].
  - destruct x as [a | | |]; cbn in Hx; try contradiction; cbn.
    + destruct (Req_dec_T (Rabs a) 1); [cbn; lra |].
      destruct (Rlt_dec (Rabs a) 1); cbn; [lra | exact I].
    + exact I.
  - destruct x as [a | | |]; cbn in Hx; try contradiction; cbn.
    + destruct (Req_dec_T (Rabs a) 1); [cbn; lra |].
      destruct (Rlt_dec (Rabs a) 1); cbn; [exact I | lra].
    + lra.
  - destruct x as [a | | |]; cbn in Hx; try contradiction; cbn.
    + destruct (Req_dec_T a 1); cbn; [lra | exact I].
    + exact I.
Qed.

(** An operation on finite operands whose real result is in range delivers
    that result. *)
Lemma dadd_finite a b :
  Double.in_range (a + b) ->
  Double.dadd (Double.Finite a) (Double.Finite b) = Double.Finite (a + b).
Proof. intros H; cbn; apply overflow_in_range; exact H. Qed.

Lemma dsub_finite a b :
  Double.in_range (a - b) ->
  Double.dsub (Double.Finite a) (Double.Finite b) = Double.Finite (a - b).
Proof. intros H; cbn; apply overflow_in_range; exact H. Qed.

Lemma dmul_finite a b :
  Double.in_range (a * b) ->
  Double.dmul (Double.Finite a) (Double.Finite b) = Double.Finite (a * b).
Proof. intros H; cbn; apply overflow_in_range; exact H. Qed.

Lemma ddiv_finite a b :
  b <> 0 -> Double.in_range (a / b) ->
  Double.ddiv (Double.Finite a) (Double.Finite b) = Double.Finite (a / b).
Proof.
  intros Hb H; cbn; destruct (Req_dec_T b 0); [contradiction |].
  apply overflow_in_range; exact H.
Qed.

Lemma dexp_finite a :
  Double.in_range (exp a) ->
  Double.dexp (Double.Finite a) = Double.Finite (exp a).
Proof. intros H; cbn; apply overflow_in_range; exact H. Qed.

Lemma dlog_finite a :
  0 < a -> Double.in_range (ln a) ->
  Double.dlog (Double.Finite a) = Double.Finite (ln a).
Proof.
  intros Ha H; cbn.
  destruct (Rlt_dec a 0); [lra |].
  destruct (Req_dec_T a 0); [lra |].
  apply overflow_in_range; exact H.
Qed.

Lemma dsqrt_finite a :
  0 <= a -> Double.dsqrt (Double.Finite a) = Double.Finite (sqrt a).
Proof. intros Ha; cbn; destruct (Rlt_dec a 0); [lra | reflexivity]. Qed.

Lemma dpow_finite a b :
  0 < a -> Double.in_range (Rpower a b) ->
  Double.dpow (Double.Finite a) (Double.Finite b)
  = Double.Finite (Rpower a b).
Proof.
  intros Ha H; unfold Double.dpow.
  destruct (Req_dec_T b 0) as [-> | _].
  { rewrite Rpower_O by exact Ha; reflexivity. }
  destruct (Req_dec_T a 1) as [-> | _].
  { unfold Rpower; rewrite ln_1, Rmult_0_r, exp_0; reflexivity. }
  unfold Double.pow_finite_exponent.
  destruct (Rlt_dec 0 a); [| contradiction].
  apply overflow_in_range; exact H.
Qed.

Lemma dadd_NaN_r x : Double.dadd x Double.NaN = Double.NaN.
Proof. destruct x; reflexivity. Qed.

Lemma hubble_not_negative param z :
  -1 < z -> 0 <= omh2 param -> 0 <= okh2 param -> 0 <= odeh2 param ->
  0 <= T0 param -> 0 <= Nnueff param ->
  Forall Double.not_negative (Double.rho_i param z)
  /\ Double.not_negative (Double.rho_total param z)
  /\ Double.not_negative (Double.rec_HubbleConstant param z).
Proof.
  intros Hz Hm Hk Hde HT HN.
  unfold Double.rec_HubbleConstant, Double.rho_total, Double.rho_i.
  cbv zeta.
  set (ainv := Double.dadd (Double.Finite 1) (Double.Finite z)).
  assert (Hp : Double.positive ainv).
  { unfold ainv; cbn; apply overflow_positive; lra. }
  assert (Ha : Double.not_negative ainv)
    by (apply positive_not_negative; exact Hp).
  assert (Fin : forall r, 0 <= r -> Double.not_negative (Double.Finite r))
    by (intros r Hr; exact Hr).
  set (rho_0 := Double.dmul (Double.dmul (Double.dmul _ ainv) ainv) ainv).
  set (rho_1 := Double.dmul (Double.dmul (Double.Finite (okh2 param)) ainv)
                  ainv).
  set (rho_2 := Double.dmul (Double.dmul (Double.Finite (odeh2 param)) _)
                  (Double.dexp _)).
  set (rho_3 := Double.dmul (Double.dmul (Double.dmul (Double.dmul _ ainv)
                                            ainv) ainv) ainv).
  set (rho_4 := Double.dmul (Double.dmul _ rho_3) _).
  assert (H0 : Double.not_negative rho_0).
  { unfold rho_0; repeat apply dmul_not_negative; auto. }
  assert (H1 : Double.not_negative rho_1).
  { unfold rho_1; repeat apply dmul_not_negative; auto. }
  assert (H2 : Double.not_negative rho_2).
  { unfold rho_2; repeat apply dmul_not_negative; auto.
    - apply dpow_not_negative; exact Hp.
    - apply dexp_not_negative. }
  assert (H3 : Double.not_negative rho_3).
  { unfold rho_3; repeat apply dmul_not_negative; auto; apply Fin; lra. }
  assert (H4 : Double.not_negative rho_4).
  { unfold rho_4; apply dmul_not_negative; [| exact HN].
    apply dmul_not_negative; [apply Fin; lra | exact H3]. }
  assert (Hsum : Double.not_negative
                   (fold_left Double.dadd [rho_0; rho_1; rho_2; rho_3; rho_4]
                      (Double.Finite 0))).
  { cbn [fold_left]; repeat apply dadd_not_negative; auto; apply Fin; lra. }
  split; [| split].
  - repeat (apply Forall_cons; [assumption |]); apply Forall_nil.
  - exact Hsum.
  - apply dmul_not_negative; [apply Fin; lra |].
    apply dsqrt_not_negative; exact Hsum.
Qed.

Lemma hubble_no_overflow param z :
  -1 < z -> 0 <= rho_total param z ->
  Forall Double.in_range (hubble_results param z) ->
  Double.rho_i param z = map Double.Finite (rho_i param z)
  /\ Double.rho_total param z = Double.Finite (rho_total param z)
  /\ Double.rec_HubbleConstant param z
     = Double.Finite (rec_HubbleConstant param z).
Proof.
  intros Hz Hrho Hr.
  assert (Ha : 0 < 1 + z) by lra.
  assert (Ha' : 1 + z <> 0) by lra.
  unfold hubble_results in Hr; cbv zeta in Hr.
  repeat match type of Hr with
         | Forall _ (_ :: _) =>
             let H := fresh "R" in
             apply Forall_cons_iff in Hr; destruct Hr as [H Hr]
         end.
  clear Hr.
  assert (Ei : Double.rho_i param z = map Double.Finite (rho_i param z)).
  { unfold Double.rho_i, rho_i; cbv zeta; cbn [map].
    repeat first [ rewrite dadd_finite by assumption
                 | rewrite dsub_finite by assumption
                 | rewrite dmul_finite by assumption
                 | rewrite ddiv_finite by assumption
                 | rewrite dlog_finite by assumption
                 | rewrite dexp_finite by assumption
                 | rewrite dpow_finite by assumption ].
    reflexivity. }
  assert (Et : Double.rho_total param z = Double.Finite (rho_total param z)).
  { unfold Double.rho_total; rewrite Ei.
    unfold rho_total, rho_i; cbv zeta; cbn [map fold_left].
    repeat rewrite dadd_finite by assumption.
    reflexivity. }
  split; [exact Ei | split; [exact Et |]].
  unfold Double.rec_HubbleConstant; rewrite Et.
  rewrite dsqrt_finite by exact Hrho.
  unfold rec_HubbleConstant.
  apply dmul_finite.
  unfold rho_total, rho_i; cbv zeta; cbn [fold_left]; assumption.
Qed.

(** C10, as the code has it.  For z > -1 and nonnegative omh2, okh2, odeh2,
    T0 and Nnueff: over the reals the inverse scale factor is positive, each
    of the five component densities is nonnegative, the argument of the
    square root is nonnegative and so is the Hubble rate.  On doubles every
    density, their sum and the returned rate are never negative: each is a
    nonnegative number, +inf or NaN.  When no operation overflows, the five
    densities and the returned rate are the nonnegative real numbers of the
    formula; an overflow can make a density 0 * inf, and then the function
    returns NaN. *)
Theorem C10_hubble_rate_nonnegative :
  forall param z,
    -1 < z -> 0 <= omh2 param -> 0 <= okh2 param -> 0 <= odeh2 param ->
    0 <= T0 param -> 0 <= Nnueff param ->
    0 < 1 + z
    /\ Forall (fun r => 0 <= r) (rho_i param z)
    /\ 0 <= rho_total param z
    /\ 0 <= rec_HubbleConstant param z
    /\ Forall Double.not_negative (Double.rho_i param z)
    /\ Double.not_negative (Double.rho_total param z)
    /\ Double.not_negative (Double.rec_HubbleConstant param z)
    /\ (Forall Double.in_range (hubble_results param z) ->
        Double.rho_i param z = map Double.Finite (rho_i param z)
        /\ Double.rec_HubbleConstant param z
           = Double.Finite (rec_HubbleConstant param z)).
Proof.
  intros param z Hz Hm Hk Hde HT HN.
  destruct (hubble_densities_nonneg param z Hz Hm Hk Hde HT HN)
    as (Ha & Hi & Ht & Hh).
  destruct (hubble_not_negative param z Hz Hm Hk Hde HT HN)
    as (Di & Dt & Dh).
  repeat (split; [assumption |]).
  intros Hr.
  destruct (hubble_no_overflow param z Hz Ht Hr) as (Ei & _ & Eh).
  split; assumption.
Qed.

(** C5, as the code has it.  For z > -1 the dark-energy density is
    odeh2 * a^(-3(1+w0)) * exp(3*wa*(a - 1 - ln a)) with a = 1/(1+z): the
    exponent carries a - 1 - ln a, not ln a. *)
Theorem C5_dark_energy_density :
  forall param z,
    -1 < z ->
    let a := / (1 + z) in
    nth 2 (rho_i param z) 0
    = odeh2 param * Rpower a (- 3 * (1 + w0 param))
      * exp (3 * wa param * (a - 1 - ln a)).
Proof.
  intros param z Hz a; subst a.
  assert (Ha : 0 < 1 + z) by lra.
  unfold rho_i; cbn [nth].
  rewrite ln_Rinv by assumption.
  f_equal; [f_equal |].
  - unfold Rpower; rewrite ln_Rinv by assumption; f_equal; ring.
  - f_equal; field; lra.
Qed.

(** ** Properties of the energy injection rate *)

Lemma continuity_pt_glue (f g h : R -> R) (a c b : R) :
  a < c < b ->
  (forall x, a < x <= c -> f x = h x) ->
  (forall x, c < x < b -> f x = g x) ->
  g c = h c ->
  continuity_pt g c -> continuity_pt h c -> continuity_pt f c.
Proof.
  intros [Hac Hcb] Hlow Hhigh Hgh Hg Hh eps Heps.
  destruct (Hg eps Heps) as [ag [Hag Hg']].
  destruct (Hh eps Heps) as [ah [Hah Hh']].
  set (d := Rmin (Rmin ag ah) (Rmin (c - a) (b - c))).
  assert (Hd : 0 < d).
  { unfold d; repeat apply Rmin_glb_lt; lra. }
  exists d; split; [exact Hd |].
  intros x [Hx Hdist].
  assert (Hdag : d <= ag).
  { unfold d; eapply Rle_trans; [apply Rmin_l | apply Rmin_l]. }
  assert (Hdah : d <= ah).
  { unfold d; eapply Rle_trans; [apply Rmin_l | apply Rmin_r]. }
  assert (Hdca : d <= c - a).
  { unfold d; eapply Rle_trans; [apply Rmin_r | apply Rmin_l]. }
  assert (Hdbc : d <= b - c).
  { unfold d; eapply Rle_trans; [apply Rmin_r | apply Rmin_r]. }
  simpl in Hdist |- *; unfold R_dist in Hdist |- *.
  assert (Habs : a < x < b).
  { apply Rabs_def2 in Hdist; lra. }
  rewrite (Hlow c) by lra.
  destruct (Rle_dec x c) as [Hle | Hgt].
  - rewrite (Hlow x) by lra.
    apply Hh'; split; [exact Hx | simpl; unfold R_dist; lra].
  - rewrite (Hhigh x) by lra.
    rewrite <- Hgh.
    apply Hg'; split; [exact Hx | simpl; unfold R_dist; lra].
Qed.

Lemma continuity_pt_ln (x : R) : 0 < x -> continuity_pt ln x.
Proof.
  intros Hx; apply derivable_continuous_pt.
  exists (/ x); apply derivable_pt_lim_ln; exact Hx.
Qed.

Lemma continuity_pt_exp (x : R) : continuity_pt exp x.
Proof. apply derivable_continuous_pt, derivable_pt_exp. Qed.

Lemma continuity_pt_succ (x : R) : continuity_pt (fun z => 1 + z) x.
Proof.
  apply (continuity_pt_plus (fun _ => 1) (fun z => z)).
  - apply continuity_pt_const; intros u v; reflexivity.
  - apply derivable_continuous_pt, derivable_pt_id.
Qed.

Lemma continuity_pt_pow_shift (n : nat) (x : R) :
  continuity_pt (fun z => (1 + z) ^ n) x.
Proof.
  induction n as [|n IH].
  - apply continuity_pt_const; intros u v; reflexivity.
  - apply (continuity_pt_mult (fun z => 1 + z) (fun z => (1 + z) ^ n)).
    + apply continuity_pt_succ.
    + exact IH.
Qed.

Lemma continuity_pt_p_mid (param : REC_COSMOPARAMS) (x : R) :
  -1 < x -> continuity_pt (p_annihilation_mid param) x.
Proof.
  intros Hx.
  set (L := fun z : R => ln ((1 + z) / 2501)).
  assert (HL : continuity_pt L x).
  { apply (continuity_pt_comp (fun z => (1 + z) / 2501) ln).
    - apply (continuity_pt_mult (fun z => 1 + z) (fun _ => / 2501)).
      + apply continuity_pt_succ.
      + apply continuity_pt_const; intros u v; reflexivity.
    - apply continuity_pt_ln.
      apply Rdiv_lt_0_compat; lra. }
  set (E := fun z : R => alpha param * (L z * L z - 0.838490285049671)).
  assert (HE : continuity_pt E x).
  { apply (continuity_pt_mult (fun _ => alpha param)
             (fun z => L z * L z - 0.838490285049671)).
    - apply continuity_pt_const; intros u v; reflexivity.
    - apply (continuity_pt_minus (fun z => L z * L z)
               (fun _ => 0.838490285049671)).
      + apply (continuity_pt_mult L L); exact HL.
      + apply continuity_pt_const; intros u v; reflexivity. }
  apply (continuity_pt_mult (fun _ => p_ann param) (fun z => exp (E z))).
  - apply continuity_pt_const; intros u v; reflexivity.
  - apply (continuity_pt_comp E exp); [exact HE | apply continuity_pt_exp].
Qed.

Lemma p_branches_agree (param : REC_COSMOPARAMS) :
  p_annihilation_high param = p_annihilation_mid param 2500
  /\ p_annihilation_mid param 30 = p_annihilation_low param.
Proof.
  unfold p_annihilation_high, p_annihilation_mid, p_annihilation_low; split.
  - replace ((1 + 2500) / 2501) with 1 by field.
    rewrite ln_1; f_equal; f_equal; ring.
  - replace (1 + 30) with 31 by ring; reflexivity.
Qed.

Lemma continuity_pt_p_2500 (param : REC_COSMOPARAMS) :
  continuity_pt (p_annihilation_at_z param) 2500.
Proof.
  apply (continuity_pt_glue _ (fun _ => p_annihilation_high param)
           (p_annihilation_mid param) 30 2500 3000).
  - lra.
  - intros x Hx; unfold p_annihilation_at_z.
    destruct (Rgt_dec x 2500); [lra |].
    destruct (Rgt_dec x 30); [reflexivity | lra].
  - intros x Hx; unfold p_annihilation_at_z.
    destruct (Rgt_dec x 2500); [reflexivity | lra].
  - apply p_branches_agree.
  - apply continuity_pt_const; intros u v; reflexivity.
  - apply continuity_pt_p_mid; lra.
Qed.

Lemma continuity_pt_p_30 (param : REC_COSMOPARAMS) :
  continuity_pt (p_annihilation_at_z param) 30.
Proof.
  apply (continuity_pt_glue _ (p_annihilation_mid param)
           (fun _ => p_annihilation_low param) 0 30 2500).
  - lra.
  - intros x Hx; unfold p_annihilation_at_z.
    destruct (Rgt_dec x 2500); [lra |].
    destruct (Rgt_dec x 30); [lra | reflexivity].
  - intros x Hx; unfold p_annihilation_at_z.
    destruct (Rgt_dec x 2500); [lra |].
    destruct (Rgt_dec x 30); [reflexivity | lra].
  - apply p_branches_agree.
  - apply continuity_pt_p_mid; lra.
  - apply continuity_pt_const; intros u v; reflexivity.
Qed.

Lemma continuity_pt_rate (param : REC_COSMOPARAMS) (x : R) :
  continuity_pt (p_annihilation_at_z param) x ->
  continuity_pt (energy_injection_rate param) x.
Proof.
  intros Hp; unfold energy_injection_rate; cbv zeta.
  apply (continuity_pt_plus
           (fun z => (omh2 param * 4.827652e-18) ^ 2 * (1 + z) ^ 6
                     * p_annihilation_at_z param z)
           (fun z => 1.932e-10 * (1 + z) ^ 3 * p_dec param)).
  - apply (continuity_pt_mult
             (fun z => (omh2 param * 4.827652e-18) ^ 2 * (1 + z) ^ 6)
             (p_annihilation_at_z param)); [| exact Hp].
    apply (continuity_pt_mult (fun _ => (omh2 param * 4.827652e-18) ^ 2)
             (fun z => (1 + z) ^ 6)).
    + apply continuity_pt_const; intros u v; reflexivity.
    + apply continuity_pt_pow_shift.
  - apply (continuity_pt_mult (fun z => 1.932e-10 * (1 + z) ^ 3)
             (fun _ => p_dec param)).
    + apply (continuity_pt_mult (fun _ => 1.932e-10) (fun z => (1 + z) ^ 3)).
      * apply continuity_pt_const; intros u v; reflexivity.
      * apply continuity_pt_pow_shift.
    + apply continuity_pt_const; intros u v; reflexivity.
Qed.

(** C6.  The annihilation efficiency is continuous at both regime
    boundaries: the branch for z > 2500 and the branch for 30 < z <= 2500
    agree at z = 2500, the middle branch at z = 30 equals the frozen branch
    for z <= 30, and so p(z) and the total injection rate are continuous
    functions of z at 2500 and at 30. *)
Theorem C6_injection_rate_continuous :
  forall param,
    p_annihilation_high param = p_annihilation_mid param 2500
    /\ p_annihilation_mid param 30 = p_annihilation_low param
    /\ continuity_pt (p_annihilation_at_z param) 2500
    /\ continuity_pt (p_annihilation_at_z param) 30
    /\ continuity_pt (energy_injection_rate param) 2500
    /\ continuity_pt (energy_injection_rate param) 30.
Proof.
  intros param.
  pose proof (p_branches_agree param) as [H1 H2].
  pose proof (continuity_pt_p_2500 param) as H3.
  pose proof (continuity_pt_p_30 param) as H4.
  repeat split; try assumption; apply continuity_pt_rate; assumption.
Qed.

(** ** Termination and the order of the stores *)

(** The indices 0, 1, ..., n-1 in increasing order. *)
Lemma iota_succ (i : Z) :
  (0 <= i)%Z ->
  map Z.of_nat (seq 0 (Z.to_nat (i + 1)))
  = map Z.of_nat (seq 0 (Z.to_nat i)) ++ [i].
Proof.
  intros Hi.
  replace (Z.to_nat (i + 1)) with (S (Z.to_nat i)) by lia.
  rewrite seq_S, map_app; simpl.
  rewrite Z2Nat.id by exact Hi; reflexivity.
Qed.

Lemma for_loop_populated (n : Z) cond body :
  cond_bounded n cond -> body_stores_at_iz body ->
  forall k s,
    populated n s -> (n - s_iz s <= Z.of_nat k)%Z ->
    exists s', for_loop k cond body s = Some s'
               /\ populated n s' /\ cond s' = false.
Proof.
  intros Hc Hb; induction k as [|k IH]; intros s Hp Hfuel.
  - simpl; destruct (cond s) eqn:E.
    + apply Hc in E; lia.
    + exists s; auto.
  - simpl; destruct (cond s) eqn:E.
    + apply Hc in E.
      destruct (Hb s) as (Hi & Hx & Ht).
      destruct Hp as (H0 & Hn & Hxs & Hts).
      apply IH.
      * unfold populated, next_iz, xe_stores, Tm_stores in *.
        cbn [s_iz xe_output Tm_output stores map].
        rewrite Hi, Hx, Ht, Hxs, Hts, iota_succ by exact H0.
        repeat split; lia.
      * unfold next_iz; cbn [s_iz]; lia.
    + exists s; auto.
Qed.

Lemma stage1_stores param : body_stores_at_iz (stage1_body param).
Proof.
  intros s; unfold stage1_body.
  destruct (rec_sahaHeII _ _ _ _) as [x d].
  unfold xe_stores, Tm_stores, store; cbn [s_iz xe_output Tm_output stores].
  rewrite !map_app; repeat split.
Qed.

Lemma stage2_stores param : body_stores_at_iz (stage2_body param).
Proof.
  intros s; unfold stage2_body.
  destruct (xe_PostSahaHe _ _ _ _ _) as [x d].
  unfold xe_stores, Tm_stores, store; cbn [s_iz xe_output Tm_output stores].
  rewrite !map_app; repeat split.
Qed.

Lemma stage3_stores param rate_table twog_params :
  body_stores_at_iz (stage3_body param rate_table twog_params).
Proof.
  intros s; unfold stage3_body.
  destruct (rec_get_xe_next1 _ _ _ _ _ _ _ _ _) as [[x f] l].
  unfold xe_stores, Tm_stores, store; cbn [s_iz xe_output Tm_output stores].
  rewrite !map_app; repeat split.
Qed.

Lemma stage4_stores param rate_table twog_params :
  body_stores_at_iz (stage4_body param rate_table twog_params).
Proof.
  intros s; unfold stage4_body.
  destruct (xe_PostSahaH _ _ _ _ _ _ _ _ _ _ _ _) as [[x d] f].
  unfold xe_stores, Tm_stores, store; cbn [s_iz xe_output Tm_output stores].
  rewrite !map_app; repeat split.
Qed.

Lemma stage5_stores param rate_table twog_params :
  body_stores_at_iz (stage5_body param rate_table twog_params).
Proof.
  intros s; unfold stage5_body.
  destruct (rec_get_xe_next1 _ _ _ _ _ _ _ _ _) as [[x f] l].
  unfold xe_stores, Tm_stores, store; cbn [s_iz xe_output Tm_output stores].
  rewrite !map_app; repeat split.
Qed.

Lemma stage678_stores param rate_table twog_params func_select :
  body_stores_at_iz (stage678_body param rate_table twog_params func_select).
Proof.
  intros s; unfold stage678_body.
  destruct (rec_get_xe_next2 _ _ _ _ _ _ _ _ _ _) as [[[x t] f] l].
  unfold xe_stores, Tm_stores, store; cbn [s_iz xe_output Tm_output stores].
  rewrite !map_app; repeat split.
Qed.

Lemma andb_bounded (n : Z) (rest : STATE -> bool) :
  cond_bounded n (fun s => (s_iz s <? n)%Z && rest s).
Proof.
  intros s H; apply andb_true_iff in H; destruct H as [H _].
  apply Z.ltb_lt; exact H.
Qed.

Lemma stage_conds_bounded param :
  cond_bounded (nz param) (stage1_cond param)
  /\ cond_bounded (nz param) (stage2_cond param)
  /\ cond_bounded (nz param) (stage3_cond param)
  /\ cond_bounded (nz param) (stage4_cond param)
  /\ cond_bounded (nz param) (stage5_cond param)
  /\ cond_bounded (nz param) (stage6_cond param)
  /\ cond_bounded (nz param) (stage7_cond param)
  /\ cond_bounded (nz param) (stage8_cond param).
Proof.
  repeat split; intros s H.
  - apply (andb_bounded _ (fun s => Rgtb (s_Delta_xe s) 1e-9)); exact H.
  - apply (andb_bounded _ (fun s => Rltb (s_Delta_xe s) 5e-4)); exact H.
  - apply (andb_bounded _
             (fun s => Rgtb (s_Delta_xe s) 1e-4 || Rgtb (s_z s) 1650));
      exact H.
  - apply (andb_bounded _ (fun s => Rltb (s_Delta_xe s) 5e-5)); exact H.
  - unfold stage5_cond in H; rewrite <- andb_assoc in H.
    apply andb_true_iff in H; destruct H as [H _]; apply Z.ltb_lt; exact H.
  - apply (andb_bounded _ (fun s => Rgtb (s_z s) 700)); exact H.
  - apply (andb_bounded _ (fun s => Rgtb (s_z s) 20)); exact H.
  - apply Z.ltb_lt; exact H.
Qed.

(** Every loop of rec_build_history, run on [fuel param], returns. *)
Lemma stage_loop_returns param cond body s :
  cond_bounded (nz param) cond -> body_stores_at_iz body ->
  populated (nz param) s ->
  exists s', for_loop (fuel param) cond body s = Some s'
             /\ populated (nz param) s' /\ cond s' = false.
Proof.
  intros Hc Hb Hp; apply (for_loop_populated (nz param)); auto.
  destruct Hp as (H0 & _); unfold fuel; lia.
Qed.

Lemma populated_set_Delta_xe n s v :
  populated n s -> populated n (set_Delta_xe s v).
Proof. intros H; exact H. Qed.

Lemma populated_set_lags n s l : populated n s -> populated n (set_lags s l).
Proof. intros H; exact H. Qed.

Lemma history_to_stage3_returns param s0 :
  populated (nz param) s0 ->
  exists s, history_to_stage3 param s0 = Some s /\ populated (nz param) s.
Proof.
  intros Hp; unfold history_to_stage3.
  destruct (stage_conds_bounded param) as (C1 & C2 & _).
  destruct (stage_loop_returns param _ _ s0 C1 (stage1_stores param) Hp)
    as (s1 & E1 & P1 & _).
  rewrite E1; cbn [obind].
  destruct (stage_loop_returns param _ _ (set_Delta_xe s1 0) C2
              (stage2_stores param) (populated_set_Delta_xe _ _ _ P1))
    as (s2 & E2 & P2 & _).
  rewrite E2; cbn [obind].
  eexists; split; [reflexivity | exact P2].
Qed.

Lemma history_to_stage5_returns param rate_table twog_params s0 :
  populated (nz param) s0 ->
  exists s, history_to_stage5 param rate_table twog_params s0 = Some s
            /\ populated (nz param) s.
Proof.
  intros Hp; unfold history_to_stage5.
  destruct (stage_conds_bounded param) as (_ & _ & C3 & C4 & _).
  destruct (history_to_stage3_returns param s0 Hp) as (s & E & P).
  rewrite E; cbn [obind].
  destruct (stage_loop_returns param _ _ s C3
              (stage3_stores param rate_table twog_params) P)
    as (s3 & E3 & P3 & _).
  rewrite E3; cbn [obind].
  destruct (stage_loop_returns param _ _ (set_Delta_xe s3 0) C4
              (stage4_stores param rate_table twog_params)
              (populated_set_Delta_xe _ _ _ P3))
    as (s4 & E4 & P4 & _).
  rewrite E4; cbn [obind].
  eexists; split; [reflexivity | exact P4].
Qed.

Lemma history_to_stage6_returns param rate_table twog_params s0 :
  populated (nz param) s0 ->
  exists s, history_to_stage6 param rate_table twog_params s0 = Some s
            /\ populated (nz param) s.
Proof.
  intros Hp; unfold history_to_stage6.
  destruct (stage_conds_bounded param) as (_ & _ & _ & _ & C5 & _).
  destruct (history_to_stage5_returns param rate_table twog_params s0 Hp)
    as (s & E & P).
  rewrite E; cbn [obind].
  destruct (stage_loop_returns param _ _ s C5
              (stage5_stores param rate_table twog_params) P)
    as (s5 & E5 & P5 & _).
  rewrite E5; cbn [obind].
  eexists; split; [reflexivity | exact P5].
Qed.

Lemma history_from_stage6_returns param rate_table twog_params s :
  populated (nz param) s ->
  exists s', history_from_stage6 param rate_table twog_params s = Some s'
             /\ populated (nz param) s' /\ (nz param <= s_iz s')%Z.
Proof.
  intros Hp; unfold history_from_stage6.
  destruct (stage_conds_bounded param)
    as (_ & _ & _ & _ & _ & C6 & C7 & C8).
  destruct (stage_loop_returns param _ _ s C6
              (stage678_stores param rate_table twog_params FUNC_H2G) Hp)
    as (s6 & E6 & P6 & _).
  rewrite E6; cbn [obind].
  destruct (stage_loop_returns param _ _ s6 C7
              (stage678_stores param rate_table twog_params FUNC_HMLA) P6)
    as (s7 & E7 & P7 & _).
  rewrite E7; cbn [obind].
  destruct (stage_loop_returns param _ _ s7 C8
              (stage678_stores param rate_table twog_params FUNC_PEEBLES) P7)
    as (s8 & E8 & P8 & F8).
  exists s8; repeat split; try apply P8; [exact E8 |].
  unfold stage8_cond in F8; apply Z.ltb_ge; exact F8.
Qed.

(** A cell that has been stored to once holds the value of that store. *)
Lemma load_stored (a : ARRAY) (i : Z) (v : R) :
  NoDup (map fst (stores a)) -> In (i, v) (stores a) -> a i = v.
Proof.
  unfold load; generalize (at_call a i) as r0.
  induction (stores a) as [|[k w] l IH] using rev_ind; intros r0 Hnd Hin.
  - destruct Hin.
  - rewrite fold_left_app; cbn [fold_left fst snd].
    rewrite map_app in Hnd; cbn [map fst] in Hnd.
    apply in_app_or in Hin; destruct Hin as [Hin | [Heq | []]].
    + destruct (Z.eq_dec i k) as [-> | Hne].
      * exfalso; apply NoDup_remove_2 in Hnd; apply Hnd.
        rewrite app_nil_r; apply (in_map fst _ _ Hin).
      * apply NoDup_remove_1 in Hnd; rewrite app_nil_r in Hnd.
        apply IH; assumption.
    + injection Heq as -> ->.
      destruct (Z.eq_dec i i); [reflexivity | contradiction].
Qed.

(** C3.  rec_build_history returns for every parameter set and every
    behaviour of the solvers and kernels it calls, so also when the exit test
    of a stage never holds and for every nz >= 5; on return the stores it has
    performed on each of the two arrays are at the indices 0, 1, ..., nz-1,
    in this order: every index once, none skipped, none repeated; and every
    cell stored to holds the value of its store. *)
Theorem C3_history_fully_populated :
  forall param rate_table twog_params xe0 Tm0 H_indet lags_indet,
  exists s,
    rec_build_history param rate_table twog_params xe0 Tm0 H_indet lags_indet
    = Some s
    /\ xe_stores s = map Z.of_nat (seq 0 (Z.to_nat (nz param)))
    /\ Tm_stores s = map Z.of_nat (seq 0 (Z.to_nat (nz param)))
    /\ NoDup (xe_stores s) /\ NoDup (Tm_stores s)
    /\ (forall i, In i (xe_stores s) <-> (0 <= i < nz param)%Z)
    /\ (forall i, In i (Tm_stores s) <-> (0 <= i < nz param)%Z)
    /\ (forall i v, In (i, v) (stores (xe_output s)) -> xe_output s i = v)
    /\ (forall i v, In (i, v) (stores (Tm_output s)) -> Tm_output s i = v).
Proof.
  intros param rate_table twog_params xe0 Tm0 H_indet lags_indet.
  unfold rec_build_history.
  assert (P0 : populated (nz param)
                 (initial_state param xe0 Tm0 H_indet lags_indet)).
  { unfold populated, initial_state, xe_stores, Tm_stores;
      cbn [s_iz xe_output Tm_output stores map].
    repeat split; try reflexivity; lia. }
  destruct (history_to_stage6_returns param rate_table twog_params _ P0)
    as (s & E & P).
  rewrite E; cbn [obind].
  destruct (history_from_stage6_returns param rate_table twog_params s P)
    as (s' & E' & (H0 & Hn & Hx & Ht) & Hge).
  assert (Hiz : Z.to_nat (s_iz s') = Z.to_nat (nz param)) by lia.
  rewrite Hiz in Hx, Ht.
  assert (Hnd : NoDup (map Z.of_nat (seq 0 (Z.to_nat (nz param))))).
  { apply NoDup_map_NoDup_ForallPairs; [| apply seq_NoDup].
    intros x y _ _ Hxy; apply Nat2Z.inj; exact Hxy. }
  assert (Hin : forall i, In i (map Z.of_nat (seq 0 (Z.to_nat (nz param))))
                          <-> (0 <= i < nz param)%Z).
  { intros i; rewrite in_map_iff; split.
    - intros (k & Hk & Hk'); apply in_seq in Hk'; lia.
    - intros Hi; exists (Z.to_nat i); split; [lia | apply in_seq; lia]. }
  exists s'.
  split; [exact E' |].
  split; [exact Hx |]. split; [exact Ht |].
  split; [rewrite Hx; exact Hnd |]. split; [rewrite Ht; exact Hnd |].
  split; [rewrite Hx; exact Hin |]. split; [rewrite Ht; exact Hin |].
  split; intros i v Hiv; apply load_stored; try exact Hiv.
  - fold (xe_stores s'); rewrite Hx; exact Hnd.
  - fold (Tm_stores s'); rewrite Ht; exact Hnd.
Qed.

(** ** Seeding of the lagged samples *)

Lemma seed_xe_seeded param s : xe_lags_seeded param (seed_xe param s).
Proof.
  unfold xe_lags_seeded, seed_xe, set_lags, z_grid;
    cbn [s_iz s_lags xe_output z_prev z_prev2 dxedlna_prev dxedlna_prev2].
  repeat split; unfold Rdiv; rewrite Rinv_mult; ring.
Qed.

Lemma seed_Tm_seeded param s : Tm_lags_seeded param (seed_Tm param s).
Proof.
  unfold Tm_lags_seeded, seed_Tm, set_lags;
    cbn [s_iz s_z s_lags xe_output Tm_output z_prev z_prev2 dTmdlna_prev
         dTmdlna_prev2].
  split; reflexivity.
Qed.

Lemma seed_Tm_keeps_xe_lags param s :
  s_iz (seed_Tm param s) = s_iz s
  /\ xe_output (seed_Tm param s) = xe_output s
  /\ Tm_output (seed_Tm param s) = Tm_output s
  /\ z_prev (s_lags (seed_Tm param s)) = z_prev (s_lags s)
  /\ z_prev2 (s_lags (seed_Tm param s)) = z_prev2 (s_lags s)
  /\ dxedlna_prev (s_lags (seed_Tm param s)) = dxedlna_prev (s_lags s)
  /\ dxedlna_prev2 (s_lags (seed_Tm param s)) = dxedlna_prev2 (s_lags s).
Proof. repeat split. Qed.

(** ** A run in which the first stage never exits *)

Lemma for_loop_invariant (P : STATE -> Prop) cond body :
  (forall s, P s -> cond s = true -> P (next_iz (body s))) ->
  forall k s s', P s -> for_loop k cond body s = Some s' ->
                 P s' /\ cond s' = false.
Proof.
  intros Hstep; induction k as [|k IH]; intros s s' Hp; simpl;
    destruct (cond s) eqn:E; intros Hrun; try discriminate.
  - injection Hrun as <-; auto.
  - apply (IH (next_iz (body s))); auto.
  - injection Hrun as <-; auto.
Qed.

Lemma for_loop_exit cond body k s :
  cond s = false -> for_loop k cond body s = Some s.
Proof. intros E; destruct k; simpl; rewrite E; reflexivity. Qed.

Lemma stage1_keeps_saha_filled param :
  (forall a b c d, snd (rec_sahaHeII a b c d) > 1e-9) ->
  forall s, saha_filled param s ->
            saha_filled param (next_iz (stage1_body param s)).
Proof.
  intros Hsaha s [Hd Hfill]; unfold saha_filled, next_iz, stage1_body.
  pose proof (Hsaha (nH0 param) (T0 param) (fHe param)
                (z_grid param (s_iz s))) as Hd'.
  unfold z_grid in Hd'.
  destruct (rec_sahaHeII _ _ _ _) as [x d]; cbn [snd] in Hd'.
  cbn [s_iz s_Delta_xe Tm_output]; split; [exact Hd' |].
  intros j Hj; destruct (Z.eq_dec j (s_iz s)) as [-> | Hne].
  - rewrite store_same; reflexivity.
  - rewrite store_other by exact Hne; apply Hfill; lia.
Qed.

(** If the Saha solver never reports a He III fraction of 1e-9 or less, the
    first loop runs over the whole grid, no later loop runs, and the state
    at the entry of stage 6 holds Tm = T0 (1 + z) on the whole grid together
    with both seedings taken at [iz = nz]. *)
Lemma saha_only_run param rate_table twog_params xe0 Tm0 H_indet lags_indet :
  (forall a b c d, snd (rec_sahaHeII a b c d) > 1e-9) ->
  (0 <= nz param)%Z ->
  exists s6,
    history_to_stage6 param rate_table twog_params
      (initial_state param xe0 Tm0 H_indet lags_indet) = Some s6
    /\ s_iz s6 = nz param
    /\ (forall j, (0 <= j < nz param)%Z ->
                  Tm_output s6 j = T0 param * (1 + z_grid param j))
    /\ xe_lags_seeded param s6
    /\ Tm_lags_seeded param s6.
Proof.
  intros Hsaha Hnz.
  set (s0 := initial_state param xe0 Tm0 H_indet lags_indet).
  assert (P0 : populated (nz param) s0).
  { unfold populated, s0, initial_state, xe_stores, Tm_stores;
      cbn [s_iz xe_output Tm_output stores map].
    repeat split; try reflexivity; lia. }
  assert (F0 : saha_filled param s0).
  { unfold saha_filled, s0, initial_state; cbn [s_iz s_Delta_xe Tm_output].
    split; [lra | intros j Hj; lia]. }
  destruct (stage_conds_bounded param) as (C1 & _).
  destruct (stage_loop_returns param _ _ s0 C1 (stage1_stores param) P0)
    as (s1 & E1 & (H0 & Hmax & _) & Hexit).
  destruct (for_loop_invariant (saha_filled param) (stage1_cond param)
              (stage1_body param)
              (fun s Hs _ => stage1_keeps_saha_filled param Hsaha s Hs)
              _ _ _ F0 E1) as ([Hd Hfill] & _).
  assert (Hiz : s_iz s1 = nz param).
  { unfold stage1_cond in Hexit; rewrite (Rgtb_true _ _ Hd) in Hexit.
    rewrite andb_true_r in Hexit; apply Z.ltb_ge in Hexit; lia. }
  assert (Hlt : forall s, s_iz s = nz param -> (s_iz s <? nz param)%Z = false).
  { intros s ->; apply Z.ltb_irrefl. }
  set (s2 := set_Delta_xe s1 0).
  set (s3 := set_Delta_xe (seed_xe param s2) 1).
  set (s5 := seed_xe param (set_Delta_xe s3 0)).
  exists (seed_Tm param s5).
  split.
  - unfold history_to_stage6, history_to_stage5, history_to_stage3.
    fold s0; rewrite E1; cbn [obind].
    rewrite (for_loop_exit (stage2_cond param) _ _ (set_Delta_xe s1 0))
      by (unfold stage2_cond; rewrite (Hlt (set_Delta_xe s1 0) Hiz); reflexivity).
    cbn [obind]; fold s2; fold s3.
    rewrite (for_loop_exit (stage3_cond param) _ _ s3)
      by (unfold stage3_cond; rewrite (Hlt s3 Hiz); reflexivity).
    cbn [obind].
    rewrite (for_loop_exit (stage4_cond param) _ _ (set_Delta_xe s3 0))
      by (unfold stage4_cond; rewrite (Hlt (set_Delta_xe s3 0) Hiz); reflexivity).
    cbn [obind]; fold s5.
    rewrite (for_loop_exit (stage5_cond param) _ _ s5)
      by (unfold stage5_cond; rewrite (Hlt s5 Hiz); reflexivity).
    reflexivity.
  - split; [exact Hiz |].
    split; [intros j Hj; apply Hfill; rewrite Hiz; exact Hj |].
    split; [| apply seed_Tm_seeded].
    apply (seed_xe_seeded param (set_Delta_xe s3 0)).
Qed.

Lemma energy_injection_rate_off param z :
  p_ann param = 0 -> p_dec param = 0 -> energy_injection_rate param z = 0.
Proof.
  intros Ha Hd; unfold energy_injection_rate, p_annihilation_at_z,
    p_annihilation_high, p_annihilation_mid, p_annihilation_low.
  rewrite Ha, Hd.
  destruct (Rgt_dec z 2500); [| destruct (Rgt_dec z 30)]; ring.
Qed.

(** With Tm equal to the radiation temperature and no energy injection the
    Tm derivative is -2 Tm. *)
Lemma rec_dTmdlna_at_Tr xe Tr H fHe_ nH z :
  rec_dTmdlna xe Tr Tr H fHe_ nH z 0 = -2 * Tr.
Proof. unfold rec_dTmdlna, Rdiv; ring. Qed.

(** sinh(d)/d stays below 2 for a small step: exp(-d) - exp(d) = -4 d is
    impossible. *)
Lemma exp_difference_not_4d (d : R) :
  0 < d <= / 2 -> exp (- d) - exp d <> - (4 * d).
Proof.
  intros [Hd Hd2] Heq.
  pose proof (exp_ineq1_le (- d)) as Hb.
  assert (Hb1 : exp (- d) < 1).
  { rewrite <- exp_0; apply exp_increasing; lra. }
  assert (Hab : exp d * exp (- d) = 1).
  { rewrite <- exp_plus; replace (d + - d) with 0 by ring; apply exp_0. }
  assert (Ha : exp d = exp (- d) + 4 * d) by lra.
  rewrite Ha in Hab.
  assert (Hprod : (1 + 3 * d) * (1 - d) <= (exp (- d) + 4 * d) * exp (- d)).
  { apply Rmult_le_compat; lra. }
  nra.
Qed.

Lemma centred_difference_not_minus2 (T c u d : R) :
  0 < T -> 0 < c -> 0 < u -> 0 < d <= / 2 ->
  -2 * (T * (1 + (c * u - 1)))
  <> (T * (1 + (c * (u * exp (- d)) - 1))
      - T * (1 + (c * (u * exp d) - 1))) / (2 * d).
Proof.
  intros HT Hc Hu Hd Heq.
  apply (exp_difference_not_4d d Hd).
  assert (H2 : -2 * (T * (1 + (c * u - 1))) * (2 * d)
               = T * (1 + (c * (u * exp (- d)) - 1))
                 - T * (1 + (c * (u * exp d) - 1))).
  { rewrite Heq; field; lra. }
  apply (Rmult_eq_reg_l (T * c * u)).
  - ring_simplify in H2; ring_simplify; lra.
  - apply Rgt_not_eq; repeat apply Rmult_lt_0_compat; assumption.
Qed.

(** ** The grid length fixed by rec_get_cosmoparam *)

Lemma exp_pow_lower (y : R) (n : nat) :
  0 <= 1 + y -> (1 + y) ^ n <= exp (INR n * y).
Proof.
  intros Hy.
  apply Rle_trans with (exp y ^ n).
  - apply pow_incr; split; [exact Hy | apply exp_ineq1_le].
  - right; induction n as [|n IH].
    + simpl; rewrite Rmult_0_l, exp_0; reflexivity.
    + rewrite S_INR; simpl pow; rewrite IH, <- exp_plus; f_equal; ring.
Qed.

Lemma sq_down_bound (sc x : Z) (r : R) :
  (0 < sc)%Z -> (0 <= x)%Z -> IZR x / IZR sc <= r ->
  (0 <= sq_down sc x)%Z /\ IZR (sq_down sc x) / IZR sc <= r * r.
Proof.
  intros Hsc Hx Hr; unfold sq_down.
  assert (Hscr : 0 < IZR sc) by (apply IZR_lt; exact Hsc).
  assert (Hxr : 0 <= IZR x) by (apply IZR_le; exact Hx).
  split; [apply Z.div_pos; nia |].
  assert (Hdiv : (sc * (x * x / sc) <= x * x)%Z).
  { apply Z.mul_div_le; exact Hsc. }
  apply IZR_le in Hdiv; rewrite !mult_IZR in Hdiv.
  assert (H0 : 0 <= IZR x / IZR sc).
  { apply Rmult_le_pos; [exact Hxr | left; apply Rinv_0_lt_compat; exact Hscr]. }
  apply Rle_trans with (IZR x / IZR sc * (IZR x / IZR sc)).
  - apply (Rmult_le_reg_r (IZR sc * IZR sc)); [nra |].
    replace (IZR x / IZR sc * (IZR x / IZR sc) * (IZR sc * IZR sc))
      with (IZR x * IZR x) by (field; lra).
    replace (IZR (x * x / sc) / IZR sc * (IZR sc * IZR sc))
      with (IZR sc * IZR (x * x / sc)) by (field; lra).
    exact Hdiv.
  - apply Rmult_le_compat; assumption.
Qed.

Lemma rep_sq_bound (sc : Z) (m : nat) :
  (0 < sc)%Z ->
  forall (x : Z) (r : R),
    (0 <= x)%Z -> IZR x / IZR sc <= r ->
    IZR (rep_sq sc m x) / IZR sc <= r ^ (2 ^ m).
Proof.
  intros Hsc; induction m as [|m IH]; intros x r Hx Hr.
  - simpl; lra.
  - destruct (sq_down_bound sc x r Hsc Hx Hr) as [H0 H1].
    simpl rep_sq.
    replace (r ^ (2 ^ S m)) with ((r * r) ^ (2 ^ m)).
    + apply IH; assumption.
    + rewrite Rpow_mult_distr, <- pow_add; f_equal; simpl; lia.
Qed.

Lemma exp_lb_correct (sc : Z) (m : nat) (bn bd : Z) :
  (0 < sc)%Z -> (0 < bd)%Z -> (0 <= bd * 2 ^ Z.of_nat m + bn)%Z ->
  IZR (exp_lb sc m bn bd) / IZR sc <= exp (IZR bn / IZR bd).
Proof.
  intros Hsc Hbd Hnum; unfold exp_lb.
  set (N := (2 ^ Z.of_nat m)%Z).
  assert (HN : (0 < N)%Z) by (apply Z.pow_pos_nonneg; lia).
  assert (HNr : IZR N = 2 ^ m).
  { unfold N; rewrite <- pow_IZR; reflexivity. }
  assert (HN2 : INR (2 ^ m) = 2 ^ m).
  { rewrite pow_INR; reflexivity. }
  assert (HNpos : 0 < 2 ^ m) by (apply pow_lt; lra).
  assert (Hbdr : 0 < IZR bd) by (apply IZR_lt; exact Hbd).
  assert (Hscr : 0 < IZR sc) by (apply IZR_lt; exact Hsc).
  set (y := IZR bn / IZR bd / 2 ^ m).
  assert (Hy : 1 + y = IZR (bd * N + bn) / IZR (bd * N)).
  { unfold y; rewrite plus_IZR, !mult_IZR, HNr; field; lra. }
  assert (Hy0 : 0 <= 1 + y).
  { rewrite Hy; apply Rmult_le_pos; [apply IZR_le; exact Hnum |].
    left; apply Rinv_0_lt_compat, IZR_lt; nia. }
  replace (IZR bn / IZR bd) with (INR (2 ^ m) * y)
    by (rewrite HN2; unfold y; field; lra).
  eapply Rle_trans; [| apply exp_pow_lower; exact Hy0].
  apply rep_sq_bound; [exact Hsc | apply Z.div_pos; nia |].
  rewrite Hy.
  assert (Hdiv : (bd * N * (sc * (bd * N + bn) / (bd * N))
                  <= sc * (bd * N + bn))%Z).
  { apply Z.mul_div_le; nia. }
  apply IZR_le in Hdiv; rewrite !mult_IZR in Hdiv.
  assert (HbN : 0 < IZR bd * IZR N) by (rewrite HNr; nra).
  rewrite mult_IZR.
  apply (Rmult_le_reg_r (IZR sc * (IZR bd * IZR N))); [nra |].
  replace (IZR (bd * N + bn) / (IZR bd * IZR N) * (IZR sc * (IZR bd * IZR N)))
    with (IZR sc * IZR (bd * N + bn)) by (field; lra).
  replace (IZR (sc * (bd * N + bn) / (bd * N)) / IZR sc
           * (IZR sc * (IZR bd * IZR N)))
    with (IZR bd * IZR N * IZR (sc * (bd * N + bn) / (bd * N)))
    by (field; lra).
  exact Hdiv.
Qed.

Lemma exp_gt_cert_correct sc m c bn bd :
  exp_gt_cert sc m c bn bd = true -> IZR c < exp (IZR bn / IZR bd).
Proof.
  unfold exp_gt_cert; rewrite !andb_true_iff.
  intros [[[Hsc Hbd] Hnum] Hc].
  apply Z.ltb_lt in Hsc, Hbd, Hc; apply Z.leb_le in Hnum.
  eapply Rlt_le_trans; [| apply (exp_lb_correct sc m bn bd); assumption].
  assert (Hscr : 0 < IZR sc) by (apply IZR_lt; exact Hsc).
  apply IZR_lt in Hc; rewrite mult_IZR in Hc.
  apply (Rmult_lt_reg_r (IZR sc)); [exact Hscr |].
  replace (IZR (exp_lb sc m bn bd) / IZR sc * IZR sc)
    with (IZR (exp_lb sc m bn bd)) by (field; lra).
  exact Hc.
Qed.

Lemma exp_lt_cert_correct sc m c an ad :
  exp_lt_cert sc m c an ad = true -> exp (IZR an / IZR ad) < IZR c.
Proof.
  unfold exp_lt_cert; rewrite !andb_true_iff.
  intros [[[[Hsc Had] Hnum] Hc0] Hc].
  apply Z.ltb_lt in Hsc, Had, Hc0, Hc; apply Z.leb_le in Hnum.
  assert (Hlb := exp_lb_correct sc m (- an) ad Hsc Had).
  assert (Hnum' : (0 <= ad * 2 ^ Z.of_nat m + - an)%Z) by lia.
  specialize (Hlb Hnum').
  assert (Hscr : 0 < IZR sc) by (apply IZR_lt; exact Hsc).
  assert (Hcr : 0 < IZR c) by (apply IZR_lt; exact Hc0).
  apply IZR_lt in Hc; rewrite mult_IZR in Hc.
  assert (Hadr : 0 < IZR ad) by (apply IZR_lt; exact Had).
  replace (IZR (- an) / IZR ad) with (- (IZR an / IZR ad)) in Hlb
    by (rewrite opp_IZR; field; lra).
  set (t := IZR an / IZR ad) in *.
  assert (Hinv : exp t * exp (- t) = 1).
  { rewrite <- exp_plus; replace (t + - t) with 0 by ring; apply exp_0. }
  assert (Hpos := exp_pos t).
  assert (Hlow : / IZR c < exp (- t)).
  { eapply Rlt_le_trans; [| exact Hlb].
    apply (Rmult_lt_reg_r (IZR c * IZR sc)); [nra |].
    replace (/ IZR c * (IZR c * IZR sc)) with (IZR sc) by (field; lra).
    replace (IZR (exp_lb sc m (- an) ad) / IZR sc * (IZR c * IZR sc))
      with (IZR c * IZR (exp_lb sc m (- an) ad)) by (field; lra).
    exact Hc. }
  apply (Rmult_lt_reg_r (exp (- t))); [apply exp_pos |].
  rewrite Hinv.
  apply (Rmult_lt_reg_l (/ IZR c)); [apply Rinv_0_lt_compat; exact Hcr |].
  replace (/ IZR c * (IZR c * exp (- t))) with (exp (- t)) by (field; lra).
  lra.
Qed.

Lemma ln_8001_bounds :
  105857 * 8.49e-5 < ln 8001 < 105858 * 8.49e-5.
Proof.
  assert (H1 : exp (IZR 89872593 / IZR 10000000) < IZR 8001).
  { apply (exp_lt_cert_correct (2 ^ 100) 30); vm_compute; reflexivity. }
  assert (H2 : IZR 8001 < exp (IZR 89873442 / IZR 10000000)).
  { apply (exp_gt_cert_correct (2 ^ 100) 30); vm_compute; reflexivity. }
  rewrite <- (exp_ln 8001) in H1 by lra.
  rewrite <- (exp_ln 8001) in H2 by lra.
  apply exp_lt_inv in H1, H2.
  lra.
Qed.

Lemma grid_length :
  Zfloor (2 + ln ((1 + 8000) / (1 + 0)) / 8.49e-5) = 105859%Z.
Proof.
  replace ((1 + 8000) / (1 + 0)) with 8001 by field.
  pose proof ln_8001_bounds as [Hlo Hhi].
  apply Zfloor_eq; split.
  - apply (Rmult_le_reg_r 8.49e-5); [lra |].
    replace ((2 + ln 8001 / 8.49e-5) * 8.49e-5)
      with (2 * 8.49e-5 + ln 8001) by (field; lra).
    lra.
  - apply (Rmult_lt_reg_r 8.49e-5); [lra |].
    replace ((2 + ln 8001 / 8.49e-5) * 8.49e-5)
      with (2 * 8.49e-5 + ln 8001) by (field; lra).
    lra.
Qed.

Lemma cosmoparam_grid fin param :
  let q := rec_get_cosmoparam fin param in
  zstart q = 8000 /\ zend q = 0 /\ dlna q = 8.49e-5
  /\ nz q = Zfloor (2 + ln ((1 + 8000) / (1 + 0)) / 8.49e-5).
Proof.
  unfold rec_get_cosmoparam.
  repeat (destruct (fscanf_lg _ _) as [? ?]).
  cbn [zstart zend dlna nz]; repeat split.
Qed.

Lemma ceiling_formula_value :
  Zceil (ln ((1 + 8000) / (1 + 0)) / 8.49e-5) = 105858%Z.
Proof.
  replace ((1 + 8000) / (1 + 0)) with 8001 by field.
  pose proof ln_8001_bounds as [Hlo Hhi].
  apply Zceil_eq; split.
  - apply (Rmult_lt_reg_r 8.49e-5); [lra |].
    replace (ln 8001 / 8.49e-5 * 8.49e-5) with (ln 8001) by (field; lra).
    lra.
  - apply (Rmult_le_reg_r 8.49e-5); [lra |].
    replace (ln 8001 / 8.49e-5 * 8.49e-5) with (ln 8001) by (field; lra).
    lra.
Qed.

(** C4, as the code has it.  After rec_get_cosmoparam the grid length is the
    integer part (floor) of 2 + ln((1+zstart)/(1+zend))/dlna, that is two
    plus the floor, not the ceiling, of the log-ratio over the step: on the
    grid the function fixes it is 105859, where the ceiling formula gives
    105860. *)
Theorem C4_grid_length :
  forall fin param,
    let q := rec_get_cosmoparam fin param in
    nz q = Zfloor (2 + ln ((1 + zstart q) / (1 + zend q)) / dlna q)
    /\ nz q = (2 + Zfloor (ln ((1 + zstart q) / (1 + zend q)) / dlna q))%Z
    /\ nz q = 105859%Z
    /\ nz_ceiling_formula q = 105860%Z.
Proof.
  intros fin param q.
  destruct (cosmoparam_grid fin param) as (Hs & He & Hd & Hn).
  fold q in Hs, He, Hd, Hn; unfold nz_ceiling_formula.
  rewrite Hs, He, Hd, Hn, ceiling_formula_value, grid_length.
  repeat split.
  rewrite <- grid_length at 1.
  rewrite Rplus_comm, Zfloor_addz; lia.
Qed.

Lemma physically_valid_T0 param :
  physically_valid param = true -> 0 < T0 param.
Proof.
  unfold physically_valid; rewrite !andb_true_iff.
  intros [[[_ HT] _] _]; unfold Rltb in HT.
  destruct (Rlt_dec 0 (T0 param)); [assumption | discriminate].
Qed.

(** C7, as the code has it.  rec_get_cosmoparam validates nothing: it stores
    the nine numbers it reads as they are, whatever their sign or range,
    derives nH0 and fHe from them, and fixes the grid; it has no failure
    outcome.  The grid length it sets is 105859 for every input, so a
    configuration with nz <= 4 cannot come out of it. *)
Theorem C7_no_validation :
  (forall vT0 vobh2 vomh2 vokh2 vodeh2 vw0 vwa vY vNnueff param,
      rec_get_cosmoparam
        [vT0; vobh2; vomh2; vokh2; vodeh2; vw0; vwa; vY; vNnueff] param
      = mkREC_COSMOPARAMS vT0 vobh2 vomh2 vokh2 vodeh2 vw0 vwa vY vNnueff
          (11.223846333047 * vobh2 * (1 - vY)) (vY / (1 - vY) / 3.97153)
          8000 0 8.49e-5 105859 (p_ann param) (alpha param) (p_dec param))
  /\ (forall fin param,
         nz (rec_get_cosmoparam fin param) = 105859%Z
         /\ (4 < nz (rec_get_cosmoparam fin param))%Z).
Proof.
  split.
  - intros; unfold rec_get_cosmoparam; cbn [fscanf_lg].
    rewrite grid_length; reflexivity.
  - intros fin param.
    destruct (cosmoparam_grid fin param) as (_ & _ & _ & Hn).
    rewrite Hn, grid_length; split; [reflexivity | lia].
Qed.
(** * Further properties of the code *)

(** ** More on the Hubble rate *)

Lemma rho_total_sum param z :
  rho_total param z
  = omh2 param * (1 + z) ^ 3 + okh2 param * (1 + z) ^ 2
    + odeh2 param * Rpower (1 + z) (3 * (1 + w0 param))
      * exp (3 * wa param * (ln (1 + z) - 1 + 1 / (1 + z)))
    + 4.48162687719e-7 * T0 param ^ 4 * (1 + z) ^ 4
      * (1 + 0.227107317660239 * Nnueff param).
Proof. unfold rho_total, rho_i; cbn [fold_left]; ring. Qed.

Lemma sqrt_cube_Rpower a : 0 < a -> sqrt (a ^ 3) = Rpower a (3 / 2).
Proof.
  intros Ha.
  rewrite <- (Rpower_pow 3 a Ha).
  rewrite <- Rpower_sqrt by (unfold Rpower; apply exp_pos).
  rewrite Rpower_mult; f_equal; simpl; field.
Qed.

(** X1.  With matter as the only component (okh2 = 0, odeh2 = 0, T0 = 0,
    omh2 >= 0) and z > -1, rec_HubbleConstant is the Einstein-de Sitter rate
    3.2407792896393e-18 * sqrt(omh2) * (1+z)^(3/2). *)
Theorem X1_hubble_matter_only :
  forall param z,
    -1 < z -> 0 <= omh2 param ->
    okh2 param = 0 -> odeh2 param = 0 -> T0 param = 0 ->
    rec_HubbleConstant param z
    = 3.2407792896393e-18 * sqrt (omh2 param) * Rpower (1 + z) (3 / 2).
Proof.
  intros param z Hz Hm Hk Hde HT.
  unfold rec_HubbleConstant; rewrite rho_total_sum, Hk, Hde, HT.
  replace (omh2 param * (1 + z) ^ 3 + 0 * (1 + z) ^ 2
           + 0 * Rpower (1 + z) (3 * (1 + w0 param))
             * exp (3 * wa param * (ln (1 + z) - 1 + 1 / (1 + z)))
           + 4.48162687719e-7 * 0 ^ 4 * (1 + z) ^ 4
             * (1 + 0.227107317660239 * Nnueff param))
    with (omh2 param * (1 + z) ^ 3) by ring.
  rewrite sqrt_mult_alt by exact Hm.
  rewrite sqrt_cube_Rpower by lra; ring.
Qed.

Lemma pow_shift_le (n : nat) z1 z2 :
  -1 < z1 -> z1 <= z2 -> (1 + z1) ^ n <= (1 + z2) ^ n.
Proof. intros H1 H2; apply pow_incr; lra. Qed.

Lemma pow_shift_nonneg (n : nat) z : -1 < z -> 0 <= (1 + z) ^ n.
Proof. intros Hz; apply pow_le; lra. Qed.

(** X2.  For nonnegative omh2, okh2, odeh2 and Nnueff, a dark energy with
    w0 >= -1 and wa = 0, and -1 < z1 <= z2, rec_HubbleConstant at z1 is at
    most rec_HubbleConstant at z2: the rate does not decrease with
    redshift. *)
Theorem X2_hubble_monotone :
  forall param z1 z2,
    -1 < z1 -> z1 <= z2 ->
    0 <= omh2 param -> 0 <= okh2 param -> 0 <= odeh2 param ->
    0 <= Nnueff param -> -1 <= w0 param -> wa param = 0 ->
    rec_HubbleConstant param z1 <= rec_HubbleConstant param z2.
Proof.
  intros param z1 z2 H1 H12 Hm Hk Hde HN Hw Hwa.
  unfold rec_HubbleConstant.
  apply Rmult_le_compat_l; [lra |].
  apply sqrt_le_1_alt.
  rewrite !rho_total_sum, Hwa.
  replace (3 * 0 * (ln (1 + z1) - 1 + 1 / (1 + z1))) with 0 by ring.
  replace (3 * 0 * (ln (1 + z2) - 1 + 1 / (1 + z2))) with 0 by ring.
  rewrite exp_0, !Rmult_1_r.
  assert (HT : 0 <= 4.48162687719e-7 * T0 param ^ 4).
  { apply Rmult_le_pos; [lra |].
    replace (T0 param ^ 4) with ((T0 param ^ 2) ^ 2) by ring.
    apply pow2_ge_0. }
  assert (Hp : Rpower (1 + z1) (3 * (1 + w0 param))
               <= Rpower (1 + z2) (3 * (1 + w0 param))).
  { apply Rle_Rpower_l; lra. }
  pose proof (pow_shift_le 3 z1 z2 H1 H12) as P3.
  pose proof (pow_shift_le 2 z1 z2 H1 H12) as P2.
  pose proof (pow_shift_le 4 z1 z2 H1 H12) as P4.
  repeat apply Rplus_le_compat.
  - apply Rmult_le_compat_l; assumption.
  - apply Rmult_le_compat_l; assumption.
  - apply Rmult_le_compat_l; assumption.
  - apply Rmult_le_compat_r; [lra |].
    apply Rmult_le_compat_l; assumption.
Qed.

(** ** The redshift grid *)

Lemma z_grid_succ param i :
  1 + z_grid param (i + 1) = (1 + z_grid param i) * exp (- dlna param).
Proof.
  unfold z_grid; rewrite plus_IZR.
  replace (- dlna param * (IZR i + 1))
    with (- dlna param * IZR i + - dlna param) by ring.
  rewrite exp_plus; ring.
Qed.

(** X3.  The grid formula z(i) = (1+zstart) exp(-dlna i) - 1 starts at
    zstart, is uniform in the log of the scale factor (1+z(i+1) is 1+z(i)
    times exp(-dlna)), stays above -1 when zstart > -1, and is strictly
    decreasing in i when moreover dlna > 0. *)
Theorem X3_grid_decreasing :
  forall param,
    z_grid param 0 = zstart param
    /\ (forall i, 1 + z_grid param (i + 1)
                  = (1 + z_grid param i) * exp (- dlna param))
    /\ (-1 < zstart param -> forall i, -1 < z_grid param i)
    /\ (-1 < zstart param -> 0 < dlna param ->
        forall i j, (i < j)%Z -> z_grid param j < z_grid param i).
Proof.
  intros param; split; [| split; [| split]].
  - unfold z_grid; rewrite Rmult_0_r, exp_0; ring.
  - apply z_grid_succ.
  - intros Hs i; unfold z_grid.
    assert (0 < (1 + zstart param) * exp (- dlna param * IZR i)).
    { apply Rmult_lt_0_compat; [lra | apply exp_pos]. }
    lra.
  - intros Hs Hd i j Hij; unfold z_grid.
    apply Rplus_lt_compat_r, Rmult_lt_compat_l; [lra |].
    apply exp_increasing.
    apply IZR_lt in Hij; nra.
Qed.

(** ** More on rec_get_cosmoparam *)

(** X4.  rec_get_cosmoparam stores the k-th number of the stream in the k-th
    scanned field (T0, obh2, omh2, okh2, odeh2, w0, wa, Y, Nnueff) when the
    stream has one, and leaves the field as it was when the stream ends
    before; numbers after the ninth are ignored, and the three injection
    parameters are never changed. *)
Theorem X4_cosmoparam_fields :
  forall fin param,
    let q := rec_get_cosmoparam fin param in
    T0 q = nth 0 fin (T0 param)
    /\ obh2 q = nth 1 fin (obh2 param)
    /\ omh2 q = nth 2 fin (omh2 param)
    /\ okh2 q = nth 3 fin (okh2 param)
    /\ odeh2 q = nth 4 fin (odeh2 param)
    /\ w0 q = nth 5 fin (w0 param)
    /\ wa q = nth 6 fin (wa param)
    /\ Y q = nth 7 fin (Y param)
    /\ Nnueff q = nth 8 fin (Nnueff param)
    /\ p_ann q = p_ann param /\ alpha q = alpha param
    /\ p_dec q = p_dec param.
Proof.
  intros fin param.
  do 9 (split_stream fin; [cbv zeta; repeat split |]).
  cbv zeta; repeat split.
Qed.

(** X5.  rec_get_cosmoparam is idempotent: reading the same stream again into
    the parameters it produced gives the same parameters, for a stream of any
    length. *)
Theorem X5_cosmoparam_idempotent :
  forall fin param,
    rec_get_cosmoparam fin (rec_get_cosmoparam fin param)
    = rec_get_cosmoparam fin param.
Proof.
  intros fin param.
  do 9 (split_stream fin; [reflexivity |]).
  reflexivity.
Qed.

Lemma cosmoparam_derived fin param :
  let q := rec_get_cosmoparam fin param in
  nH0 q = 11.223846333047 * obh2 q * (1 - Y q)
  /\ fHe q = Y q / (1 - Y q) / 3.97153.
Proof.
  do 9 (split_stream fin; [cbv zeta; split; reflexivity |]).
  cbv zeta; split; reflexivity.
Qed.

(** X6.  After rec_get_cosmoparam the derived fields are consistent with the
    stored ones, also when the stream was short:
    nH0 = 11.223846333047 obh2 (1 - Y) and fHe = Y / (1 - Y) / 3.97153; for
    obh2 >= 0 and Y in [0, 1) both are nonnegative and Y is recovered from
    fHe as 3.97153 fHe / (1 + 3.97153 fHe). *)
Theorem X6_cosmoparam_derived_fields :
  forall fin param,
    let q := rec_get_cosmoparam fin param in
    nH0 q = 11.223846333047 * obh2 q * (1 - Y q)
    /\ fHe q = Y q / (1 - Y q) / 3.97153
    /\ (0 <= obh2 q -> 0 <= Y q < 1 ->
        0 <= nH0 q /\ 0 <= fHe q
        /\ Y q = 3.97153 * fHe q / (1 + 3.97153 * fHe q)).
Proof.
  intros fin param q.
  destruct (cosmoparam_derived fin param) as [Hn Hf]; fold q in Hn, Hf.
  split; [exact Hn | split; [exact Hf |]].
  intros Hb [HY0 HY1].
  rewrite Hn, Hf; split; [| split].
  - apply Rmult_le_pos; [apply Rmult_le_pos |]; lra.
  - apply Rmult_le_pos; [apply Rmult_le_pos |];
      first [lra | left; apply Rinv_0_lt_compat; lra].
  - field; lra.
Qed.

(** X7.  On the grid that rec_get_cosmoparam fixes, the first grid redshift
    is zstart, the last one, z(nz-1), lies below zend = 0 (it is negative),
    and the one before it, z(nz-2), lies above zend: the grid covers the
    range from zstart to zend and passes zend by one point. *)
Theorem X7_grid_covers_range :
  forall fin param,
    let q := rec_get_cosmoparam fin param in
    z_grid q 0 = zstart q
    /\ z_grid q (nz q - 1) < zend q
    /\ zend q < z_grid q (nz q - 2).
Proof.
  intros fin param q.
  destruct (cosmoparam_grid fin param) as (Hs & He & Hd & Hn).
  fold q in Hs, He, Hd, Hn.
  rewrite grid_length in Hn.
  unfold z_grid; rewrite Hs, He, Hd, Hn.
  replace (105859 - 1)%Z with 105858%Z by reflexivity.
  replace (105859 - 2)%Z with 105857%Z by reflexivity.
  pose proof ln_8001_bounds as [Hlo Hhi].
  assert (E1 : exp (- (8.49e-5) * 105858) < / 8001).
  { rewrite <- (exp_ln (/ 8001)) by lra.
    apply exp_increasing; rewrite ln_Rinv by lra; lra. }
  assert (E2 : / 8001 < exp (- (8.49e-5) * 105857)).
  { rewrite <- (exp_ln (/ 8001)) at 1 by lra.
    apply exp_increasing; rewrite ln_Rinv by lra; lra. }
  split; [rewrite Rmult_0_r, exp_0; ring | split]; lra.
Qed.

(** ** More on the energy injection rate *)

Lemma ln_sq_mid_bounds z :
  30 <= z <= 2500 ->
  0 <= ln ((1 + z) / 2501) * ln ((1 + z) / 2501)
    <= ln (31 / 2501) * ln (31 / 2501).
Proof.
  intros [Hlo Hhi].
  assert (H1 : ln (31 / 2501) <= ln ((1 + z) / 2501)).
  { destruct (Req_dec z 30) as [-> | Hne].
    - replace ((1 + 30) / 2501) with (31 / 2501) by field; lra.
    - left; apply ln_increasing; lra. }
  assert (H2 : ln ((1 + z) / 2501) <= 0).
  { rewrite <- ln_1.
    destruct (Req_dec z 2500) as [-> | Hne].
    - replace ((1 + 2500) / 2501) with 1 by field; lra.
    - left; apply ln_increasing; [lra |].
      apply (Rmult_lt_reg_r 2501); [lra |].
      replace ((1 + z) / 2501 * 2501) with (1 + z) by field; lra. }
  nra.
Qed.

(** X8.  For p_ann >= 0 and alpha >= 0 the annihilation efficiency at any
    redshift lies between its value above z = 2500 and its frozen value
    below z = 30. *)
Theorem X8_annihilation_efficiency_bounds :
  forall param z,
    0 <= p_ann param -> 0 <= alpha param ->
    p_annihilation_high param <= p_annihilation_at_z param z
    /\ p_annihilation_at_z param z <= p_annihilation_low param.
Proof.
  intros param z Hp Ha.
  assert (Hlow30 := ln_sq_mid_bounds 30 ltac:(lra)).
  replace ((1 + 30) / 2501) with (31 / 2501) in Hlow30 by field.
  assert (Hmono : forall u v, u <= v ->
            p_ann param * exp (alpha param * (u - 0.838490285049671))
            <= p_ann param * exp (alpha param * (v - 0.838490285049671))).
  { intros u v Huv; apply Rmult_le_compat_l; [exact Hp |].
    destruct (Rle_lt_or_eq_dec _ _ Huv) as [Hlt | ->]; [| lra].
    destruct (Rle_lt_or_eq_dec _ _ Ha) as [Hpos | <-].
    - left; apply exp_increasing; nra.
    - rewrite !Rmult_0_l; lra. }
  assert (Hhigh : p_annihilation_high param
                  = p_ann param
                    * exp (alpha param * (0 - 0.838490285049671))).
  { unfold p_annihilation_high; f_equal; f_equal; ring. }
  unfold p_annihilation_at_z.
  destruct (Rgt_dec z 2500); [| destruct (Rgt_dec z 30)].
  - split; [lra |].
    rewrite Hhigh; unfold p_annihilation_low; apply Hmono; lra.
  - destruct (ln_sq_mid_bounds z ltac:(lra)) as [H0 H1].
    rewrite Hhigh; unfold p_annihilation_mid, p_annihilation_low.
    split; apply Hmono; assumption.
  - split; [| lra].
    rewrite Hhigh; unfold p_annihilation_low; apply Hmono; lra.
Qed.

Lemma p_annihilation_nonneg param z :
  0 <= p_ann param -> 0 <= p_annihilation_at_z param z.
Proof.
  intros Hp; unfold p_annihilation_at_z, p_annihilation_high,
    p_annihilation_mid, p_annihilation_low.
  destruct (Rgt_dec z 2500); [| destruct (Rgt_dec z 30)];
    (apply Rmult_le_pos; [exact Hp | left; apply exp_pos]).
Qed.

(** X9.  For z >= -1, p_ann >= 0 and p_dec >= 0 the energy injection rate
    is nonnegative. *)
Theorem X9_injection_rate_nonnegative :
  forall param z,
    -1 <= z -> 0 <= p_ann param -> 0 <= p_dec param ->
    0 <= energy_injection_rate param z.
Proof.
  intros param z Hz Hp Hd; unfold energy_injection_rate; cbv zeta.
  apply Rplus_le_le_0_compat.
  - apply Rmult_le_pos; [apply Rmult_le_pos |].
    + apply pow2_ge_0.
    + apply pow_le; lra.
    + apply p_annihilation_nonneg; exact Hp.
  - apply Rmult_le_pos; [apply Rmult_le_pos |]; try lra.
    apply pow_le; lra.
Qed.

(** X10.  energy_injection_rate is a continuous function of the redshift at
    every real z, not only at the two regime boundaries. *)
Theorem X10_injection_rate_continuous_everywhere :
  forall param z, continuity_pt (energy_injection_rate param) z.
Proof.
  intros param z; apply continuity_pt_rate.
  destruct (Req_dec z 2500) as [-> | H25]; [apply continuity_pt_p_2500 |].
  destruct (Req_dec z 30) as [-> | H30]; [apply continuity_pt_p_30 |].
  destruct (Rgt_dec z 2500) as [Hhi | Hnhi].
  - apply (continuity_pt_glue _ (fun _ => p_annihilation_high param)
             (fun _ => p_annihilation_high param) 2500 z (z + 1));
      try (apply continuity_pt_const; intros u v; reflexivity);
      try lra; try reflexivity;
      intros x Hx; unfold p_annihilation_at_z;
      destruct (Rgt_dec x 2500); [reflexivity | lra | reflexivity | lra].
  - destruct (Rgt_dec z 30) as [Hmid | Hlow].
    + apply (continuity_pt_glue _ (p_annihilation_mid param)
               (p_annihilation_mid param) 30 z 2500);
        try (apply continuity_pt_p_mid; lra); try lra; try reflexivity;
        intros x Hx; unfold p_annihilation_at_z;
        (destruct (Rgt_dec x 2500); [lra |]);
        (destruct (Rgt_dec x 30); [reflexivity | lra]).
    + apply (continuity_pt_glue _ (fun _ => p_annihilation_low param)
               (fun _ => p_annihilation_low param) (z - 1) z 30);
        try (apply continuity_pt_const; intros u v; reflexivity);
        try lra; try reflexivity;
        intros x Hx; unfold p_annihilation_at_z;
        (destruct (Rgt_dec x 2500); [lra |]);
        (destruct (Rgt_dec x 30); [lra | reflexivity]).
Qed.

(** ** More on the matter temperature *)

(** X11.  For xe > 0, Tr > 0, H >= 0, fHe >= 0, nH > 0 and a nonnegative
    energy rate, the steady-state matter temperature rec_Tmss is positive;
    without energy injection it is at most the radiation temperature Tr, and
    energy injection can only raise it. *)
Theorem X11_Tmss_positive_below_Tr :
  forall xe Tr H fHe_ nH z energy_rate,
    0 < xe -> 0 < Tr -> 0 <= H -> 0 <= fHe_ -> 0 < nH -> 0 <= energy_rate ->
    0 < rec_Tmss xe Tr H fHe_ nH z energy_rate
    /\ rec_Tmss xe Tr H fHe_ nH z 0 <= Tr
    /\ rec_Tmss xe Tr H fHe_ nH z 0 <= rec_Tmss xe Tr H fHe_ nH z energy_rate.
Proof.
  intros xe Tr H fHe_ nH z E Hxe HTr HH Hf HnH HE.
  unfold rec_Tmss; cbv zeta.
  set (D := H / 4.91466895548409e-22 / Tr / Tr / Tr / Tr * (1 + xe + fHe_) / xe).
  set (K := 1 / (4.91466895548409e-22 * Tr ^ 4 * xe) * 2 / (3 * 1.3806503e-23)
            * (1 + 2 * xe) / (3 * nH * 1e6)).
  assert (HD : 0 <= D).
  { unfold D, Rdiv.
    repeat (apply Rmult_le_pos;
            [| first [lra | left; apply Rinv_0_lt_compat; lra]]).
    exact HH. }
  assert (HK : 0 <= K).
  { unfold K, Rdiv.
    assert (0 < 4.91466895548409e-22 * Tr ^ 4 * xe).
    { apply Rmult_lt_0_compat; [apply Rmult_lt_0_compat |];
        [lra | apply pow_lt; exact HTr | exact Hxe]. }
    assert (0 < 3 * nH * 1e6) by lra.
    repeat (apply Rmult_le_pos;
            [| first [lra | left; apply Rinv_0_lt_compat; lra]]).
    lra. }
  assert (Hfrac : 0 < Tr / (1 + D) <= Tr).
  { split.
    - apply Rdiv_lt_0_compat; lra.
    - apply (Rmult_le_reg_r (1 + D)); [lra |].
      replace (Tr / (1 + D) * (1 + D)) with Tr by (field; lra).
      nra. }
  assert (HKE : 0 <= K * E) by (apply Rmult_le_pos; assumption).
  repeat split; lra.
Qed.

(** X12.  Without energy injection, and for xe > 0, Tr > 0, H > 0, fHe >= 0
    and positive hydrogen densities nH (passed to rec_Tmss) and nH' (passed
    to rec_dTmdlna), so that no denominator of either function is zero, the
    Tm derivative rec_dTmdlna evaluated at the steady-state temperature
    rec_Tmss equals minus that temperature: the steady state is the
    temperature that falls like 1/a, as the radiation temperature does. *)
Theorem X12_dTmdlna_at_steady_state :
  forall xe Tr H fHe_ nH nH' z z',
    0 < xe -> 0 < Tr -> 0 < H -> 0 <= fHe_ -> 0 < nH -> 0 < nH' ->
    rec_dTmdlna xe (rec_Tmss xe Tr H fHe_ nH z 0) Tr H fHe_ nH' z' 0
    = - rec_Tmss xe Tr H fHe_ nH z 0.
Proof.
  intros xe Tr H fHe_ nH nH' z z' Hxe HTr HH Hf HnH HnH'.
  unfold rec_dTmdlna, rec_Tmss; cbv zeta.
  assert (Hden : 0 < 1 + H / 4.91466895548409e-22 / Tr / Tr / Tr / Tr
                       * (1 + xe + fHe_) / xe).
  { assert (0 <= H / 4.91466895548409e-22 / Tr / Tr / Tr / Tr
                 * (1 + xe + fHe_) / xe); [| lra].
    unfold Rdiv.
    repeat (apply Rmult_le_pos;
            [| first [lra | left; apply Rinv_0_lt_compat; lra]]).
    lra. }
  set (D := 1 + H / 4.91466895548409e-22 / Tr / Tr / Tr / Tr
                * (1 + xe + fHe_) / xe) in *.
  assert (HDeq : D * (4.91466895548409e-22 * Tr * Tr * Tr * Tr * xe)
                 = 4.91466895548409e-22 * Tr * Tr * Tr * Tr * xe
                   + H * (1 + xe + fHe_)).
  { unfold D; field; lra. }
  replace (1 / (4.91466895548409e-22 * Tr ^ 4 * xe) * 2 / (3 * 1.3806503e-23)
           * (1 + 2 * xe) / (3 * nH * 1e6) * 0) with 0 by (unfold Rdiv; ring).
  replace (2 / (3 * 1.3806503e-23) * (1 + 2 * xe) / (3 * nH' * 1e6) * 0
           / (1 + xe + fHe_) / H) with 0 by (unfold Rdiv; ring).
  rewrite !Rplus_0_r.
  apply (Rmult_eq_reg_r (D * H * (1 + xe + fHe_)));
    [| apply Rgt_not_eq; repeat apply Rmult_lt_0_compat; lra].
  transitivity (- 2 * Tr * H * (1 + xe + fHe_)
                + (4.91466895548409e-22 * Tr * Tr * Tr * Tr * xe) * (Tr * D - Tr)).
  - field; lra.
  - transitivity (- Tr * H * (1 + xe + fHe_)); [| field; lra].
    replace ((4.91466895548409e-22 * Tr * Tr * Tr * Tr * xe) * (Tr * D - Tr))
      with (Tr * (D * (4.91466895548409e-22 * Tr * Tr * Tr * Tr * xe))
            - Tr * (4.91466895548409e-22 * Tr * Tr * Tr * Tr * xe)) by ring.
    rewrite HDeq; ring.
Qed.

(** ** More on the stage machine *)

Lemma stage1_frames param : body_frames (stage1_body param).
Proof.
  intros s j Hj; unfold stage1_body.
  destruct (rec_sahaHeII _ _ _ _) as [x d]; cbn [xe_output Tm_output].
  rewrite !store_other by exact Hj; split; reflexivity.
Qed.

Lemma stage2_frames param : body_frames (stage2_body param).
Proof.
  intros s j Hj; unfold stage2_body.
  destruct (xe_PostSahaHe _ _ _ _ _) as [x d]; cbn [xe_output Tm_output].
  rewrite !store_other by exact Hj; split; reflexivity.
Qed.

Lemma stage3_frames param rate_table twog_params :
  body_frames (stage3_body param rate_table twog_params).
Proof.
  intros s j Hj; unfold stage3_body.
  destruct (rec_get_xe_next1 _ _ _ _ _ _ _ _ _) as [[x f] l];
    cbn [xe_output Tm_output].
  rewrite !store_other by exact Hj; split; reflexivity.
Qed.

Lemma stage4_frames param rate_table twog_params :
  body_frames (stage4_body param rate_table twog_params).
Proof.
  intros s j Hj; unfold stage4_body.
  destruct (xe_PostSahaH _ _ _ _ _ _ _ _ _ _ _ _) as [[x d] f];
    cbn [xe_output Tm_output].
  rewrite !store_other by exact Hj; split; reflexivity.
Qed.

Lemma stage5_frames param rate_table twog_params :
  body_frames (stage5_body param rate_table twog_params).
Proof.
  intros s j Hj; unfold stage5_body.
  destruct (rec_get_xe_next1 _ _ _ _ _ _ _ _ _) as [[x f] l];
    cbn [xe_output Tm_output].
  rewrite !store_other by exact Hj; split; reflexivity.
Qed.

Lemma stage678_frames param rate_table twog_params func_select :
  body_frames (stage678_body param rate_table twog_params func_select).
Proof.
  intros s j Hj; unfold stage678_body.
  destruct (rec_get_xe_next2 _ _ _ _ _ _ _ _ _ _) as [[[x t] f] l];
    cbn [xe_output Tm_output].
  rewrite !store_other by exact Hj; split; reflexivity.
Qed.

(** A loop moves [iz] forward only and leaves the cells below its first
    index and the cells from [n] on as they were. *)
Lemma for_loop_frame (n : Z) cond body :
  cond_bounded n cond -> body_stores_at_iz body -> body_frames body ->
  forall k s s',
    for_loop k cond body s = Some s' ->
    (s_iz s <= s_iz s')%Z
    /\ forall j, (j < s_iz s \/ n <= j)%Z ->
                 xe_output s' j = xe_output s j
                 /\ Tm_output s' j = Tm_output s j.
Proof.
  intros Hc Hb Hf; induction k as [|k IH]; intros s s'; simpl;
    destruct (cond s) eqn:E; intros Hrun; try discriminate.
  - injection Hrun as <-; split; [lia | auto].
  - apply IH in Hrun; destruct Hrun as [Hle Hsame].
    apply Hc in E.
    destruct (Hb s) as (Hi & _).
    unfold next_iz in Hle, Hsame; cbn [s_iz xe_output Tm_output] in Hle, Hsame.
    rewrite Hi in Hle, Hsame.
    split; [lia |].
    intros j Hj.
    destruct (Hsame j ltac:(lia)) as [Hx Ht].
    destruct (Hf s j ltac:(lia)) as [Hx' Ht'].
    rewrite Hx, Ht; auto.
  - injection Hrun as <-; split; [lia | auto].
Qed.

(** A loop whose condition holds on entry runs its body at least once. *)
Lemma for_loop_runs_once (n : Z) cond body :
  cond_bounded n cond -> body_stores_at_iz body -> body_frames body ->
  forall k s s',
    cond s = true -> for_loop k cond body s = Some s' ->
    (s_iz s + 1 <= s_iz s')%Z.
Proof.
  intros Hc Hb Hf k s s' E Hrun.
  destruct k as [|k]; simpl in Hrun; rewrite E in Hrun; [discriminate |].
  apply (for_loop_frame n cond body Hc Hb Hf) in Hrun.
  destruct Hrun as [Hle _]; destruct (Hb s) as (Hi & _).
  unfold next_iz in Hle; cbn [s_iz] in Hle; lia.
Qed.

(** The states between the eight loops of one run. *)
Lemma run_trace param rate_table twog_params xe0 Tm0 H_indet lags_indet :
  let s0 := initial_state param xe0 Tm0 H_indet lags_indet in
  exists s1 s2 s3 s4 s5 s6 s7 s8,
    for_loop (fuel param) (stage1_cond param) (stage1_body param) s0 = Some s1
    /\ for_loop (fuel param) (stage2_cond param) (stage2_body param)
         (set_Delta_xe s1 0) = Some s2
    /\ for_loop (fuel param) (stage3_cond param)
         (stage3_body param rate_table twog_params)
         (set_Delta_xe (seed_xe param s2) 1) = Some s3
    /\ for_loop (fuel param) (stage4_cond param)
         (stage4_body param rate_table twog_params)
         (set_Delta_xe s3 0) = Some s4
    /\ for_loop (fuel param) (stage5_cond param)
         (stage5_body param rate_table twog_params)
         (seed_xe param s4) = Some s5
    /\ for_loop (fuel param) (stage6_cond param)
         (stage678_body param rate_table twog_params FUNC_H2G)
         (seed_Tm param s5) = Some s6
    /\ for_loop (fuel param) (stage7_cond param)
         (stage678_body param rate_table twog_params FUNC_HMLA) s6 = Some s7
    /\ for_loop (fuel param) (stage8_cond param)
         (stage678_body param rate_table twog_params FUNC_PEEBLES) s7
       = Some s8
    /\ history_to_stage3 param s0 = Some (set_Delta_xe (seed_xe param s2) 1)
    /\ rec_build_history param rate_table twog_params xe0 Tm0 H_indet
         lags_indet = Some s8
    /\ populated (nz param) s1 /\ populated (nz param) s8
    /\ (nz param <= s_iz s8)%Z.
Proof.
  intros s0.
  assert (P0 : populated (nz param) s0).
  { unfold populated, s0, initial_state, xe_stores, Tm_stores;
      cbn [s_iz xe_output Tm_output stores map].
    repeat split; try reflexivity; lia. }
  destruct (stage_conds_bounded param)
    as (C1 & C2 & C3 & C4 & C5 & C6 & C7 & C8).
  destruct (stage_loop_returns param _ _ s0 C1 (stage1_stores param) P0)
    as (s1 & E1 & P1 & _).
  destruct (stage_loop_returns param _ _ (set_Delta_xe s1 0) C2
              (stage2_stores param) (populated_set_Delta_xe _ _ _ P1))
    as (s2 & E2 & P2 & _).
  destruct (stage_loop_returns param _ _ (set_Delta_xe (seed_xe param s2) 1)
              C3 (stage3_stores param rate_table twog_params) P2)
    as (s3 & E3 & P3 & _).
  destruct (stage_loop_returns param _ _ (set_Delta_xe s3 0) C4
              (stage4_stores param rate_table twog_params)
              (populated_set_Delta_xe _ _ _ P3))
    as (s4 & E4 & P4 & _).
  destruct (stage_loop_returns param _ _ (seed_xe param s4) C5
              (stage5_stores param rate_table twog_params) P4)
    as (s5 & E5 & P5 & _).
  destruct (stage_loop_returns param _ _ (seed_Tm param s5) C6
              (stage678_stores param rate_table twog_params FUNC_H2G) P5)
    as (s6 & E6 & P6 & _).
  destruct (stage_loop_returns param _ _ s6 C7
              (stage678_stores param rate_table twog_params FUNC_HMLA) P6)
    as (s7 & E7 & P7 & _).
  destruct (stage_loop_returns param _ _ s7 C8
              (stage678_stores param rate_table twog_params FUNC_PEEBLES) P7)
    as (s8 & E8 & P8 & F8).
  exists s1, s2, s3, s4, s5, s6, s7, s8.
  assert (E3in : history_to_stage3 param s0
                 = Some (set_Delta_xe (seed_xe param s2) 1)).
  { unfold history_to_stage3; rewrite E1; cbn [obind]; rewrite E2;
      reflexivity. }
  repeat (split; [assumption |]).
  split.
  { unfold rec_build_history, history_to_stage6, history_to_stage5.
    fold s0; rewrite E3in; cbn [obind]; rewrite E3; cbn [obind].
    rewrite E4; cbn [obind]; rewrite E5; cbn [obind].
    unfold history_from_stage6; rewrite E6; cbn [obind]; rewrite E7;
      cbn [obind]; exact E8. }
  split; [exact P1 | split; [exact P8 |]].
  unfold stage8_cond in F8; apply Z.ltb_ge; exact F8.
Qed.

(** X13.  rec_build_history leaves the caller's memory outside the two
    arrays untouched: on return every cell of xe_output and Tm_output at an
    index below 0 or from nz on holds what it held at the call, and the loop
    index has reached nz. *)
Theorem X13_no_store_outside_arrays :
  forall param rate_table twog_params xe0 Tm0 H_indet lags_indet,
  exists s,
    rec_build_history param rate_table twog_params xe0 Tm0 H_indet lags_indet
    = Some s
    /\ s_iz s = Z.max 0 (nz param)
    /\ forall j, (j < 0 \/ nz param <= j)%Z ->
                 xe_output s j = xe0 j /\ Tm_output s j = Tm0 j.
Proof.
  intros param rate_table twog_params xe0 Tm0 H_indet lags_indet.
  destruct (run_trace param rate_table twog_params xe0 Tm0 H_indet lags_indet)
    as (s1 & s2 & s3 & s4 & s5 & s6 & s7 & s8 & E1 & E2 & E3 & E4 & E5 & E6
        & E7 & E8 & _ & Erun & _ & (H0 & Hmax & _) & Hge).
  destruct (stage_conds_bounded param)
    as (C1 & C2 & C3 & C4 & C5 & C6 & C7 & C8).
  apply (for_loop_frame _ _ _ C1 (stage1_stores param) (stage1_frames param))
    in E1.
  apply (for_loop_frame _ _ _ C2 (stage2_stores param) (stage2_frames param))
    in E2.
  apply (for_loop_frame _ _ _ C3 (stage3_stores param rate_table twog_params)
           (stage3_frames param rate_table twog_params)) in E3.
  apply (for_loop_frame _ _ _ C4 (stage4_stores param rate_table twog_params)
           (stage4_frames param rate_table twog_params)) in E4.
  apply (for_loop_frame _ _ _ C5 (stage5_stores param rate_table twog_params)
           (stage5_frames param rate_table twog_params)) in E5.
  apply (for_loop_frame _ _ _ C6
           (stage678_stores param rate_table twog_params FUNC_H2G)
           (stage678_frames param rate_table twog_params FUNC_H2G)) in E6.
  apply (for_loop_frame _ _ _ C7
           (stage678_stores param rate_table twog_params FUNC_HMLA)
           (stage678_frames param rate_table twog_params FUNC_HMLA)) in E7.
  apply (for_loop_frame _ _ _ C8
           (stage678_stores param rate_table twog_params FUNC_PEEBLES)
           (stage678_frames param rate_table twog_params FUNC_PEEBLES)) in E8.
  destruct E1 as [L1 F1], E2 as [L2 F2], E3 as [L3 F3], E4 as [L4 F4],
    E5 as [L5 F5], E6 as [L6 F6], E7 as [L7 F7], E8 as [L8 F8].
  cbn [s_iz set_Delta_xe seed_xe seed_Tm set_lags initial_state xe_output
       Tm_output] in *.
  exists s8; split; [exact Erun | split; [lia |]].
  intros j Hj.
  assert (Hj' : forall i, (0 <= i)%Z -> (j < i \/ nz param <= j)%Z) by lia.
  destruct (F8 j ltac:(apply Hj'; lia)) as [-> ->].
  destruct (F7 j ltac:(apply Hj'; lia)) as [-> ->].
  destruct (F6 j ltac:(apply Hj'; lia)) as [-> ->].
  destruct (F5 j ltac:(apply Hj'; lia)) as [-> ->].
  destruct (F4 j ltac:(apply Hj'; lia)) as [-> ->].
  destruct (F3 j ltac:(apply Hj'; lia)) as [-> ->].
  destruct (F2 j ltac:(apply Hj'; lia)) as [-> ->].
  destruct (F1 j ltac:(apply Hj'; lia)) as [-> ->].
  split; reflexivity.
Qed.

Lemma stage1_keeps_saha_values param s :
  Tm_follows_radiation param s -> xe_is_saha param s ->
  Tm_follows_radiation param (next_iz (stage1_body param s))
  /\ xe_is_saha param (next_iz (stage1_body param s)).
Proof.
  intros HT Hx; unfold Tm_follows_radiation, xe_is_saha, next_iz, stage1_body.
  fold (z_grid param (s_iz s)).
  destruct (rec_sahaHeII _ _ _ (z_grid param (s_iz s))) as [x d] eqn:E.
  cbn [s_iz xe_output Tm_output]; split; intros j Hj;
    (destruct (Z.eq_dec j (s_iz s)) as [-> | Hne];
     [rewrite store_same | rewrite store_other by exact Hne]).
  - reflexivity.
  - apply HT; lia.
  - rewrite E; reflexivity.
  - apply Hx; lia.
Qed.

Lemma stage2_keeps_radiation param s :
  Tm_follows_radiation param s ->
  Tm_follows_radiation param (next_iz (stage2_body param s)).
Proof.
  intros HT; unfold Tm_follows_radiation, next_iz, stage2_body.
  fold (z_grid param (s_iz s)).
  destruct (xe_PostSahaHe _ _ _ _ _) as [x d].
  cbn [s_iz Tm_output]; intros j Hj.
  destruct (Z.eq_dec j (s_iz s)) as [-> | Hne];
    [rewrite store_same | rewrite store_other by exact Hne].
  - reflexivity.
  - apply HT; lia.
Qed.

(** X14.  In every run of rec_build_history the two equilibrium stages come
    first and fill a prefix of the history that later stages never touch:
    stage 1 handles at least min(1, nz) indices and the two stages together
    at least min(2, nz), whatever the solvers return; in the final arrays
    xe at every index handled by stage 1 is the value of the He II Saha
    solver at the grid redshift, and Tm at every index handled by stage 1 or
    stage 2 is the radiation temperature T0 (1 + z). *)
Theorem X14_equilibrium_prefix :
  forall param rate_table twog_params xe0 Tm0 H_indet lags_indet,
    let s0 := initial_state param xe0 Tm0 H_indet lags_indet in
    exists s1 s3 s,
      for_loop (fuel param) (stage1_cond param) (stage1_body param) s0
      = Some s1
      /\ history_to_stage3 param s0 = Some s3
      /\ rec_build_history param rate_table twog_params xe0 Tm0 H_indet
           lags_indet = Some s
      /\ (Z.min 1 (nz param) <= s_iz s1 <= s_iz s3)%Z
      /\ (Z.min 2 (nz param) <= s_iz s3 <= s_iz s)%Z
      /\ (forall j, (0 <= j < s_iz s1)%Z ->
                    xe_output s j
                    = fst (rec_sahaHeII (nH0 param) (T0 param) (fHe param)
                             (z_grid param j)))
      /\ (forall j, (0 <= j < s_iz s3)%Z ->
                    Tm_output s j = T0 param * (1 + z_grid param j)).
Proof.
  intros param rate_table twog_params xe0 Tm0 H_indet lags_indet s0.
  destruct (run_trace param rate_table twog_params xe0 Tm0 H_indet lags_indet)
    as (s1 & s2 & s3 & s4 & s5 & s6 & s7 & s8 & E1 & E2 & E3 & E4 & E5 & E6
        & E7 & E8 & E3in & Erun & (H10 & H1max & _) & _ & _).
  fold s0 in E1, E3in.
  destruct (stage_conds_bounded param)
    as (C1 & C2 & C3 & C4 & C5 & C6 & C7 & C8).
  (* the first two loops keep the equilibrium values *)
  assert (I0 : Tm_follows_radiation param s0 /\ xe_is_saha param s0).
  { split; intros j Hj; unfold s0, initial_state in Hj; cbn [s_iz] in Hj;
      lia. }
  destruct (for_loop_invariant
              (fun s => Tm_follows_radiation param s /\ xe_is_saha param s)
              (stage1_cond param) (stage1_body param)
              (fun s Hs _ => stage1_keeps_saha_values param s (proj1 Hs)
                               (proj2 Hs))
              _ _ _ I0 E1) as ([HT1 Hx1] & _).
  destruct (for_loop_invariant (Tm_follows_radiation param)
              (stage2_cond param) (stage2_body param)
              (fun s Hs _ => stage2_keeps_radiation param s Hs)
              _ (set_Delta_xe s1 0) _ HT1 E2) as (HT2 & _).
  (* both loops run once when there is room *)
  assert (R1 : (0 < nz param)%Z -> (1 <= s_iz s1)%Z).
  { intros Hn.
    apply (for_loop_runs_once _ _ _ C1 (stage1_stores param)
             (stage1_frames param) (fuel param) s0 s1); [| exact E1].
    unfold stage1_cond, s0, initial_state; cbn [s_iz s_Delta_xe].
    rewrite (proj2 (Z.ltb_lt 0 (nz param)) Hn), Rgtb_true by lra;
      reflexivity. }
  assert (R2 : (s_iz s1 < nz param)%Z -> (s_iz s1 + 1 <= s_iz s2)%Z).
  { intros Hn.
    apply (for_loop_runs_once _ _ _ C2 (stage2_stores param)
             (stage2_frames param) (fuel param) (set_Delta_xe s1 0) s2);
      [| exact E2].
    unfold stage2_cond; cbn [s_iz s_Delta_xe set_Delta_xe].
    rewrite (proj2 (Z.ltb_lt _ _) Hn), Rltb_true by lra; reflexivity. }
  (* frames of all the loops *)
  pose proof (for_loop_frame _ _ _ C2 (stage2_stores param)
                (stage2_frames param) _ _ _ E2) as [L2 F2].
  pose proof (for_loop_frame _ _ _ C3
                (stage3_stores param rate_table twog_params)
                (stage3_frames param rate_table twog_params) _ _ _ E3)
    as [L3 F3].
  pose proof (for_loop_frame _ _ _ C4
                (stage4_stores param rate_table twog_params)
                (stage4_frames param rate_table twog_params) _ _ _ E4)
    as [L4 F4].
  pose proof (for_loop_frame _ _ _ C5
                (stage5_stores param rate_table twog_params)
                (stage5_frames param rate_table twog_params) _ _ _ E5)
    as [L5 F5].
  pose proof (for_loop_frame _ _ _ C6
                (stage678_stores param rate_table twog_params FUNC_H2G)
                (stage678_frames param rate_table twog_params FUNC_H2G)
                _ _ _ E6) as [L6 F6].
  pose proof (for_loop_frame _ _ _ C7
                (stage678_stores param rate_table twog_params FUNC_HMLA)
                (stage678_frames param rate_table twog_params FUNC_HMLA)
                _ _ _ E7) as [L7 F7].
  pose proof (for_loop_frame _ _ _ C8
                (stage678_stores param rate_table twog_params FUNC_PEEBLES)
                (stage678_frames param rate_table twog_params FUNC_PEEBLES)
                _ _ _ E8) as [L8 F8].
  cbn [s_iz set_Delta_xe seed_xe seed_Tm set_lags xe_output Tm_output] in *.
  assert (Hlater : forall j, (j < s_iz s2)%Z ->
            xe_output s8 j = xe_output s2 j
            /\ Tm_output s8 j = Tm_output s2 j).
  { intros j Hj.
    destruct (F8 j ltac:(lia)) as [-> ->].
    destruct (F7 j ltac:(lia)) as [-> ->].
    destruct (F6 j ltac:(lia)) as [-> ->].
    destruct (F5 j ltac:(lia)) as [-> ->].
    destruct (F4 j ltac:(lia)) as [-> ->].
    destruct (F3 j ltac:(lia)) as [-> ->].
    split; reflexivity. }
  exists s1, (set_Delta_xe (seed_xe param s2) 1), s8.
  cbn [s_iz set_Delta_xe seed_xe set_lags].
  split; [exact E1 |]. split; [exact E3in |]. split; [exact Erun |].
  split; [lia |]. split; [lia |]. split.
  - intros j Hj.
    destruct (Hlater j ltac:(lia)) as [-> _].
    destruct (F2 j ltac:(lia)) as [-> _].
    apply Hx1; exact Hj.
  - intros j Hj.
    destruct (Hlater j ltac:(lia)) as [_ ->].
    apply HT2; exact Hj.
Qed.

(** *** The uninitialised locals do not reach the results *)

Lemma for_loop_sim (Rel : STATE -> STATE -> Prop) cond body :
  (forall s s', Rel s s' -> cond s = cond s') ->
  (forall s s', Rel s s' -> Rel (next_iz (body s)) (next_iz (body s'))) ->
  forall k s s' r,
    Rel s s' -> for_loop k cond body s = Some r ->
    exists r', for_loop k cond body s' = Some r' /\ Rel r r'.
Proof.
  intros Hc Hb; induction k as [|k IH]; intros s s' r HR; simpl;
    rewrite <- (Hc s s' HR); destruct (cond s); intros Hrun;
    try discriminate.
  - injection Hrun as <-; exists s'; auto.
  - apply (IH _ (next_iz (body s')) _ (Hb s s' HR) Hrun).
  - injection Hrun as <-; exists s'; auto.
Qed.

Lemma conds_agree param s s' :
  same_outputs s s' ->
  stage1_cond param s = stage1_cond param s'
  /\ stage2_cond param s = stage2_cond param s'
  /\ stage3_cond param s = stage3_cond param s'
  /\ stage4_cond param s = stage4_cond param s'
  /\ stage5_cond param s = stage5_cond param s'
  /\ stage6_cond param s = stage6_cond param s'
  /\ stage7_cond param s = stage7_cond param s'
  /\ stage8_cond param s = stage8_cond param s'.
Proof.
  intros (Hi & Hz & Hd & Hx & Ht & _).
  unfold stage1_cond, stage2_cond, stage3_cond, stage4_cond, stage5_cond,
    stage6_cond, stage7_cond, stage8_cond.
  rewrite Hi, Hz, Hd, Ht; repeat split.
Qed.

Lemma stage1_sim param s s' :
  same_outputs s s' ->
  same_outputs (next_iz (stage1_body param s))
    (next_iz (stage1_body param s')).
Proof.
  intros H; open_states s s'; decompose [and] H; subst.
  unfold next_iz, stage1_body; cbn [s_iz xe_output Tm_output s_H s_lags
    s_fminus xe_stores Tm_stores].
  destruct (rec_sahaHeII _ _ _ _) as [x d]; close_states.
Qed.

Lemma stage2_sim param s s' :
  same_outputs s s' ->
  same_outputs (next_iz (stage2_body param s))
    (next_iz (stage2_body param s')).
Proof.
  intros H; open_states s s'; decompose [and] H; subst.
  unfold next_iz, stage2_body; cbn [s_iz xe_output Tm_output s_H s_lags
    s_fminus xe_stores Tm_stores].
  destruct (xe_PostSahaHe _ _ _ _ _) as [x d]; close_states.
Qed.

Lemma seed_xe_sim param s s' :
  same_outputs s s' ->
  same_xe_lags (set_Delta_xe (seed_xe param s) 1)
    (set_Delta_xe (seed_xe param s') 1).
Proof.
  intros H; open_states s s'; decompose [and] H; subst.
  unfold set_Delta_xe, seed_xe, set_lags; close_states.
Qed.

Lemma seed_xe_sim' param s s' :
  same_xe_lags s s' -> same_xe_lags (seed_xe param s) (seed_xe param s').
Proof.
  intros H; open_states s s'; decompose [and] H; subst.
  unfold seed_xe, set_lags; close_states.
Qed.

Lemma set_Delta_xe_sim s s' v :
  same_xe_lags s s' -> same_xe_lags (set_Delta_xe s v) (set_Delta_xe s' v).
Proof.
  intros H; open_states s s'; decompose [and] H; subst.
  unfold set_Delta_xe; close_states.
Qed.

Lemma stage3_sim param rate_table twog_params s s' :
  same_xe_lags s s' ->
  same_xe_lags (next_iz (stage3_body param rate_table twog_params s))
    (next_iz (stage3_body param rate_table twog_params s')).
Proof.
  intros H; open_states s s'; decompose [and] H; subst.
  unfold next_iz, stage3_body; cbn [s_iz s_z xe_output Tm_output s_H s_lags
    s_fminus xe_stores Tm_stores].
  rewrite !next1_out_eq; close_states.
Qed.

Lemma stage4_sim param rate_table twog_params s s' :
  same_xe_lags s s' ->
  same_xe_lags (next_iz (stage4_body param rate_table twog_params s))
    (next_iz (stage4_body param rate_table twog_params s')).
Proof.
  intros H; open_states s s'; decompose [and] H; subst.
  unfold next_iz, stage4_body; cbn [s_iz s_z xe_output Tm_output s_H s_lags
    s_fminus xe_stores Tm_stores z_prev2].
  destruct (xe_PostSahaH _ _ _ _ _ _ _ _ _ _ _ _) as [[x d] f]; close_states.
Qed.

Lemma stage5_sim param rate_table twog_params s s' :
  same_xe_lags s s' ->
  same_xe_lags (next_iz (stage5_body param rate_table twog_params s))
    (next_iz (stage5_body param rate_table twog_params s')).
Proof.
  intros H; open_states s s'; decompose [and] H; subst.
  unfold next_iz, stage5_body; cbn [s_iz s_z xe_output Tm_output s_H s_lags
    s_fminus xe_stores Tm_stores].
  rewrite !next1_out_eq; close_states.
Qed.

Lemma seed_Tm_sim param s s' :
  same_xe_lags s s' -> same_but_H (seed_Tm param s) (seed_Tm param s').
Proof.
  intros H; open_states s s'; decompose [and] H; subst.
  unfold seed_Tm, set_lags; close_states.
Qed.

Lemma stage678_sim param rate_table twog_params func_select s s' :
  same_but_H s s' ->
  same_but_H
    (next_iz (stage678_body param rate_table twog_params func_select s))
    (next_iz (stage678_body param rate_table twog_params func_select s')).
Proof.
  intros H; open_states s s'.
  destruct H as [H Hl]; decompose [and] H; injection Hl as -> -> -> -> -> ->;
    subst.
  unfold next_iz, stage678_body; cbn [s_iz s_z xe_output Tm_output s_H s_lags
    s_fminus xe_stores Tm_stores].
  destruct (rec_get_xe_next2 _ _ _ _ _ _ _ _ _ _) as [[[x t] f] l];
    close_states.
Qed.

(** X15.  The locals that rec_build_history leaves uninitialised (H and the
    six lagged values) never reach its results: two runs that differ only in
    the indeterminate values of these locals both return, with the same
    xe_output, the same Tm_output and the same occupation number history. *)
Theorem X15_uninitialised_locals_unused :
  forall param rate_table twog_params xe0 Tm0 H_a lags_a H_b lags_b,
  exists sa sb,
    rec_build_history param rate_table twog_params xe0 Tm0 H_a lags_a
    = Some sa
    /\ rec_build_history param rate_table twog_params xe0 Tm0 H_b lags_b
       = Some sb
    /\ xe_output sa = xe_output sb
    /\ Tm_output sa = Tm_output sb
    /\ s_fminus sa = s_fminus sb.
Proof.
  intros param rate_table twog_params xe0 Tm0 H_a lags_a H_b lags_b.
  destruct (run_trace param rate_table twog_params xe0 Tm0 H_a lags_a)
    as (a1 & a2 & a3 & a4 & a5 & a6 & a7 & a8 & A1 & A2 & A3 & A4 & A5 & A6
        & A7 & A8 & _ & Arun & _).
  destruct (run_trace param rate_table twog_params xe0 Tm0 H_b lags_b)
    as (b1 & b2 & b3 & b4 & b5 & b6 & b7 & b8 & B1 & B2 & B3 & B4 & B5 & B6
        & B7 & B8 & _ & Brun & _).
  assert (R0 : same_outputs (initial_state param xe0 Tm0 H_a lags_a)
                 (initial_state param xe0 Tm0 H_b lags_b)).
  { unfold same_outputs, initial_state; repeat split. }
  destruct (for_loop_sim same_outputs _ _
              (fun s s' H => proj1 (conds_agree param s s' H))
              (stage1_sim param) _ _ _ _ R0 A1) as (r1 & E1 & R1).
  rewrite B1 in E1; injection E1 as <-.
  assert (R1' : same_outputs (set_Delta_xe a1 0) (set_Delta_xe b1 0)).
  { unfold same_outputs, set_Delta_xe in *; cbn [s_iz s_z s_Delta_xe
      xe_output Tm_output s_fminus xe_stores Tm_stores].
    decompose [and] R1; repeat split; assumption. }
  destruct (for_loop_sim same_outputs _ _
              (fun s s' H => proj1 (proj2 (conds_agree param s s' H)))
              (stage2_sim param) _ _ _ _ R1' A2) as (r2 & E2 & R2).
  rewrite B2 in E2; injection E2 as <-.
  destruct (for_loop_sim same_xe_lags _ _
              (fun s s' H => proj1 (proj2 (proj2
                               (conds_agree param s s' (proj1 H)))))
              (stage3_sim param rate_table twog_params) _ _ _ _
              (seed_xe_sim param _ _ R2) A3) as (r3 & E3 & R3).
  rewrite B3 in E3; injection E3 as <-.
  destruct (for_loop_sim same_xe_lags _ _
              (fun s s' H => proj1 (proj2 (proj2 (proj2
                               (conds_agree param s s' (proj1 H))))))
              (stage4_sim param rate_table twog_params) _ _ _ _
              (set_Delta_xe_sim _ _ 0 R3) A4) as (r4 & E4 & R4).
  rewrite B4 in E4; injection E4 as <-.
  destruct (for_loop_sim same_xe_lags _ _
              (fun s s' H => proj1 (proj2 (proj2 (proj2 (proj2
                               (conds_agree param s s' (proj1 H)))))))
              (stage5_sim param rate_table twog_params) _ _ _ _
              (seed_xe_sim' param _ _ R4) A5) as (r5 & E5 & R5).
  rewrite B5 in E5; injection E5 as <-.
  destruct (for_loop_sim same_but_H _ _
              (fun s s' H => proj1 (proj2 (proj2 (proj2 (proj2 (proj2
                               (conds_agree param s s' (proj1 H))))))))
              (stage678_sim param rate_table twog_params FUNC_H2G) _ _ _ _
              (seed_Tm_sim param _ _ R5) A6) as (r6 & E6 & R6).
  rewrite B6 in E6; injection E6 as <-.
  destruct (for_loop_sim same_but_H _ _
              (fun s s' H => proj1 (proj2 (proj2 (proj2 (proj2 (proj2 (proj2
                               (conds_agree param s s' (proj1 H)))))))))
              (stage678_sim param rate_table twog_params FUNC_HMLA) _ _ _ _
              R6 A7) as (r7 & E7 & R7).
  rewrite B7 in E7; injection E7 as <-.
  destruct (for_loop_sim same_but_H _ _
              (fun s s' H => proj2 (proj2 (proj2 (proj2 (proj2 (proj2 (proj2
                               (conds_agree param s s' (proj1 H)))))))))
              (stage678_sim param rate_table twog_params FUNC_PEEBLES)
              _ _ _ _ R7 A8) as (r8 & E8 & R8).
  rewrite B8 in E8; injection E8 as <-.
  exists a8, b8.
  destruct R8 as [(_ & _ & _ & Hx & Ht & Hf & _) _].
  repeat split; assumption.
Qed.

(** ** More on the integrators *)

Lemma next2_dxedlna_at_Tmss param z1 xe_in rate_table func_select iz
    twog_params fminus :
  MODEL = PEEBLES \/ MODEL = RECFAST \/ MODEL = EMLA2s2p
  \/ func_select = FUNC_HEI \/ func_select = FUNC_H2G
  \/ func_select = FUNC_HMLA ->
  next2_dxedlna param z1 xe_in
    (rec_Tmss xe_in (T0 param * (1 + z1)) (rec_HubbleConstant param z1)
       (fHe param) (nH0 param * (1 + z1) * (1 + z1) * (1 + z1) * 1e-6) z1
       (energy_injection_rate param z1))
    rate_table func_select iz twog_params fminus
  = next1_dxedlna param z1 xe_in rate_table func_select iz twog_params fminus.
Proof.
  intros Hcase; unfold next2_dxedlna, next1_dxedlna; cbv zeta.
  destruct (Z.eqb_spec MODEL PEEBLES) as [|N1]; [reflexivity |].
  destruct (Z.eqb_spec MODEL RECFAST) as [|N2]; [reflexivity |].
  destruct (Z.eqb_spec MODEL EMLA2s2p) as [|N3]; [reflexivity |].
  destruct (Z.eqb_spec func_select FUNC_HEI) as [|N4]; [reflexivity |].
  destruct (Z.eqb_spec func_select FUNC_H2G) as [|N5]; [reflexivity |].
  destruct (Z.eqb_spec func_select FUNC_HMLA) as [|N6]; [reflexivity |].
  destruct Hcase as [E | [E | [E | [E | [E | E]]]]]; contradiction.
Qed.

(** X16.  The two integrators agree where both apply: when the model is
    PEEBLES, RECFAST or EMLA2s2p, or the mechanism is helium, two-photon or
    MLA, a call of rec_get_xe_next2 whose Tm_in is the steady-state
    temperature at the current point stores the same xe, leaves the same
    occupation number history and the same lagged redshifts and xe
    derivatives as the call of rec_get_xe_next1 with the same arguments. *)
Theorem X16_integrators_agree_at_steady_state :
  forall param z1 xe_in rate_table func_select iz twog_params fminus lags,
    MODEL = PEEBLES \/ MODEL = RECFAST \/ MODEL = EMLA2s2p
    \/ func_select = FUNC_HEI \/ func_select = FUNC_H2G
    \/ func_select = FUNC_HMLA ->
    let Tm_ss :=
      rec_Tmss xe_in (T0 param * (1 + z1)) (rec_HubbleConstant param z1)
        (fHe param) (nH0 param * (1 + z1) * (1 + z1) * (1 + z1) * 1e-6) z1
        (energy_injection_rate param z1) in
    let r1 := rec_get_xe_next1 param z1 xe_in rate_table func_select iz
                twog_params fminus lags in
    let r2 := rec_get_xe_next2 param z1 xe_in Tm_ss rate_table func_select iz
                twog_params fminus lags in
    fst (fst (fst r2)) = fst (fst r1)
    /\ snd (fst r2) = snd (fst r1)
    /\ z_prev (snd r2) = z_prev (snd r1)
    /\ dxedlna_prev (snd r2) = dxedlna_prev (snd r1)
    /\ z_prev2 (snd r2) = z_prev2 (snd r1)
    /\ dxedlna_prev2 (snd r2) = dxedlna_prev2 (snd r1).
Proof.
  intros param z1 xe_in rate_table func_select iz twog_params fminus lags
    Hcase Tm_ss r1 r2; subst r1 r2 Tm_ss.
  rewrite next1_out_eq, next2_out_eq.
  rewrite (next2_dxedlna_at_Tmss param z1 xe_in rate_table func_select iz
             twog_params fminus Hcase).
  cbv beta iota zeta; cbn [fst snd z_prev dxedlna_prev z_prev2 dxedlna_prev2].
  repeat split; reflexivity.
Qed.

Lemma next2_keeps_fminus param z1 xe_in Tm_in rate_table func_select iz
    twog_params fminus :
  func_select <> FUNC_H2G ->
  snd (next2_dxedlna param z1 xe_in Tm_in rate_table func_select iz
         twog_params fminus) = fminus.
Proof.
  intros Hne; unfold next2_dxedlna; cbv zeta.
  destruct (MODEL =? PEEBLES)%Z; [reflexivity |].
  destruct (MODEL =? RECFAST)%Z; [reflexivity |].
  destruct (MODEL =? EMLA2s2p)%Z; [reflexivity |].
  destruct (func_select =? FUNC_HEI)%Z; [reflexivity |].
  destruct (Z.eqb_spec func_select FUNC_H2G) as [|_]; [contradiction |].
  destruct (func_select =? FUNC_HMLA)%Z; reflexivity.
Qed.

Lemma stage678_keeps_fminus param rate_table twog_params func_select s :
  func_select <> FUNC_H2G ->
  s_fminus (next_iz (stage678_body param rate_table twog_params func_select s))
  = s_fminus s.
Proof.
  intros Hne; unfold next_iz, stage678_body.
  rewrite next2_out_eq; cbv beta iota zeta; cbn [s_fminus].
  apply next2_keeps_fminus; exact Hne.
Qed.

Lemma stage1_keeps_fminus param s :
  s_fminus (next_iz (stage1_body param s)) = s_fminus s.
Proof.
  unfold next_iz, stage1_body.
  destruct (rec_sahaHeII _ _ _ _) as [x d]; reflexivity.
Qed.

Lemma stage2_keeps_fminus param s :
  s_fminus (next_iz (stage2_body param s)) = s_fminus s.
Proof.
  unfold next_iz, stage2_body.
  destruct (xe_PostSahaHe _ _ _ _ _) as [x d]; reflexivity.
Qed.

(** X17.  The photon occupation number history is used between the entry of
    stage 3 and the exit of stage 6 only.  In every run, at the entry of
    stage 3 it is still as allocated; and when the tags FUNC_HMLA and
    FUNC_PEEBLES differ from FUNC_H2G, stages 7 and 8 leave it as stage 6
    left it (radiative transfer is switched off there). *)
Theorem X17_occupation_history_window :
  FUNC_HMLA <> FUNC_H2G -> FUNC_PEEBLES <> FUNC_H2G ->
  forall param rate_table twog_params xe0 Tm0 H_indet lags_indet,
    let s0 := initial_state param xe0 Tm0 H_indet lags_indet in
    exists s3 s6e s6 s,
      history_to_stage3 param s0 = Some s3
      /\ history_to_stage6 param rate_table twog_params s0 = Some s6e
      /\ for_loop (fuel param) (stage6_cond param)
           (stage678_body param rate_table twog_params FUNC_H2G) s6e
         = Some s6
      /\ rec_build_history param rate_table twog_params xe0 Tm0 H_indet
           lags_indet = Some s
      /\ s_fminus s3 = s_fminus s0
      /\ s_fminus s = s_fminus s6.
Proof.
  intros Hmla Hpeebles param rate_table twog_params xe0 Tm0 H_indet lags_indet
    s0.
  destruct (run_trace param rate_table twog_params xe0 Tm0 H_indet lags_indet)
    as (s1 & s2 & s3 & s4 & s5 & s6 & s7 & s8 & E1 & E2 & E3 & E4 & E5 & E6
        & E7 & E8 & E3in & Erun & _).
  fold s0 in E1, E3in.
  destruct (for_loop_invariant (fun s => s_fminus s = s_fminus s0)
              (stage1_cond param) (stage1_body param)
              (fun s Hs _ => eq_trans (stage1_keeps_fminus param s) Hs)
              _ _ _ eq_refl E1) as (K1 & _).
  destruct (for_loop_invariant (fun s => s_fminus s = s_fminus s0)
              (stage2_cond param) (stage2_body param)
              (fun s Hs _ => eq_trans (stage2_keeps_fminus param s) Hs)
              _ (set_Delta_xe s1 0) _ K1 E2) as (K2 & _).
  destruct (for_loop_invariant (fun s => s_fminus s = s_fminus s6)
              (stage7_cond param)
              (stage678_body param rate_table twog_params FUNC_HMLA)
              (fun s Hs _ =>
                 eq_trans (stage678_keeps_fminus param rate_table twog_params
                             FUNC_HMLA s Hmla) Hs)
              _ _ _ eq_refl E7) as (K7 & _).
  destruct (for_loop_invariant (fun s => s_fminus s = s_fminus s6)
              (stage8_cond param)
              (stage678_body param rate_table twog_params FUNC_PEEBLES)
              (fun s Hs _ =>
                 eq_trans (stage678_keeps_fminus param rate_table twog_params
                             FUNC_PEEBLES s Hpeebles) Hs)
              _ _ _ K7 E8) as (K8 & _).
  exists (set_Delta_xe (seed_xe param s2) 1), (seed_Tm param s5), s6, s8.
  split; [exact E3in |].
  split.
  { unfold history_to_stage6, history_to_stage5.
    rewrite E3in; cbn [obind]; rewrite E3; cbn [obind].
    rewrite E4; cbn [obind]; rewrite E5; reflexivity. }
  split; [exact E6 |]. split; [exact Erun |].
  split; [exact K2 | exact K8].
Qed.

(** X18.  The update of rec_get_xe_next1 is exact for a derivative that is
    linear in ln a: when the derivative evaluated by the call is a + b t and
    the older stored sample is the value a + b (t - 2 dlna) of the same line
    two steps earlier, the value stored is xe_in plus the integral of
    a + b u over [t, t + dlna]. *)
Theorem X18_update_exact_for_linear_derivative :
  forall param z1 xe_in rate_table func_select iz twog_params fminus lags
         a b t,
    fst (next1_dxedlna param z1 xe_in rate_table func_select iz twog_params
           fminus) = a + b * t ->
    dxedlna_prev2 lags = a + b * (t - 2 * dlna param) ->
    fst (fst (rec_get_xe_next1 param z1 xe_in rate_table func_select iz
                twog_params fminus lags))
    = xe_in + (a * dlna param
               + b * ((t + dlna param) ^ 2 - t ^ 2) / 2).
Proof.
  intros param z1 xe_in rate_table func_select iz twog_params fminus lags
    a b t Hf Hp.
  rewrite next1_out_eq; cbv beta iota zeta; cbn [fst].
  rewrite Hf, Hp.
  replace 1.25 with (5 / 4) by lra.
  replace 0.25 with (1 / 4) by lra.
  field.
Qed.

(** X19.  The seeding before stages 3 and 5 is exact on a history that is
    quadratic in the grid index: if xe_output[j] = a + b j + c j^2 at the
    four indices iz-4, ..., iz-1 and dlna is not zero, the two seeded samples
    are the derivatives of that quadratic with respect to ln a at the indices
    iz-2 and iz-3, (b + 2 c (iz-2)) / dlna and (b + 2 c (iz-3)) / dlna. *)
Theorem X19_seeding_exact_for_quadratic_history :
  forall param s a b c,
    dlna param <> 0 ->
    (forall j, (s_iz s - 4 <= j <= s_iz s - 1)%Z ->
               xe_output s j = a + b * IZR j + c * (IZR j * IZR j)) ->
    dxedlna_prev (s_lags (seed_xe param s))
    = (b + 2 * c * IZR (s_iz s - 2)) / dlna param
    /\ dxedlna_prev2 (s_lags (seed_xe param s))
       = (b + 2 * c * IZR (s_iz s - 3)) / dlna param.
Proof.
  intros param s a b c Hd Hq.
  unfold seed_xe, set_lags; cbn [s_lags dxedlna_prev dxedlna_prev2].
  rewrite (Hq (s_iz s - 1)%Z), (Hq (s_iz s - 2)%Z), (Hq (s_iz s - 3)%Z),
    (Hq (s_iz s - 4)%Z) by lia.
  rewrite !minus_IZR; split; field; exact Hd.
Qed.

(** ** The steady-state stages *)

Lemma stage3_keeps_steady param rate_table twog_params lo s :
  Tm_is_steady param (fun z => nH0 param * cube (1 + z)) lo s ->
  Tm_is_steady param (fun z => nH0 param * cube (1 + z)) lo
    (next_iz (stage3_body param rate_table twog_params s)).
Proof.
  intros HT; unfold Tm_is_steady, next_iz, stage3_body.
  fold (z_grid param (s_iz s)).
  destruct (rec_get_xe_next1 _ _ _ _ _ _ _ _ _) as [[x f] l].
  cbn [s_iz xe_output Tm_output]; intros j Hj.
  destruct (Z.eq_dec j (s_iz s)) as [-> | Hne].
  - rewrite !store_same; reflexivity.
  - rewrite !store_other by exact Hne; apply HT; lia.
Qed.

Lemma stage4_keeps_steady param rate_table twog_params lo s :
  Tm_is_steady param (fun z => nH0 param * cube (1 + z)) lo s ->
  Tm_is_steady param (fun z => nH0 param * cube (1 + z)) lo
    (next_iz (stage4_body param rate_table twog_params s)).
Proof.
  intros HT; unfold Tm_is_steady, next_iz, stage4_body.
  fold (z_grid param (s_iz s)).
  destruct (xe_PostSahaH _ _ _ _ _ _ _ _ _ _ _ _) as [[x d] f].
  cbn [s_iz xe_output Tm_output]; intros j Hj.
  destruct (Z.eq_dec j (s_iz s)) as [-> | Hne].
  - rewrite !store_same; reflexivity.
  - rewrite !store_other by exact Hne; apply HT; lia.
Qed.

Lemma stage5_keeps_steady param rate_table twog_params lo s :
  Tm_is_steady param (fun z => nH0 param * cube (1 + z) * 1e-6) lo s ->
  Tm_is_steady param (fun z => nH0 param * cube (1 + z) * 1e-6) lo
    (next_iz (stage5_body param rate_table twog_params s)).
Proof.
  intros HT; unfold Tm_is_steady, next_iz, stage5_body.
  fold (z_grid param (s_iz s)).
  destruct (rec_get_xe_next1 _ _ _ _ _ _ _ _ _) as [[x f] l].
  cbn [s_iz xe_output Tm_output]; intros j Hj.
  destruct (Z.eq_dec j (s_iz s)) as [-> | Hne].
  - rewrite !store_same; reflexivity.
  - rewrite !store_other by exact Hne; apply HT; lia.
Qed.

(** X20.  In the final arrays the matter temperature of the steady-state
    stages is tied to the free-electron fraction at the same index: at every
    index handled by stage 3 or stage 4, Tm is rec_Tmss of xe at that index
    with the hydrogen density argument nH0 cube(1+z); at every index handled
    by stage 5 it is rec_Tmss of xe with the argument nH0 cube(1+z) 1e-6,
    the value that the integrators use as well. *)
Theorem X20_steady_state_segment :
  forall param rate_table twog_params xe0 Tm0 H_indet lags_indet,
    let s0 := initial_state param xe0 Tm0 H_indet lags_indet in
    exists s3 s5 s6 s,
      history_to_stage3 param s0 = Some s3
      /\ history_to_stage5 param rate_table twog_params s0 = Some s5
      /\ history_to_stage6 param rate_table twog_params s0 = Some s6
      /\ rec_build_history param rate_table twog_params xe0 Tm0 H_indet
           lags_indet = Some s
      /\ (s_iz s3 <= s_iz s5 <= s_iz s6)%Z
      /\ (forall j, (s_iz s3 <= j < s_iz s5)%Z ->
            Tm_output s j
            = rec_Tmss (xe_output s j) (T0 param * (1 + z_grid param j))
                (rec_HubbleConstant param (z_grid param j)) (fHe param)
                (nH0 param * cube (1 + z_grid param j)) (z_grid param j)
                (energy_injection_rate param (z_grid param j)))
      /\ (forall j, (s_iz s5 <= j < s_iz s6)%Z ->
            Tm_output s j
            = rec_Tmss (xe_output s j) (T0 param * (1 + z_grid param j))
                (rec_HubbleConstant param (z_grid param j)) (fHe param)
                (nH0 param * cube (1 + z_grid param j) * 1e-6)
                (z_grid param j)
                (energy_injection_rate param (z_grid param j))).
Proof.
  intros param rate_table twog_params xe0 Tm0 H_indet lags_indet s0.
  destruct (run_trace param rate_table twog_params xe0 Tm0 H_indet lags_indet)
    as (s1 & s2 & s3 & s4 & s5 & s6 & s7 & s8 & E1 & E2 & E3 & E4 & E5 & E6
        & E7 & E8 & E3in & Erun & _).
  fold s0 in E1, E3in.
  destruct (stage_conds_bounded param)
    as (C1 & C2 & C3 & C4 & C5 & C6 & C7 & C8).
  set (e3 := set_Delta_xe (seed_xe param s2) 1) in *.
  (* the invariant through stages 3 and 4 *)
  assert (I3 : Tm_is_steady param (fun z => nH0 param * cube (1 + z))
                 (s_iz e3) e3) by (intros j Hj; lia).
  destruct (for_loop_invariant
              (Tm_is_steady param (fun z => nH0 param * cube (1 + z))
                 (s_iz e3))
              (stage3_cond param) (stage3_body param rate_table twog_params)
              (fun s Hs _ => stage3_keeps_steady param rate_table twog_params
                               (s_iz e3) s Hs)
              _ _ _ I3 E3) as (T3 & _).
  destruct (for_loop_invariant
              (Tm_is_steady param (fun z => nH0 param * cube (1 + z))
                 (s_iz e3))
              (stage4_cond param) (stage4_body param rate_table twog_params)
              (fun s Hs _ => stage4_keeps_steady param rate_table twog_params
                               (s_iz e3) s Hs)
              _ (set_Delta_xe s3 0) _ T3 E4) as (T4 & _).
  (* the invariant through stage 5 *)
  assert (I5 : Tm_is_steady param (fun z => nH0 param * cube (1 + z) * 1e-6)
                 (s_iz s4) (seed_xe param s4)) by (intros j Hj; cbn in Hj; lia).
  destruct (for_loop_invariant
              (Tm_is_steady param
                 (fun z => nH0 param * cube (1 + z) * 1e-6) (s_iz s4))
              (stage5_cond param) (stage5_body param rate_table twog_params)
              (fun s Hs _ => stage5_keeps_steady param rate_table twog_params
                               (s_iz s4) s Hs)
              _ _ _ I5 E5) as (T5 & _).
  (* frames *)
  pose proof (for_loop_frame _ _ _ C3
                (stage3_stores param rate_table twog_params)
                (stage3_frames param rate_table twog_params) _ _ _ E3)
    as [L3 _].
  pose proof (for_loop_frame _ _ _ C4
                (stage4_stores param rate_table twog_params)
                (stage4_frames param rate_table twog_params) _ _ _ E4)
    as [L4 _].
  pose proof (for_loop_frame _ _ _ C5
                (stage5_stores param rate_table twog_params)
                (stage5_frames param rate_table twog_params) _ _ _ E5)
    as [L5 F5].
  pose proof (for_loop_frame _ _ _ C6
                (stage678_stores param rate_table twog_params FUNC_H2G)
                (stage678_frames param rate_table twog_params FUNC_H2G)
                _ _ _ E6) as [L6 F6].
  pose proof (for_loop_frame _ _ _ C7
                (stage678_stores param rate_table twog_params FUNC_HMLA)
                (stage678_frames param rate_table twog_params FUNC_HMLA)
                _ _ _ E7) as [L7 F7].
  pose proof (for_loop_frame _ _ _ C8
                (stage678_stores param rate_table twog_params FUNC_PEEBLES)
                (stage678_frames param rate_table twog_params FUNC_PEEBLES)
                _ _ _ E8) as [L8 F8].
  cbn [s_iz set_Delta_xe seed_xe seed_Tm set_lags xe_output Tm_output] in *.
  assert (Hlate : forall j, (j < s_iz s5)%Z ->
            xe_output s8 j = xe_output s5 j
            /\ Tm_output s8 j = Tm_output s5 j).
  { intros j Hj.
    destruct (F8 j ltac:(lia)) as [-> ->].
    destruct (F7 j ltac:(lia)) as [-> ->].
    destruct (F6 j ltac:(lia)) as [-> ->].
    split; reflexivity. }
  exists e3, (seed_xe param s4), (seed_Tm param s5), s8.
  split; [exact E3in |].
  split.
  { unfold history_to_stage5; rewrite E3in; cbn [obind]; rewrite E3;
      cbn [obind]; rewrite E4; reflexivity. }
  split.
  { unfold history_to_stage6, history_to_stage5; rewrite E3in; cbn [obind].
    rewrite E3; cbn [obind]; rewrite E4; cbn [obind]; rewrite E5;
      reflexivity. }
  split; [exact Erun |].
  cbn [s_iz set_Delta_xe seed_xe seed_Tm set_lags].
  split; [unfold e3 in *; cbn [s_iz set_Delta_xe seed_xe set_lags] in *; lia |].
  split.
  - intros j Hj.
    destruct (Hlate j ltac:(lia)) as [-> ->].
    destruct (F5 j ltac:(lia)) as [-> ->].
    apply (T4 j); lia.
  - intros j Hj.
    destruct (Hlate j ltac:(lia)) as [-> ->].
    apply (T5 j); lia.
Qed.

(** ** Division by the Hubble rate *)

(** X21.  For z > -1, omh2 > 0 and nonnegative okh2, odeh2 and Nnueff the
    Hubble rate is strictly positive, so the divisions by H in rec_dTmdlna
    and in the helium kernel call are divisions by a positive number. *)
Theorem X21_hubble_rate_positive :
  forall param z,
    -1 < z -> 0 < omh2 param -> 0 <= okh2 param -> 0 <= odeh2 param ->
    0 <= Nnueff param ->
    0 < rec_HubbleConstant param z.
Proof.
  intros param z Hz Hm Hk Hde HN.
  unfold rec_HubbleConstant.
  apply Rmult_lt_0_compat; [lra |].
  apply sqrt_lt_R0; rewrite rho_total_sum.
  assert (H3 : 0 < omh2 param * (1 + z) ^ 3).
  { apply Rmult_lt_0_compat; [exact Hm | apply pow_lt; lra]. }
  assert (H2 : 0 <= okh2 param * (1 + z) ^ 2).
  { apply Rmult_le_pos; [exact Hk | apply pow_le; lra]. }
  assert (Hd : 0 <= odeh2 param * Rpower (1 + z) (3 * (1 + w0 param))
               * exp (3 * wa param * (ln (1 + z) - 1 + 1 / (1 + z)))).
  { apply Rmult_le_pos; [apply Rmult_le_pos; [exact Hde |] |].
    - left; apply Rpower_pos.
    - left; apply exp_pos. }
  assert (Hr : 0 <= 4.48162687719e-7 * T0 param ^ 4 * (1 + z) ^ 4
               * (1 + 0.227107317660239 * Nnueff param)).
  { apply Rmult_le_pos; [apply Rmult_le_pos; [apply Rmult_le_pos |] |].
    - lra.
    - replace (T0 param ^ 4) with ((T0 param ^ 2) ^ 2) by ring.
      apply pow2_ge_0.
    - apply pow_le; lra.
    - nra. }
  lra.
Qed.

(** ** How the stages end *)





(** ** Seeding of the lagged samples: every stage entry *)

Lemma stage_bodies_set_z param rate_table twog_params :
  body_sets_z param (stage1_body param)
  /\ body_sets_z param (stage2_body param)
  /\ body_sets_z param (stage3_body param rate_table twog_params)
  /\ body_sets_z param (stage4_body param rate_table twog_params)
  /\ body_sets_z param (stage5_body param rate_table twog_params)
  /\ (forall func_select,
         body_sets_z param
           (stage678_body param rate_table twog_params func_select)).
Proof.
  split; [| split; [| split; [| split; [| split]]]];
    [| | | | | intros func_select]; intros s.
  - unfold stage1_body; destruct (rec_sahaHeII _ _ _ _); reflexivity.
  - unfold stage2_body; destruct (xe_PostSahaHe _ _ _ _ _); reflexivity.
  - unfold stage3_body.
    destruct (rec_get_xe_next1 _ _ _ _ _ _ _ _ _) as [[x f] l]; reflexivity.
  - unfold stage4_body.
    destruct (xe_PostSahaH _ _ _ _ _ _ _ _ _ _ _ _) as [[x d] f]; reflexivity.
  - unfold stage5_body.
    destruct (rec_get_xe_next1 _ _ _ _ _ _ _ _ _) as [[x f] l]; reflexivity.
  - unfold stage678_body.
    destruct (rec_get_xe_next2 _ _ _ _ _ _ _ _ _ _) as [[[x t] f] l];
      reflexivity.
Qed.

Lemma z_on_grid_pass param body s :
  body_stores_at_iz body -> body_sets_z param body ->
  z_on_grid param (next_iz (body s)).
Proof.
  intros Hb Hz _; unfold next_iz; cbn [s_iz s_z].
  destruct (Hb s) as (Hi & _); rewrite Hi, Hz; f_equal; lia.
Qed.

Lemma for_loop_z_on_grid param cond body k s s' :
  body_stores_at_iz body -> body_sets_z param body ->
  z_on_grid param s -> for_loop k cond body s = Some s' ->
  z_on_grid param s'.
Proof.
  intros Hb Hz Hs Hrun.
  apply (for_loop_invariant (z_on_grid param) cond body
           (fun t _ _ => z_on_grid_pass param body t Hb Hz) k s s' Hs Hrun).
Qed.

Lemma populated_written n s : populated n s -> written_below_iz s.
Proof.
  intros (H0 & _ & Hx & Ht) j; rewrite Hx, Ht, in_map_iff.
  assert (Hin : (exists k, Z.of_nat k = j /\ In k (seq 0 (Z.to_nat (s_iz s))))
                <-> (0 <= j < s_iz s)%Z).
  { split.
    - intros (k & Hk & Hk'); apply in_seq in Hk'; lia.
    - intros Hj; exists (Z.to_nat j); split; [lia | apply in_seq; lia]. }
  split; exact Hin.
Qed.

(** One pass of an integrator segment keeps the lagged redshifts on the grid
    and leaves the derivative it has evaluated as the newer sample. *)
Lemma stage5_pass_lags param rate_table twog_params s :
  s_z s = z_grid param (s_iz s - 1) -> z_lags_on_grid param s ->
  z_lags_on_grid param (next_iz (stage5_body param rate_table twog_params s))
  /\ xe_lag_from_next1 param rate_table twog_params FUNC_H2G
       (next_iz (stage5_body param rate_table twog_params s)).
Proof.
  intros Hz [Hp Hp2].
  unfold z_lags_on_grid, xe_lag_from_next1, next_iz, stage5_body.
  rewrite next1_out_eq; cbv zeta.
  cbn [s_iz s_lags xe_output fst snd z_prev z_prev2 dxedlna_prev].
  replace (s_iz s + 1 - 2)%Z with (s_iz s - 1)%Z by lia.
  replace (s_iz s + 1 - 3)%Z with (s_iz s - 2)%Z by lia.
  split; [split; assumption |].
  exists (s_fminus s).
  rewrite store_other by lia; rewrite Hz; reflexivity.
Qed.

Lemma stage678_pass_lags param rate_table twog_params func_select s :
  s_z s = z_grid param (s_iz s - 1) -> z_lags_on_grid param s ->
  z_lags_on_grid param
    (next_iz (stage678_body param rate_table twog_params func_select s))
  /\ xe_lag_from_next2 param rate_table twog_params func_select
       (next_iz (stage678_body param rate_table twog_params func_select s)).
Proof.
  intros Hz [Hp Hp2].
  unfold z_lags_on_grid, xe_lag_from_next2, next_iz, stage678_body.
  rewrite next2_out_eq; cbv zeta.
  cbn [s_iz s_lags xe_output Tm_output fst snd z_prev z_prev2 dxedlna_prev].
  replace (s_iz s + 1 - 2)%Z with (s_iz s - 1)%Z by lia.
  replace (s_iz s + 1 - 3)%Z with (s_iz s - 2)%Z by lia.
  split; [split; assumption |].
  exists (s_fminus s).
  rewrite !store_other by lia; rewrite Hz; reflexivity.
Qed.

(** A loop of an integrator segment: the lagged redshifts stay on the grid;
    a loop that runs no pass leaves the state as it was, and after a loop
    that has run the newer xe sample is the derivative of its last pass. *)
Lemma integrator_loop param cond body (last_pass : STATE -> Prop) :
  cond_bounded (nz param) cond -> body_stores_at_iz body ->
  body_frames body -> body_sets_z param body ->
  (forall s,
      s_z s = z_grid param (s_iz s - 1) -> z_lags_on_grid param s ->
      z_lags_on_grid param (next_iz (body s))
      /\ last_pass (next_iz (body s))) ->
  forall k e x,
    for_loop k cond body e = Some x ->
    (Z.min 1 (nz param) <= s_iz e)%Z ->
    z_on_grid param e -> z_lags_on_grid param e ->
    z_on_grid param x /\ z_lags_on_grid param x
    /\ (s_iz e <= s_iz x)%Z
    /\ (s_iz x = s_iz e -> x = e)
    /\ ((s_iz e < s_iz x)%Z -> last_pass x).
Proof.
  intros Hc Hb Hf Hz Hpass k e x Hrun Hmin Hze Hle.
  destruct (for_loop_frame _ _ _ Hc Hb Hf _ _ _ Hrun) as [Hmono _].
  assert (Hinv :
    (z_on_grid param x /\ z_lags_on_grid param x
     /\ (Z.min 1 (nz param) <= s_iz x)%Z
     /\ ((s_iz e < s_iz x)%Z -> last_pass x)
     /\ (s_iz e <= s_iz x)%Z)
    /\ cond x = false).
  { apply (for_loop_invariant
             (fun s => z_on_grid param s /\ z_lags_on_grid param s
                       /\ (Z.min 1 (nz param) <= s_iz s)%Z
                       /\ ((s_iz e < s_iz s)%Z -> last_pass s)
                       /\ (s_iz e <= s_iz s)%Z) cond body) with (k := k) (s := e);
      [| split; [exact Hze | split; [exact Hle | split; [exact Hmin |]]];
         split; [intros; lia | lia]
       | exact Hrun].
    intros s (Hzs & Hls & Hms & _ & Hes) E.
    apply Hc in E.
    assert (Hpos : (0 < s_iz s)%Z) by lia.
    destruct (Hpass s (Hzs Hpos) Hls) as [Hl' Hlast].
    destruct (Hb s) as (Hi & _).
    split; [apply z_on_grid_pass; assumption |].
    split; [exact Hl' |].
    split; [| split; [intros _; exact Hlast |]];
      unfold next_iz; cbn [s_iz]; rewrite Hi; lia. }
  destruct Hinv as ((Hzx & Hlx & _ & Hlast & _) & _).
  split; [exact Hzx |]. split; [exact Hlx |]. split; [exact Hmono |].
  split; [| exact Hlast].
  intros Heq.
  destruct (cond e) eqn:E.
  - pose proof (for_loop_runs_once _ _ _ Hc Hb Hf k e x E Hrun); lia.
  - rewrite (for_loop_exit cond body k e E) in Hrun; congruence.
Qed.

(** The first four loops each run a pass when there is room for one. *)
Lemma first_stages_run param s :
  (s_iz s < nz param)%Z ->
  stage2_cond param (set_Delta_xe s 0) = true
  /\ stage3_cond param (set_Delta_xe (seed_xe param s) 1) = true
  /\ stage4_cond param (set_Delta_xe s 0) = true.
Proof.
  intros Hn; unfold stage2_cond, stage3_cond, stage4_cond.
  cbn [s_iz s_Delta_xe set_Delta_xe seed_xe set_lags].
  rewrite (proj2 (Z.ltb_lt _ _) Hn).
  rewrite !Rltb_true by lra; rewrite (Rgtb_true 1 1e-4) by lra.
  repeat split.
Qed.

(** C2, as the code has it.  In every run of rec_build_history:
    - the state at the entry of the helium segment (stage 3) and of the
      two-photon segment (stage 5), the two ODE stages that follow an
      equilibrium stage, carries lagged xe derivatives equal to
      (xe[i-1] - xe[i-3]) / (2 dlna) and (xe[i-2] - xe[i-4]) / (2 dlna);
    - the cells the run has stored to at any of these entries are the cells
      0, ..., i-1; stage 3 is entered with i >= min(2, nz) and stages 5 and 6
      with i >= min(4, nz), so the cells read at stages 5 and 6 are written
      history when nz >= 4, and those read at stage 3 only when i >= 4;
    - at the entry of every ODE stage (3, 5, 6, 7 and 8) the lagged
      redshifts are z(i-2) and z(i-3) of the grid formula;
    - stage 6 is entered with the xe samples stage 5 left and with lagged Tm
      derivatives that are rec_dTmdlna evaluated on the history at i-2 and
      i-3, not finite differences of Tm_output; stage 7 is entered in the
      state stage 6 left and stage 8 in the state stage 7 left;
    - a loop of stage 5, 6 or 7 that runs no pass leaves the state as it
      was, and after one that has run the newer xe sample is the derivative
      the integrator evaluated in its last pass, at the grid point i-2. *)
Theorem C2_seeding_at_stage_entries :
  forall param rate_table twog_params xe0 Tm0 H_indet lags_indet,
    let s0 := initial_state param xe0 Tm0 H_indet lags_indet in
    exists e3 e5 x5 e6 x6 x7 x8,
      history_to_stage3 param s0 = Some e3
      /\ history_to_stage5 param rate_table twog_params s0 = Some e5
      /\ for_loop (fuel param) (stage5_cond param)
           (stage5_body param rate_table twog_params) e5 = Some x5
      /\ e6 = seed_Tm param x5
      /\ history_to_stage6 param rate_table twog_params s0 = Some e6
      /\ for_loop (fuel param) (stage6_cond param)
           (stage678_body param rate_table twog_params FUNC_H2G) e6 = Some x6
      /\ for_loop (fuel param) (stage7_cond param)
           (stage678_body param rate_table twog_params FUNC_HMLA) x6 = Some x7
      /\ for_loop (fuel param) (stage8_cond param)
           (stage678_body param rate_table twog_params FUNC_PEEBLES) x7
         = Some x8
      /\ rec_build_history param rate_table twog_params xe0 Tm0 H_indet
           lags_indet = Some x8
      /\ xe_lags_seeded param e3 /\ xe_lags_seeded param e5
      /\ written_below_iz e3 /\ written_below_iz e5 /\ written_below_iz e6
      /\ (Z.min 2 (nz param) <= s_iz e3)%Z
      /\ (Z.min 4 (nz param) <= s_iz e5 <= s_iz e6)%Z
      /\ z_lags_on_grid param e3 /\ z_lags_on_grid param e5
      /\ z_lags_on_grid param e6 /\ z_lags_on_grid param x6
      /\ z_lags_on_grid param x7
      /\ Tm_lags_seeded param e6
      /\ dxedlna_prev (s_lags e6) = dxedlna_prev (s_lags x5)
      /\ dxedlna_prev2 (s_lags e6) = dxedlna_prev2 (s_lags x5)
      /\ (s_iz x5 = s_iz e5 -> x5 = e5)
      /\ ((s_iz e5 < s_iz x5)%Z ->
          xe_lag_from_next1 param rate_table twog_params FUNC_H2G e6)
      /\ (s_iz x6 = s_iz e6 -> x6 = e6)
      /\ ((s_iz e6 < s_iz x6)%Z ->
          xe_lag_from_next2 param rate_table twog_params FUNC_H2G x6)
      /\ (s_iz x7 = s_iz x6 -> x7 = x6)
      /\ ((s_iz x6 < s_iz x7)%Z ->
          xe_lag_from_next2 param rate_table twog_params FUNC_HMLA x7).
Proof.
  intros param rate_table twog_params xe0 Tm0 H_indet lags_indet s0.
  assert (P0 : populated (nz param) s0).
  { unfold populated, s0, initial_state, xe_stores, Tm_stores;
      cbn [s_iz xe_output Tm_output stores map].
    repeat split; try reflexivity; lia. }
  assert (G0 : z_on_grid param s0).
  { intros Hpos; unfold s0, initial_state in Hpos; cbn [s_iz] in Hpos; lia. }
  destruct (stage_conds_bounded param)
    as (C1 & C2 & C3 & C4 & C5 & C6 & C7 & C8).
  destruct (stage_bodies_set_z param rate_table twog_params)
    as (Z1 & Z2 & Z3 & Z4 & Z5 & Z678).
  (* the eight loops *)
  destruct (stage_loop_returns param _ _ s0 C1 (stage1_stores param) P0)
    as (s1 & E1 & P1 & _).
  destruct (stage_loop_returns param _ _ (set_Delta_xe s1 0) C2
              (stage2_stores param) (populated_set_Delta_xe _ _ _ P1))
    as (s2 & E2 & P2 & _).
  destruct (stage_loop_returns param _ _ (set_Delta_xe (seed_xe param s2) 1)
              C3 (stage3_stores param rate_table twog_params) P2)
    as (s3 & E3 & P3 & _).
  destruct (stage_loop_returns param _ _ (set_Delta_xe s3 0) C4
              (stage4_stores param rate_table twog_params)
              (populated_set_Delta_xe _ _ _ P3))
    as (s4 & E4 & P4 & _).
  destruct (stage_loop_returns param _ _ (seed_xe param s4) C5
              (stage5_stores param rate_table twog_params) P4)
    as (s5 & E5 & P5 & _).
  destruct (stage_loop_returns param _ _ (seed_Tm param s5) C6
              (stage678_stores param rate_table twog_params FUNC_H2G) P5)
    as (s6 & E6 & P6 & _).
  destruct (stage_loop_returns param _ _ s6 C7
              (stage678_stores param rate_table twog_params FUNC_HMLA) P6)
    as (s7 & E7 & P7 & _).
  destruct (stage_loop_returns param _ _ s7 C8
              (stage678_stores param rate_table twog_params FUNC_PEEBLES) P7)
    as (s8 & E8 & P8 & _).
  assert (E3in : history_to_stage3 param s0
                 = Some (set_Delta_xe (seed_xe param s2) 1)).
  { unfold history_to_stage3; rewrite E1; cbn [obind]; rewrite E2;
      reflexivity. }
  assert (E5in : history_to_stage5 param rate_table twog_params s0
                 = Some (seed_xe param s4)).
  { unfold history_to_stage5; rewrite E3in; cbn [obind]; rewrite E3;
      cbn [obind]; rewrite E4; reflexivity. }
  assert (E6in : history_to_stage6 param rate_table twog_params s0
                 = Some (seed_Tm param s5)).
  { unfold history_to_stage6; rewrite E5in; cbn [obind]; rewrite E5;
      reflexivity. }
  assert (Erun : rec_build_history param rate_table twog_params xe0 Tm0
                   H_indet lags_indet = Some s8).
  { unfold rec_build_history; fold s0; rewrite E6in; cbn [obind].
    unfold history_from_stage6; rewrite E6; cbn [obind]; rewrite E7;
      cbn [obind]; exact E8. }
  (* the local z follows the grid *)
  pose proof (for_loop_z_on_grid param _ _ _ _ _ (stage1_stores param) Z1
                G0 E1) as G1.
  pose proof (for_loop_z_on_grid param _ _ _ (set_Delta_xe s1 0) _
                (stage2_stores param) Z2 G1 E2) as G2.
  pose proof (for_loop_z_on_grid param _ _ _
                (set_Delta_xe (seed_xe param s2) 1) _
                (stage3_stores param rate_table twog_params) Z3 G2 E3) as G3.
  pose proof (for_loop_z_on_grid param _ _ _ (set_Delta_xe s3 0) _
                (stage4_stores param rate_table twog_params) Z4 G3 E4) as G4.
  (* every one of the first four loops runs when there is room *)
  assert (R1 : (Z.min 1 (nz param) <= s_iz s1)%Z).
  { destruct (Z.lt_ge_cases 0 (nz param)) as [Hn | Hn].
    - assert (1 <= s_iz s1)%Z; [| lia].
      apply (for_loop_runs_once _ _ _ C1 (stage1_stores param)
               (stage1_frames param) (fuel param) s0 s1); [| exact E1].
      unfold stage1_cond, s0, initial_state; cbn [s_iz s_Delta_xe].
      rewrite (proj2 (Z.ltb_lt 0 (nz param)) Hn), Rgtb_true by lra;
        reflexivity.
    - destruct P1 as (H0 & _); lia. }
  pose proof (for_loop_frame _ _ _ C2 (stage2_stores param)
                (stage2_frames param) _ _ _ E2) as [L2 _].
  pose proof (for_loop_frame _ _ _ C3
                (stage3_stores param rate_table twog_params)
                (stage3_frames param rate_table twog_params) _ _ _ E3)
    as [L3 _].
  pose proof (for_loop_frame _ _ _ C4
                (stage4_stores param rate_table twog_params)
                (stage4_frames param rate_table twog_params) _ _ _ E4)
    as [L4 _].
  cbn [s_iz set_Delta_xe seed_xe set_lags] in L2, L3, L4.
  assert (R2 : (Z.min 2 (nz param) <= s_iz s2)%Z).
  { destruct (Z.lt_ge_cases (s_iz s1) (nz param)) as [Hn | Hn]; [| lia].
    destruct (first_stages_run param s1 Hn)
      as (F2 & _).
    pose proof (for_loop_runs_once _ _ _ C2 (stage2_stores param)
                  (stage2_frames param) _ _ _ F2 E2) as H.
    cbn [s_iz set_Delta_xe] in H; lia. }
  assert (R3 : (Z.min 3 (nz param) <= s_iz s3)%Z).
  { destruct (Z.lt_ge_cases (s_iz s2) (nz param)) as [Hn | Hn]; [| lia].
    destruct (first_stages_run param s2 Hn)
      as (_ & F3 & _).
    pose proof (for_loop_runs_once _ _ _ C3
                  (stage3_stores param rate_table twog_params)
                  (stage3_frames param rate_table twog_params) _ _ _ F3 E3)
      as H.
    cbn [s_iz set_Delta_xe seed_xe set_lags] in H; lia. }
  assert (R4 : (Z.min 4 (nz param) <= s_iz s4)%Z).
  { destruct (Z.lt_ge_cases (s_iz s3) (nz param)) as [Hn | Hn]; [| lia].
    destruct (first_stages_run param s3 Hn)
      as (_ & _ & F4).
    pose proof (for_loop_runs_once _ _ _ C4
                  (stage4_stores param rate_table twog_params)
                  (stage4_frames param rate_table twog_params) _ _ _ F4 E4)
      as H.
    cbn [s_iz set_Delta_xe] in H; lia. }
  (* the three integrator loops that follow the seeding of stage 5 *)
  pose proof (seed_xe_seeded param s2) as S3.
  pose proof (seed_xe_seeded param s4) as S5.
  assert (LG5 : z_lags_on_grid param (seed_xe param s4)).
  { destruct S5 as (_ & _ & Hp & Hp2); split; assumption. }
  destruct (integrator_loop param _ _
              (xe_lag_from_next1 param rate_table twog_params FUNC_H2G)
              C5 (stage5_stores param rate_table twog_params)
              (stage5_frames param rate_table twog_params) Z5
              (stage5_pass_lags param rate_table twog_params)
              _ _ _ E5 ltac:(cbn [s_iz seed_xe set_lags]; lia) G4 LG5)
    as (G5 & LG5' & M5 & Same5 & Last5).
  destruct (integrator_loop param _ _
              (xe_lag_from_next2 param rate_table twog_params FUNC_H2G)
              C6 (stage678_stores param rate_table twog_params FUNC_H2G)
              (stage678_frames param rate_table twog_params FUNC_H2G)
              (Z678 FUNC_H2G)
              (stage678_pass_lags param rate_table twog_params FUNC_H2G)
              _ (seed_Tm param s5) _ E6
              ltac:(cbn [s_iz seed_xe seed_Tm set_lags] in *; lia) G5 LG5')
    as (G6 & LG6 & M6 & Same6 & Last6).
  destruct (integrator_loop param _ _
              (xe_lag_from_next2 param rate_table twog_params FUNC_HMLA)
              C7 (stage678_stores param rate_table twog_params FUNC_HMLA)
              (stage678_frames param rate_table twog_params FUNC_HMLA)
              (Z678 FUNC_HMLA)
              (stage678_pass_lags param rate_table twog_params FUNC_HMLA)
              _ _ _ E7
              ltac:(cbn [s_iz seed_xe seed_Tm set_lags] in *; lia) G6 LG6)
    as (G7 & LG7 & M7 & Same7 & Last7).
  exists (set_Delta_xe (seed_xe param s2) 1), (seed_xe param s4), s5,
    (seed_Tm param s5), s6, s7, s8.
  cbn [s_iz seed_xe seed_Tm set_lags set_Delta_xe] in *.
  split; [exact E3in |]. split; [exact E5in |]. split; [exact E5 |].
  split; [reflexivity |]. split; [exact E6in |]. split; [exact E6 |].
  split; [exact E7 |]. split; [exact E8 |]. split; [exact Erun |].
  split; [exact S3 |]. split; [exact S5 |].
  split; [exact (populated_written _ _ P2) |].
  split; [exact (populated_written _ _ P4) |].
  split; [exact (populated_written _ _ P5) |].
  split; [lia |]. split; [lia |].
  split; [destruct S3 as (_ & _ & Hp & Hp2); split; assumption |].
  split; [exact LG5 |]. split; [exact LG5' |]. split; [exact LG6 |].
  split; [exact LG7 |].
  split; [apply seed_Tm_seeded |].
  split; [reflexivity |]. split; [reflexivity |].
  split; [exact Same5 |]. split; [exact Last5 |].
  split; [exact Same6 |]. split; [exact Last6 |].
  split; [exact Same7 | exact Last7].
Qed.


(** ** A run on a short grid in which every one of the first five loops runs
    one pass *)

Lemma for_loop_one_pass cond body k s :
  cond s = true -> cond (next_iz (body s)) = false ->
  for_loop (S k) cond body s = Some (next_iz (body s)).
Proof. intros E1 E2; simpl; rewrite E1; apply for_loop_exit; exact E2. Qed.

Lemma short_grid_bounds i :
  (0 <= i <= 4)%Z -> 999 < z_grid short_param i <= 1000.
Proof.
  intros [H0 H4]; apply IZR_le in H0, H4.
  unfold z_grid; cbn [zstart dlna short_param].
  pose proof (exp_ineq1_le (- (8.49e-5) * IZR i)) as Hlo.
  assert (Hhi : exp (- (8.49e-5) * IZR i) <= 1).
  { rewrite <- exp_0.
    destruct (Req_dec (IZR i) 0) as [-> | Hne].
    - rewrite Rmult_0_r; lra.
    - left; apply exp_increasing; nra. }
  split; nra.
Qed.

Lemma short_hubble_bound z :
  999 < z <= 1000 -> 0 <= rec_HubbleConstant short_param z <= 6.5e-14.
Proof.
  intros [Hlo Hhi].
  assert (Ha : 0 < 1 + z <= 1001) by lra.
  assert (Hrho : 0 <= rho_total short_param z <= 2e4 * 2e4).
  { rewrite rho_total_sum; cbn [omh2 okh2 odeh2 w0 wa T0 Nnueff short_param].
    replace (3 * (1 + -1)) with 0 by ring.
    rewrite Rpower_O by lra.
    replace (3 * 0 * (ln (1 + z) - 1 + 1 / (1 + z))) with 0 by ring.
    rewrite exp_0.
    assert (H3 : 0 <= (1 + z) ^ 3 <= 1001 ^ 3).
    { split; [apply pow_le; lra | apply pow_incr; lra]. }
    assert (H4 : 0 <= (1 + z) ^ 4 <= 1001 ^ 4).
    { split; [apply pow_le; lra | apply pow_incr; lra]. }
    assert (H2 : 0 <= (1 + z) ^ 2) by (apply pow_le; lra).
    assert (HT : 55 <= 2.726 ^ 4 <= 56) by (split; simpl; lra).
    assert (HT4 : 0 <= 2.726 ^ 4 * (1 + z) ^ 4 <= 56 * 1001 ^ 4).
    { split; [apply Rmult_le_pos; lra |].
      apply Rmult_le_compat; lra. }
    split; lra. }
  unfold rec_HubbleConstant.
  assert (Hs : 0 <= sqrt (rho_total short_param z) <= 2e4).
  { split; [apply sqrt_pos |].
    rewrite <- (sqrt_square 2e4) by lra.
    apply sqrt_le_1_alt; lra. }
  split; nra.
Qed.

(** On the short grid, with xe = 1 and without energy injection, the
    steady-state temperature is within 5e-4 of the radiation temperature. *)
Lemma short_Tm_test z nH z' :
  999 < z <= 1000 ->
  1 - rec_Tmss 1 (T0 short_param * (1 + z)) (rec_HubbleConstant short_param z)
        (fHe short_param) nH z' (energy_injection_rate short_param z)
      / T0 short_param / (1 + z) < 5e-4.
Proof.
  intros Hz.
  destruct (short_hubble_bound z Hz) as [HH0 HH1].
  rewrite energy_injection_rate_off by reflexivity.
  unfold rec_Tmss; cbv zeta; cbn [T0 fHe short_param].
  set (H := rec_HubbleConstant short_param z) in *.
  set (Tr := 2.726 * (1 + z)).
  assert (HTr : 2700 <= Tr) by (unfold Tr; lra).
  set (f := 0.24 / (1 - 0.24) / 3.97153).
  assert (Hf : 0 <= f <= 0.1) by (unfold f; split; lra).
  set (D := H / 4.91466895548409e-22 / Tr / Tr / Tr / Tr * (1 + 1 + f) / 1).
  assert (HD : 0 <= D < 5e-4).
  { assert (HT2 : 2700 * 2700 <= Tr * Tr) by nra.
    assert (HT4 : 2700 * 2700 * (2700 * 2700) <= Tr * Tr * Tr * Tr) by nra.
    assert (E : D * (4.91466895548409e-22 * (Tr * Tr * Tr * Tr))
                = H * (1 + 1 + f)).
    { unfold D; field; lra. }
    assert (0 <= H * (1 + 1 + f) <= 6.5e-14 * 2.1).
    { split; [apply Rmult_le_pos; lra | apply Rmult_le_compat; lra]. }
    split.
    - apply (Rmult_le_reg_r (4.91466895548409e-22 * (Tr * Tr * Tr * Tr)));
        [nra | rewrite E; lra].
    - apply (Rmult_lt_reg_r (4.91466895548409e-22 * (Tr * Tr * Tr * Tr)));
        [nra | rewrite E; nra]. }
  replace (1 - (Tr / (1 + D)
                + 1 / (4.91466895548409e-22 * Tr ^ 4 * 1) * 2
                  / (3 * 1.3806503e-23) * (1 + 2 * 1) / (3 * nH * 1e6) * 0)
               / 2.726 / (1 + z))
    with (D / (1 + D)).
  - apply (Rmult_lt_reg_r (1 + D)); [lra |].
    replace (D / (1 + D) * (1 + D)) with D by (field; lra); lra.
  - unfold Tr, Rdiv; rewrite Rmult_0_r, Rplus_0_r; field; lra.
Qed.


(** With solvers that let each equilibrium stage and each steady-state
    stage exit after one pass, the run on the short grid enters stage 3 at
    i = 2 and stage 6 at i = 5 = nz, after one pass of the two-photon
    segment. *)
Lemma short_run rate_table twog_params Tm0 H_indet lags_indet :
  MODEL = PEEBLES -> FUNC_H2G <> FUNC_HEI ->
  (forall a b c d, rec_sahaHeII a b c d = (1, 0)) ->
  (forall a b c d e, xe_PostSahaHe a b c d e = (1, 1)) ->
  (forall a b c, rec_saha_xe_H a b c = 1) ->
  (forall a b c d e f g h i j k l,
      fst (xe_PostSahaH a b c d e f g h i j k l) = (1, 1)) ->
  (forall a b c d e f, rec_helium_dxedt a b c d e f = 0) ->
  (forall a b c d e f g, rec_HPeebles_dxedlna a b c d e f g = 2) ->
  let s0 := initial_state short_param (fun _ => 1) Tm0 H_indet lags_indet in
  exists e3 e6,
    history_to_stage3 short_param s0 = Some e3
    /\ history_to_stage6 short_param rate_table twog_params s0 = Some e6
    /\ s_iz e3 = 2%Z /\ xe_stores e3 = [0; 1]%Z
    /\ s_iz e6 = 5%Z
    /\ dxedlna_prev (s_lags e6) = 2
    /\ xe_output e6 4%Z = 1 + dlna short_param * (1.25 * 2 - 0.25 * 0)
    /\ xe_output e6 2%Z = 1.
Proof.
  intros HM Hfun Hsaha Hpost HsahaH HpostH Hhe Hpe s0.
  assert (HMb : (MODEL =? PEEBLES)%Z = true) by (apply Z.eqb_eq; exact HM).
  assert (Hfb : (FUNC_H2G =? FUNC_HEI)%Z = false)
    by (apply Z.eqb_neq; exact Hfun).
  (* stage 1 *)
  set (s1 := next_iz (stage1_body short_param s0)).
  assert (E1 : for_loop (fuel short_param) (stage1_cond short_param)
                 (stage1_body short_param) s0 = Some s1).
  { apply (for_loop_one_pass _ _ 4%nat).
    - unfold stage1_cond, s0, initial_state; cbn [s_iz s_Delta_xe].
      rewrite Rgtb_true by lra; reflexivity.
    - unfold stage1_cond, s1, next_iz, stage1_body; rewrite Hsaha.
      cbn [s_iz s_Delta_xe]; rewrite Rgtb_false by lra; apply andb_false_r. }
  assert (F1 : s_iz s1 = 1%Z /\ xe_output s1 = store (mkARRAY (fun _ => 1) []) 0 1).
  { unfold s1, next_iz, stage1_body; rewrite Hsaha; split; reflexivity. }
  destruct F1 as [I1 X1].
  (* stage 2 *)
  set (s2 := next_iz (stage2_body short_param (set_Delta_xe s1 0))).
  assert (E2 : for_loop (fuel short_param) (stage2_cond short_param)
                 (stage2_body short_param) (set_Delta_xe s1 0) = Some s2).
  { apply (for_loop_one_pass _ _ 4%nat).
    - unfold stage2_cond; cbn [s_iz s_Delta_xe set_Delta_xe]; rewrite I1.
      rewrite Rltb_true by lra; reflexivity.
    - unfold stage2_cond, s2, next_iz, stage2_body; rewrite Hpost.
      cbn [s_iz s_Delta_xe]; rewrite Rltb_false by lra; apply andb_false_r. }
  assert (F2 : s_iz s2 = 2%Z
               /\ xe_output s2 = store (xe_output s1) 1 1
               /\ s_z s2 = z_grid short_param 1).
  { unfold s2, next_iz, stage2_body; rewrite Hpost.
    cbn [s_iz s_z xe_output set_Delta_xe]; rewrite I1.
    repeat split. }
  destruct F2 as (I2 & X2 & Z2).
  (* stage 3 *)
  set (e3 := set_Delta_xe (seed_xe short_param s2) 1).
  assert (L3 : dxedlna_prev (s_lags e3) = 0 /\ dxedlna_prev2 (s_lags e3) = 0).
  { unfold e3, seed_xe; cbn [s_lags set_Delta_xe set_lags dxedlna_prev
                             dxedlna_prev2 s_iz xe_output].
    rewrite I2, X2, X1.
    replace (2 - 1)%Z with 1%Z by reflexivity.
    replace (2 - 2)%Z with 0%Z by reflexivity.
    replace (2 - 3)%Z with (-1)%Z by reflexivity.
    replace (2 - 4)%Z with (-2)%Z by reflexivity.
    rewrite (store_same _ 1), (store_other _ 1 1 0), (store_same _ 0),
      (store_other _ 1 1 (-1)), (store_other _ 0 1 (-1)),
      (store_other _ 1 1 (-2)), (store_other _ 0 1 (-2)) by lia.
    unfold load; cbn [stores at_call fold_left].
    split; unfold Rdiv; ring. }
  assert (K1 : forall z1 xe_in iz fm,
            next1_dxedlna short_param z1 xe_in rate_table FUNC_HEI iz
              twog_params fm = (0, fm)).
  { intros; unfold next1_dxedlna; rewrite HMb, Z.eqb_refl, Hhe.
    unfold Rdiv; rewrite Rmult_0_l; reflexivity. }
  assert (K2 : forall z1 xe_in iz fm,
            next1_dxedlna short_param z1 xe_in rate_table FUNC_H2G iz
              twog_params fm = (2, fm)).
  { intros; unfold next1_dxedlna; rewrite HMb, Hfb, Hpe; reflexivity. }
  assert (X2at : xe_output s2 1%Z = 1 /\ xe_output s2 0%Z = 1).
  { rewrite X2, X1; split.
    - apply store_same.
    - rewrite store_other by lia; apply store_same. }
  set (s3 := next_iz (stage3_body short_param rate_table twog_params e3)).
  assert (F3 : s_iz s3 = 3%Z
               /\ xe_output s3 = store (xe_output s2) 2 1
               /\ s_z s3 = z_grid short_param 2
               /\ s_Delta_xe s3 = 0).
  { unfold s3, next_iz, stage3_body; rewrite next1_out_eq, K1; cbv zeta.
    cbn [fst snd s_iz s_z s_Delta_xe xe_output].
    destruct L3 as [_ ->].
    unfold e3; cbn [s_iz xe_output set_Delta_xe seed_xe set_lags].
    rewrite I2.
    replace (2 - 1)%Z with 1%Z by reflexivity.
    rewrite (proj1 X2at).
    replace (1 + dlna short_param * (1.25 * 0 - 0.25 * 0)) with 1 by ring.
    repeat split.
    rewrite store_same, HsahaH.
    replace (1 - 1) with 0 by ring; apply Rabs_R0. }
  destruct F3 as (I3 & X3 & Z3 & D3).
  assert (E3 : for_loop (fuel short_param) (stage3_cond short_param)
                 (stage3_body short_param rate_table twog_params) e3
               = Some s3).
  { apply (for_loop_one_pass _ _ 4%nat).
    - unfold stage3_cond, e3; cbn [s_iz s_Delta_xe set_Delta_xe seed_xe
                                   set_lags]; rewrite I2.
      rewrite (Rgtb_true 1) by lra; reflexivity.
    - change (stage3_cond short_param s3 = false).
      unfold stage3_cond; rewrite I3, D3, Z3.
      destruct (short_grid_bounds 2 ltac:(lia)) as [_ Hz].
      rewrite !Rgtb_false by lra; reflexivity. }
  (* stage 4 *)
  set (s4 := next_iz (stage4_body short_param rate_table twog_params
                        (set_Delta_xe s3 0))).
  assert (F4 : s_iz s4 = 4%Z
               /\ xe_output s4 = store (xe_output s3) 3 1
               /\ s_z s4 = z_grid short_param 3
               /\ s_Delta_xe s4 = 1
               /\ exists nH z',
                    Tm_output s4 3%Z
                    = rec_Tmss 1 (T0 short_param * (1 + z_grid short_param 3))
                        (rec_HubbleConstant short_param
                           (z_grid short_param 3))
                        (fHe short_param) nH z'
                        (energy_injection_rate short_param
                           (z_grid short_param 3))).
  { unfold s4, next_iz, stage4_body.
    cbn [s_iz s_z s_lags s_fminus xe_output Tm_output set_Delta_xe].
    rewrite I3; fold (z_grid short_param 3).
    match goal with
    | |- context [xe_PostSahaH ?a ?b ?c ?d ?e ?f ?g ?h ?i ?j ?k ?l] =>
        pose proof (HpostH a b c d e f g h i j k l) as Hq;
        destruct (xe_PostSahaH a b c d e f g h i j k l) as [[x d'] fm']
    end.
    cbn [fst] in Hq; injection Hq as -> ->.
    cbn [s_iz s_z s_Delta_xe xe_output Tm_output].
    repeat split.
    eexists _, _; rewrite !store_same; reflexivity. }
  destruct F4 as (I4 & X4 & Z4 & D4 & nH & z' & T4).
  assert (E4 : for_loop (fuel short_param) (stage4_cond short_param)
                 (stage4_body short_param rate_table twog_params)
                 (set_Delta_xe s3 0) = Some s4).
  { apply (for_loop_one_pass _ _ 4%nat).
    - unfold stage4_cond; cbn [s_iz s_Delta_xe set_Delta_xe]; rewrite I3.
      rewrite Rltb_true by lra; reflexivity.
    - change (stage4_cond short_param s4 = false).
      unfold stage4_cond; rewrite I4, D4.
      rewrite Rltb_false by lra; reflexivity. }
  (* stage 5 *)
  assert (X4at : xe_output s4 3%Z = 1 /\ xe_output s4 2%Z = 1
                 /\ xe_output s4 1%Z = 1 /\ xe_output s4 0%Z = 1).
  { rewrite X4, X3; repeat split.
    - apply store_same.
    - rewrite store_other by lia; apply store_same.
    - rewrite !store_other by lia; apply X2at.
    - rewrite !store_other by lia; apply X2at. }
  destruct X4at as (X43 & X42 & X41 & X40).
  set (e5 := seed_xe short_param s4).
  assert (L5 : dxedlna_prev2 (s_lags e5) = 0).
  { unfold e5, seed_xe; cbn [s_lags set_lags dxedlna_prev2]; rewrite I4.
    replace (4 - 2)%Z with 2%Z by reflexivity.
    replace (4 - 4)%Z with 0%Z by reflexivity.
    rewrite X42, X40; unfold Rdiv; ring. }
  set (s5 := next_iz (stage5_body short_param rate_table twog_params e5)).
  assert (F5 : s_iz s5 = 5%Z
               /\ xe_output s5
                  = store (xe_output s4) 4
                      (1 + dlna short_param * (1.25 * 2 - 0.25 * 0))
               /\ dxedlna_prev (s_lags s5) = 2).
  { unfold s5, next_iz, stage5_body; rewrite next1_out_eq, K2; cbv zeta.
    cbn [fst snd s_iz s_lags xe_output dxedlna_prev].
    rewrite L5.
    unfold e5; cbn [s_iz xe_output seed_xe set_lags]; rewrite I4.
    replace (4 - 1)%Z with 3%Z by reflexivity.
    rewrite X43; repeat split. }
  destruct F5 as (I5 & X5 & P5).
  assert (E5 : for_loop (fuel short_param) (stage5_cond short_param)
                 (stage5_body short_param rate_table twog_params) e5
               = Some s5).
  { apply (for_loop_one_pass _ _ 4%nat).
    - unfold stage5_cond, e5; cbn [s_iz s_z Tm_output seed_xe set_lags].
      rewrite I4, Z4.
      replace (4 - 1)%Z with 3%Z by reflexivity.
      rewrite T4.
      pose proof (short_grid_bounds 3 ltac:(lia)) as Hz.
      rewrite Rltb_true by (apply short_Tm_test; exact Hz).
      rewrite Rgtb_true by lra; reflexivity.
    - change (stage5_cond short_param s5 = false).
      unfold stage5_cond; rewrite I5; reflexivity. }
  exists e3, (seed_Tm short_param s5).
  split.
  { unfold history_to_stage3; fold s0; rewrite E1; cbn [obind].
    rewrite E2; reflexivity. }
  split.
  { unfold history_to_stage6, history_to_stage5, history_to_stage3.
    fold s0; rewrite E1; cbn [obind]; rewrite E2; cbn [obind].
    fold e3; rewrite E3; cbn [obind]; rewrite E4; cbn [obind].
    fold e5; rewrite E5; reflexivity. }
  cbn [s_iz s_lags xe_output seed_Tm set_lags dxedlna_prev].
  split; [exact I2 |].
  split.
  { unfold xe_stores, e3; cbn [xe_output set_Delta_xe seed_xe set_lags].
    rewrite X2, X1; reflexivity. }
  split; [exact I5 |]. split; [exact P5 |].
  rewrite X5; split.
  - apply store_same.
  - rewrite store_other by lia; exact X42.
Qed.

End History.

(** ** Concrete runs *)

Arguments s_iz {ARRAY_2D ARRAY_1D} s.
Arguments s_lags {ARRAY_2D ARRAY_1D} s.
Arguments Tm_output {ARRAY_2D ARRAY_1D} s.
Arguments xe_output {ARRAY_2D ARRAY_1D} s.
Arguments xe_stores {ARRAY_2D ARRAY_1D} s.

(** C5, as stated, fails at z = 1 with w0 = -1 and wa = 1: the code gives
    exp(3 * (ln 2 - 1/2)), the stated formula exp(3 * ln (1/2)). *)
Lemma C5_counterexample :
  let a := / (1 + 1) in
  nth 2 (rho_i cpl_param 1) 0
  <> odeh2 cpl_param * Rpower a (- 3 * (1 + w0 cpl_param))
     * exp (3 * wa cpl_param * ln a).
Proof.
  cbv zeta; unfold rho_i, cpl_param; cbn [nth odeh2 w0 wa].
  replace (3 * (1 + -1)) with 0 by ring.
  replace (- 3 * (1 + -1)) with 0 by ring.
  rewrite !Rpower_O by lra.
  rewrite ln_Rinv by lra.
  intros Heq.
  assert (He : exp (3 * 1 * (ln (1 + 1) - 1 + 1 / (1 + 1)))
               = exp (3 * 1 * - ln (1 + 1))) by lra.
  apply exp_inv in He.
  pose proof ln_lt_2 as Hl.
  replace (1 + 1) with 2 in He by ring.
  lra.
Qed.

(** C2, as stated, fails in three respects.

    The first run is on the short grid (five points from z = 1000), with the
    Peebles model (MODEL = PEEBLES = 0), the mechanism tags FUNC_HEI = 1,
    FUNC_H2G = 2 and FUNC_HMLA = 3, solvers under which each of the first
    four stages exits after one pass, a helium kernel that returns 0, a
    Peebles kernel that returns 2, and arrays that hold 1 everywhere at the
    call.  Stage 3 is entered at i = 2, where the cell i - 4 = -2 read by the
    seeding has never been stored to: it is not written history.  Stage 5
    runs one pass, so stage 6 is entered at i = 5 = nz with the newer xe
    sample 2, the derivative of that pass, while the centred difference
    (xe[4] - xe[2]) / (2 dlna) is 1.25; stages 6 and 7 run no pass, so
    stages 7 and 8 are entered in the same state.

    The second run is on the canonical grid, with the full model
    (MODEL = 3) and a Saha solver under which He III never recombines.  The
    first stage fills the whole grid with Tm = T0 (1 + z); at the entry of
    stage 6 the lagged Tm derivative is rec_dTmdlna there, that is
    -2 Tm[i-2], while the centred difference (Tm[i-1] - Tm[i-3]) / (2 dlna)
    is -Tm[i-2] sinh(dlna)/dlna. *)
Lemma C2_counterexample :
  (exists e3 e6,
      history_to_stage3 unit unit (fun _ _ _ _ => (1, 0))
        (fun _ _ _ _ _ => (1, 1)) short_param
        (initial_state unit unit 311 (fun _ _ => tt) (fun _ => tt)
           short_param (fun _ => 1) (fun _ => 1) 0 zero_lags) = Some e3
      /\ history_to_stage6 unit unit unit unit 0 0 1 2 1 2 8.617343e-5
           stub_cube (fun _ _ _ _ => (1, 0)) (fun _ _ _ _ _ => (1, 1))
           (fun _ _ _ => 1) (fun _ _ _ _ _ _ _ f _ _ _ _ => (1, 1, f))
           (fun f _ _ _ _ _ _ _ _ _ => f)
           (fun _ _ _ _ _ _ => 0) stub_HPeebles (fun _ _ _ _ _ _ _ => 0)
           (fun _ _ _ _ _ _ _ _ => 0)
           (fun _ _ _ _ _ _ _ _ _ f _ _ _ => (0, f))
           short_param tt tt
           (initial_state unit unit 311 (fun _ _ => tt) (fun _ => tt)
              short_param (fun _ => 1) (fun _ => 1) 0 zero_lags) = Some e6
      /\ ~ In (s_iz e3 - 4)%Z (xe_stores e3)
      /\ for_loop unit unit (fuel short_param)
           (stage6_cond unit unit short_param)
           (stage678_body unit unit unit unit 0 0 1 2 1 2 3 8.617343e-5
              (fun _ _ _ _ _ _ => 0) stub_HPeebles (fun _ _ _ _ _ _ _ => 0)
              (fun _ _ _ _ _ _ _ _ => 0)
              (fun _ _ _ _ _ _ _ _ _ f _ _ _ => (0, f))
              short_param tt tt 2) e6 = Some e6
      /\ for_loop unit unit (fuel short_param)
           (stage7_cond unit unit short_param)
           (stage678_body unit unit unit unit 0 0 1 2 1 2 3 8.617343e-5
              (fun _ _ _ _ _ _ => 0) stub_HPeebles (fun _ _ _ _ _ _ _ => 0)
              (fun _ _ _ _ _ _ _ _ => 0)
              (fun _ _ _ _ _ _ _ _ _ f _ _ _ => (0, f))
              short_param tt tt 3) e6 = Some e6
      /\ dxedlna_prev (s_lags e6)
         <> (xe_output e6 (s_iz e6 - 1)%Z - xe_output e6 (s_iz e6 - 3)%Z)
            / (2 * dlna short_param))
  /\ (exists s6,
        history_to_stage6 unit unit unit unit 3 0 1 2 1 2 8.617343e-5
          stub_cube stub_sahaHeII (fun _ _ _ _ _ => (1, 0)) (fun _ _ _ => 1)
          (fun _ _ _ _ _ _ _ f _ _ _ _ => (1, 0, f))
          (fun f _ _ _ _ _ _ _ _ _ => f)
          (fun _ _ _ _ _ _ => 0) stub_HPeebles (fun _ _ _ _ _ _ _ => 0)
          (fun _ _ _ _ _ _ _ _ => 0)
          (fun _ _ _ _ _ _ _ _ _ f _ _ _ => (0, f))
          canonical_param tt tt
          (initial_state unit unit 311 (fun _ _ => tt) (fun _ => tt)
             canonical_param (fun _ => 0) (fun _ => 0) 0 zero_lags)
        = Some s6
        /\ dTmdlna_prev (s_lags s6)
           <> (Tm_output s6 (s_iz s6 - 1)%Z - Tm_output s6 (s_iz s6 - 3)%Z)
              / (2 * dlna canonical_param)).
Proof.
  split.
  - destruct (short_run unit unit unit unit 0 0 1 2 1 2 311 8.617343e-5
                stub_cube (fun _ _ => tt) (fun _ => tt)
                (fun _ _ _ _ => (1, 0)) (fun _ _ _ _ _ => (1, 1))
                (fun _ _ _ => 1) (fun _ _ _ _ _ _ _ f _ _ _ _ => (1, 1, f))
                (fun f _ _ _ _ _ _ _ _ _ => f)
                (fun _ _ _ _ _ _ => 0) stub_HPeebles
                (fun _ _ _ _ _ _ _ => 0) (fun _ _ _ _ _ _ _ _ => 0)
                (fun _ _ _ _ _ _ _ _ _ f _ _ _ => (0, f))
                tt tt (fun _ => 1) 0 zero_lags)
      as (e3 & e6 & E3 & E6 & I3 & XS & I6 & P & X4 & X2);
      try reflexivity; try discriminate.
    exists e3, e6.
    split; [exact E3 |]. split; [exact E6 |].
    split.
    { rewrite I3, XS; cbn [In]; intros [H | [H | []]]; discriminate. }
    split.
    { apply for_loop_exit; unfold stage6_cond; rewrite I6; reflexivity. }
    split.
    { apply for_loop_exit; unfold stage7_cond; rewrite I6; reflexivity. }
    rewrite P, I6.
    replace (5 - 1)%Z with 4%Z by reflexivity.
    replace (5 - 3)%Z with 2%Z by reflexivity.
    rewrite X4, X2; cbn [dlna short_param]; lra.
  - destruct (saha_only_run unit unit unit unit 3 0 1 2 1 2 311 8.617343e-5
                stub_cube (fun _ _ => tt) (fun _ => tt) stub_sahaHeII
                (fun _ _ _ _ _ => (1, 0)) (fun _ _ _ => 1)
                (fun _ _ _ _ _ _ _ f _ _ _ _ => (1, 0, f))
                (fun f _ _ _ _ _ _ _ _ _ => f)
                (fun _ _ _ _ _ _ => 0) stub_HPeebles (fun _ _ _ _ _ _ _ => 0)
                (fun _ _ _ _ _ _ _ _ => 0)
                (fun _ _ _ _ _ _ _ _ _ f _ _ _ => (0, f))
                canonical_param tt tt (fun _ => 0) (fun _ => 0) 0 zero_lags)
      as (s6 & E & Hiz & HTm & (_ & _ & Hzp & _) & (Hseed & _)).
    { intros a b c d; unfold stub_sahaHeII; cbn [snd]; lra. }
    { cbn [nz canonical_param]; lia. }
    exists s6; split; [exact E |].
    intros Hfd.
    rewrite Hseed in Hfd; clear Hseed.
    rewrite Hzp, Hiz in Hfd.
    cbn [nz canonical_param] in Hfd, HTm.
    replace (105859 - 1)%Z with 105858%Z in Hfd by reflexivity.
    replace (105859 - 2)%Z with 105857%Z in Hfd by reflexivity.
    replace (105859 - 3)%Z with 105856%Z in Hfd by reflexivity.
    rewrite (HTm 105858%Z), (HTm 105857%Z), (HTm 105856%Z) in Hfd by lia.
    rewrite (energy_injection_rate_off canonical_param) in Hfd
      by reflexivity.
    rewrite rec_dTmdlna_at_Tr in Hfd.
    unfold z_grid in Hfd; cbn [T0 zstart dlna canonical_param] in Hfd.
    assert (E58 : exp (- (8.49e-5) * 105858)
                 = exp (- (8.49e-5) * 105857) * exp (- (8.49e-5))).
    { rewrite <- exp_plus; f_equal; lra. }
    assert (E56 : exp (- (8.49e-5) * 105856)
                 = exp (- (8.49e-5) * 105857) * exp 8.49e-5).
    { rewrite <- exp_plus; f_equal; lra. }
    rewrite E58, E56 in Hfd.
    revert Hfd; apply centred_difference_not_minus2;
      try lra; apply exp_pos.
Qed.

(** C4, as stated, fails on the grid the function fixes: the code sets
    nz = 105859, the ceiling formula gives 105860. *)
Lemma C4_counterexample :
  let q := rec_get_cosmoparam
             [2.726; 0.022; 0.14; 0; 0.35; -1; 0; 0.24; 3.046]
             canonical_param in
  nz q <> nz_ceiling_formula q.
Proof.
  intros q.
  destruct (cosmoparam_grid [2.726; 0.022; 0.14; 0; 0.35; -1; 0; 0.24; 3.046]
              canonical_param) as (Hs & He & Hd & Hn).
  fold q in Hs, He, Hd, Hn; unfold nz_ceiling_formula.
  rewrite Hs, He, Hd, Hn, ceiling_formula_value, grid_length; lia.
Qed.

(** C7, as stated, fails on an input with a negative CMB temperature: the
    validating constructor of the specification reports a configuration
    error, the code returns a parameter record that holds T0 = -1. *)
Lemma C7_counterexample :
  let fin := [-1; 0.022; 0.14; 0; 0.35; -1; 0; 0.24; 3.046] in
  validated_cosmoparam fin canonical_param = None
  /\ T0 (rec_get_cosmoparam fin canonical_param) = -1
  /\ Some (rec_get_cosmoparam fin canonical_param)
     <> validated_cosmoparam fin canonical_param.
Proof.
  intros fin.
  assert (HT : T0 (rec_get_cosmoparam fin canonical_param) = -1).
  { unfold rec_get_cosmoparam, fin; cbn [fscanf_lg T0]; reflexivity. }
  assert (Hv : validated_cosmoparam fin canonical_param = None).
  { unfold validated_cosmoparam.
    destruct (physically_valid (rec_get_cosmoparam fin canonical_param))
      eqn:E; [| reflexivity].
    apply physically_valid_T0 in E; rewrite HT in E; lra. }
  rewrite Hv; split; [reflexivity | split; [exact HT | discriminate]].
Qed.

(** C10 at the canonical parameters and z = 1100, where no operation
    overflows. *)
Lemma C10_witness :
  -1 < 1100
  /\ Forall Double.in_range (hubble_results canonical_param 1100)
  /\ 0 <= rec_HubbleConstant canonical_param 1100
  /\ Double.not_negative (Double.rec_HubbleConstant canonical_param 1100)
  /\ Double.rec_HubbleConstant canonical_param 1100
     = Double.Finite (rec_HubbleConstant canonical_param 1100).
Proof.
  assert (Hr : Forall Double.in_range (hubble_results canonical_param 1100)).
  { unfold hubble_results; cbv zeta.
    cbn [omh2 okh2 odeh2 w0 wa T0 Nnueff canonical_param].
    replace (1 + 1100) with 1101 by lra.
    replace (3 * (1 + -1)) with 0 by lra.
    rewrite Rpower_O by lra.
    replace (3 * 0 * (ln 1101 - 1 + 1 / 1101)) with 0 by lra.
    rewrite exp_0.
    assert (HL : 0 <= ln 1101 <= 1101).
    { split.
      - rewrite <- ln_1; left; apply ln_increasing; lra.
      - pose proof (exp_ineq1_le (ln 1101)) as H.
        rewrite exp_ln in H by lra; lra. }
    set (L := ln 1101) in *.
    set (rho := 0 + 0.14 * 1101 * 1101 * 1101 + 0 * 1101 * 1101 + 0.35 * 1 * 1
                + 4.48162687719e-7 * 2.726 * 2.726 * 2.726 * 2.726 * 1101
                  * 1101 * 1101 * 1101
                + 0.227107317660239
                  * (4.48162687719e-7 * 2.726 * 2.726 * 2.726 * 2.726 * 1101
                     * 1101 * 1101 * 1101) * 3.046).
    assert (Hrho : 0 <= rho <= 1e10 * 1e10) by (unfold rho; lra).
    assert (HS : 0 <= sqrt rho <= 1e10).
    { split; [apply sqrt_pos |].
      rewrite <- (sqrt_square 1e10) by lra.
      apply sqrt_le_1_alt; lra. }
    set (S := sqrt rho) in *.
    repeat (apply Forall_cons; [apply in_range_small; lra |]).
    apply Forall_nil. }
  destruct (C10_hubble_rate_nonnegative canonical_param 1100)
    as (_ & _ & _ & Hh & _ & _ & Dh & Hfin);
    try (cbn [omh2 okh2 odeh2 T0 Nnueff canonical_param]; lra).
  split; [lra |]. split; [exact Hr |]. split; [exact Hh |].
  split; [exact Dh |].
  exact (proj2 (Hfin Hr)).
Defined.

(** C10, as stated, fails on doubles.  With odeh2 = 0, w0 = -1, wa = 30 and
    z = 8000 every hypothesis of the claim holds; the factor
    odeh2 * pow(ainv, 0) is 0, the argument of exp is
    90 * (ln 8001 - 1 + 1/8001) > 718, so that exp overflows to +inf, the
    dark-energy density is 0 * inf = NaN, and the function returns NaN. *)
Lemma C10_counterexample :
  (-1 < 8000 /\ 0 <= omh2 overflow_param /\ 0 <= okh2 overflow_param
   /\ 0 <= odeh2 overflow_param /\ 0 <= T0 overflow_param
   /\ 0 <= Nnueff overflow_param)
  /\ nth 2 (Double.rho_i overflow_param 8000) (Double.Finite 0) = Double.NaN
  /\ Double.rec_HubbleConstant overflow_param 8000 = Double.NaN.
Proof.
  split.
  { cbn [omh2 okh2 odeh2 T0 Nnueff overflow_param]; repeat split; lra. }
  assert (HL : 8.987 < ln 8001 < 8.988).
  { pose proof ln_8001_bounds; lra. }
  assert (Hexp : Double.DBL_MAX
                 < exp (3 * 30 * (ln 8001 - 1 + 1 / 8001))).
  { apply Rlt_trans with 1e309; [apply DBL_MAX_bounds |].
    apply Rlt_trans with (exp (IZR 718 / IZR 1)).
    - change 1e309 with (1 * IZR (10 ^ 309)); rewrite Rmult_1_l.
      apply (exp_gt_cert_correct (2 ^ 100) 24); vm_compute; reflexivity.
    - apply exp_increasing; lra. }
  assert (E2 : nth 2 (Double.rho_i overflow_param 8000) (Double.Finite 0)
               = Double.NaN).
  { unfold Double.rho_i; cbv zeta; cbn [nth odeh2 w0 wa overflow_param].
    rewrite (dadd_finite 1 8000) by (apply in_range_small; lra).
    replace (1 + 8000) with 8001 by lra.
    rewrite (dadd_finite 1 (-1)) by (apply in_range_small; lra).
    rewrite (dmul_finite 3 (1 + -1)) by (apply in_range_small; lra).
    replace (3 * (1 + -1)) with 0 by lra.
    rewrite (dpow_finite 8001 0)
      by (try lra; rewrite Rpower_O by lra; apply in_range_small; lra).
    rewrite Rpower_O by lra.
    rewrite (dmul_finite 0 1) by (apply in_range_small; lra).
    rewrite (dmul_finite 3 30) by (apply in_range_small; lra).
    rewrite (dlog_finite 8001) by (try lra; apply in_range_small; lra).
    rewrite (dsub_finite (ln 8001) 1) by (apply in_range_small; lra).
    rewrite (ddiv_finite 1 8001) by (try lra; apply in_range_small; lra).
    rewrite (dadd_finite (ln 8001 - 1) (1 / 8001))
      by (apply in_range_small; lra).
    rewrite (dmul_finite (3 * 30) (ln 8001 - 1 + 1 / 8001))
      by (apply in_range_small; lra).
    unfold Double.dexp; rewrite overflow_above by exact Hexp.
    unfold Double.dmul, Double.inf_times.
    destruct (Req_dec_T (0 * 1) 0) as [_ | Hn]; [reflexivity | lra]. }
  split; [exact E2 |].
  unfold Double.rec_HubbleConstant, Double.rho_total.
  unfold Double.rho_i in *; cbv zeta in *; cbn [nth] in E2.
  cbn [fold_left]; rewrite E2; cbn [Double.dadd].
  rewrite dadd_NaN_r; reflexivity.
Qed.


(** C5, as the code has it, at z = 1 with w0 = -1 and wa = 1. *)
Lemma C5_witness :
  -1 < 1
  /\ nth 2 (rho_i cpl_param 1) 0
     = odeh2 cpl_param * Rpower (/ (1 + 1)) (- 3 * (1 + w0 cpl_param))
       * exp (3 * wa cpl_param * (/ (1 + 1) - 1 - ln (/ (1 + 1)))).
Proof.
  split; [lra |].
  apply (C5_dark_energy_density cpl_param 1); lra.
Defined.

(** C8 with the Peebles model (MODEL = PEEBLES = 0) and a Peebles kernel
    that evaluates to 2 everywhere: three calls from xe = 1 with both stored
    samples equal to 2. *)
Lemma C8_witness :
  (forall z xe iz fminus,
      fst (next1_dxedlna unit unit unit unit 0 0 1 2 1 2 8.617343e-5
             (fun _ _ _ _ _ _ => 0) stub_HPeebles (fun _ _ _ _ _ _ _ => 0)
             (fun _ _ _ _ _ _ _ _ => 0)
             (fun _ _ _ _ _ _ _ _ _ f _ _ _ => (0, f))
             canonical_param z xe tt 4 iz tt fminus) = 2)
  /\ fst (fst (repeat_next1 unit unit unit unit 0 0 1 2 1 2 8.617343e-5
                 (fun _ _ _ _ _ _ => 0) stub_HPeebles
                 (fun _ _ _ _ _ _ _ => 0) (fun _ _ _ _ _ _ _ _ => 0)
                 (fun _ _ _ _ _ _ _ _ _ f _ _ _ => (0, f))
                 canonical_param tt 4 tt (fun _ => 20) (fun _ => 100%Z) 3 1
                 (mkFMINUS unit unit tt (tt, tt, tt))
                 (mkLAGS 0 2 0 0 2 0)))
     = 1 + 2 * INR 3 * dlna canonical_param.
Proof.
  assert (Hk : forall z xe iz fminus,
             fst (next1_dxedlna unit unit unit unit 0 0 1 2 1 2 8.617343e-5
                    (fun _ _ _ _ _ _ => 0) stub_HPeebles
                    (fun _ _ _ _ _ _ _ => 0) (fun _ _ _ _ _ _ _ _ => 0)
                    (fun _ _ _ _ _ _ _ _ _ f _ _ _ => (0, f))
                    canonical_param z xe tt 4 iz tt fminus) = 2).
  { intros; reflexivity. }
  split; [exact Hk |].
  apply (proj2 (proj2 (C8_constant_derivative unit unit unit unit 0 0 1 2 1 2
                         8.617343e-5 (fun _ _ _ _ _ _ => 0) stub_HPeebles
                         (fun _ _ _ _ _ _ _ => 0) (fun _ _ _ _ _ _ _ _ => 0)
                         (fun _ _ _ _ _ _ _ _ _ f _ _ _ => (0, f))))
           canonical_param tt 4%Z tt 2 Hk 3%nat (fun _ => 20) (fun _ => 100%Z) 1
           (mkFMINUS unit unit tt (tt, tt, tt)) (mkLAGS 0 2 0 0 2 0));
    reflexivity.
Defined.

(** ** Examples for the further properties *)

(** X1 at z = 1100 with omh2 = 0.14 alone. *)
Lemma X1_witness :
  -1 < 1100
  /\ rec_HubbleConstant matter_only_param 1100
     = 3.2407792896393e-18 * sqrt (omh2 matter_only_param)
       * Rpower (1 + 1100) (3 / 2).
Proof.
  split; [lra |].
  apply (X1_hubble_matter_only matter_only_param 1100);
    cbn [omh2 okh2 odeh2 T0 matter_only_param]; lra.
Defined.

(** X2 on the canonical parameters between z = 0 and z = 1100. *)
Lemma X2_witness :
  -1 < 0 <= 1100
  /\ rec_HubbleConstant canonical_param 0
     <= rec_HubbleConstant canonical_param 1100.
Proof.
  split; [lra |].
  apply (X2_hubble_monotone canonical_param 0 1100);
    cbn [omh2 okh2 odeh2 Nnueff w0 wa canonical_param]; lra.
Defined.

(** X8 and X9 with p_ann = 1e-6, alpha = 0.1, p_dec = 1e-3 at z = 1000. *)
Lemma X8_witness :
  p_annihilation_high injecting_param
  <= p_annihilation_at_z injecting_param 1000
  /\ p_annihilation_at_z injecting_param 1000
     <= p_annihilation_low injecting_param.
Proof.
  apply (X8_annihilation_efficiency_bounds injecting_param 1000);
    cbn [p_ann alpha injecting_param]; lra.
Defined.

Lemma X9_witness : 0 <= energy_injection_rate injecting_param 1000.
Proof.
  apply (X9_injection_rate_nonnegative injecting_param 1000);
    cbn [p_ann p_dec injecting_param]; lra.
Defined.

(** X11 and X12 at xe = 1, Tr = 3000, H = 1e-13, fHe = 0.08, with the
    densities nH = 1e9 and nH' = 1e3. *)
Lemma X11_witness :
  0 < rec_Tmss 1 3000 1e-13 0.08 1e9 1100 1e-30
  /\ rec_Tmss 1 3000 1e-13 0.08 1e9 1100 0 <= 3000
  /\ rec_Tmss 1 3000 1e-13 0.08 1e9 1100 0
     <= rec_Tmss 1 3000 1e-13 0.08 1e9 1100 1e-30.
Proof.
  apply (X11_Tmss_positive_below_Tr 1 3000 1e-13 0.08 1e9 1100 1e-30); lra.
Defined.

Lemma X12_witness :
  rec_dTmdlna 1 (rec_Tmss 1 3000 1e-13 0.08 1e9 1100 0) 3000 1e-13 0.08 1e3
    1100 0
  = - rec_Tmss 1 3000 1e-13 0.08 1e9 1100 0.
Proof.
  apply (X12_dTmdlna_at_steady_state 1 3000 1e-13 0.08 1e9 1e3 1100 1100);
    lra.
Defined.

(** X21 on the canonical parameters at z = 1100. *)
Lemma X21_witness : 0 < rec_HubbleConstant canonical_param 1100.
Proof.
  apply (X21_hubble_rate_positive canonical_param 1100);
    cbn [omh2 okh2 odeh2 Nnueff canonical_param]; lra.
Defined.

(** X18 with the Peebles model and the constant kernel 2 = 1 + 1 * 1. *)
Lemma X18_witness :
  fst (fst (rec_get_xe_next1 unit unit unit unit 0 0 1 2 1 2 8.617343e-5
              (fun _ _ _ _ _ _ => 0) stub_HPeebles (fun _ _ _ _ _ _ _ => 0)
              (fun _ _ _ _ _ _ _ _ => 0)
              (fun _ _ _ _ _ _ _ _ _ f _ _ _ => (0, f))
              canonical_param 20 1 tt 4 100 tt
              (mkFMINUS unit unit tt (tt, tt, tt))
              (mkLAGS 0 0 0 0 (1 + 1 * (1 - 2 * dlna canonical_param)) 0)))
  = 1 + (1 * dlna canonical_param
         + 1 * ((1 + dlna canonical_param) ^ 2 - 1 ^ 2) / 2).
Proof.
  apply (X18_update_exact_for_linear_derivative unit unit unit unit 0 0 1 2
           1 2 8.617343e-5 (fun _ _ _ _ _ _ => 0) stub_HPeebles
           (fun _ _ _ _ _ _ _ => 0) (fun _ _ _ _ _ _ _ _ => 0)
           (fun _ _ _ _ _ _ _ _ _ f _ _ _ => (0, f))
           canonical_param 20 1 tt 4%Z 100%Z tt
           (mkFMINUS unit unit tt (tt, tt, tt))
           (mkLAGS 0 0 0 0 (1 + 1 * (1 - 2 * dlna canonical_param)) 0)
           1 1 1).
  - change (2 = 1 + 1 * 1); lra.
  - reflexivity.
Defined.

(** X19 on the history xe[j] = 1 + 2 j + 3 j^2 with iz = 10. *)
Lemma X19_witness :
  dxedlna_prev
    (s_lags (seed_xe unit unit canonical_param
               (mkSTATE unit unit 10 0 0 0 zero_lags
                  (mkARRAY (fun j => 1 + 2 * IZR j + 3 * (IZR j * IZR j)) [])
                  (mkARRAY (fun _ => 0) [])
                  (mkFMINUS unit unit tt (tt, tt, tt)))))
  = (2 + 2 * 3 * IZR (10 - 2)) / dlna canonical_param
  /\ dxedlna_prev2
       (s_lags (seed_xe unit unit canonical_param
                  (mkSTATE unit unit 10 0 0 0 zero_lags
                     (mkARRAY (fun j => 1 + 2 * IZR j + 3 * (IZR j * IZR j))
                        [])
                     (mkARRAY (fun _ => 0) [])
                     (mkFMINUS unit unit tt (tt, tt, tt)))))
     = (2 + 2 * 3 * IZR (10 - 3)) / dlna canonical_param.
Proof.
  apply (X19_seeding_exact_for_quadratic_history unit unit canonical_param
           (mkSTATE unit unit 10 0 0 0 zero_lags
              (mkARRAY (fun j => 1 + 2 * IZR j + 3 * (IZR j * IZR j)) [])
              (mkARRAY (fun _ => 0) [])
              (mkFMINUS unit unit tt (tt, tt, tt)))
           1 2 3).
  - cbn [dlna canonical_param]; lra.
  - intros j _; reflexivity.
Defined.

(** X16 on a helium step (func_select = FUNC_HEI) with the full model. *)
Lemma X16_witness :
  let Tm_ss :=
    rec_Tmss 1 (T0 canonical_param * (1 + 2000))
      (rec_HubbleConstant canonical_param 2000) (fHe canonical_param)
      (nH0 canonical_param * (1 + 2000) * (1 + 2000) * (1 + 2000) * 1e-6)
      2000 (energy_injection_rate canonical_param 2000) in
  let r1 :=
    rec_get_xe_next1 unit unit unit unit 3 0 1 2 1 2 8.617343e-5
      (fun _ _ _ _ _ _ => 0) stub_HPeebles (fun _ _ _ _ _ _ _ => 0)
      (fun _ _ _ _ _ _ _ _ => 0)
      (fun _ _ _ _ _ _ _ _ _ f _ _ _ => (0, f))
      canonical_param 2000 1 tt 1 100 tt
      (mkFMINUS unit unit tt (tt, tt, tt)) zero_lags in
  let r2 :=
    rec_get_xe_next2 unit unit unit unit 3 0 1 2 1 2 3 8.617343e-5
      (fun _ _ _ _ _ _ => 0) stub_HPeebles (fun _ _ _ _ _ _ _ => 0)
      (fun _ _ _ _ _ _ _ _ => 0)
      (fun _ _ _ _ _ _ _ _ _ f _ _ _ => (0, f))
      canonical_param 2000 1 Tm_ss tt 1 100 tt
      (mkFMINUS unit unit tt (tt, tt, tt)) zero_lags in
  fst (fst (fst r2)) = fst (fst r1)
  /\ snd (fst r2) = snd (fst r1)
  /\ z_prev (snd r2) = z_prev (snd r1)
  /\ dxedlna_prev (snd r2) = dxedlna_prev (snd r1)
  /\ z_prev2 (snd r2) = z_prev2 (snd r1)
  /\ dxedlna_prev2 (snd r2) = dxedlna_prev2 (snd r1).
Proof.
  apply (X16_integrators_agree_at_steady_state unit unit unit unit 3 0 1 2
           1 2 3 8.617343e-5 (fun _ _ _ _ _ _ => 0) stub_HPeebles
           (fun _ _ _ _ _ _ _ => 0) (fun _ _ _ _ _ _ _ _ => 0)
           (fun _ _ _ _ _ _ _ _ _ f _ _ _ => (0, f))
           canonical_param 2000 1 tt 1%Z 100%Z tt
           (mkFMINUS unit unit tt (tt, tt, tt)) zero_lags).
  right; right; right; left; reflexivity.
Defined.

(** X17 with the switch values 1, 2, 3, 4 and 311 virtual levels. *)
Lemma X17_witness :
  let s0 :=
    initial_state unit unit 311 (fun _ _ => tt) (fun _ => tt) canonical_param
      (fun _ => 0) (fun _ => 0) 0 zero_lags in
  exists s3 s6e s6 s : STATE unit unit,
    history_to_stage3 unit unit stub_sahaHeII (fun _ _ _ _ _ => (1, 0))
      canonical_param s0 = Some s3
    /\ history_to_stage6 unit unit unit unit 3 0 1 2 1 2 8.617343e-5
         stub_cube stub_sahaHeII (fun _ _ _ _ _ => (1, 0)) (fun _ _ _ => 1)
         (fun _ _ _ _ _ _ _ f _ _ _ _ => (1, 0, f))
         (fun f _ _ _ _ _ _ _ _ _ => f) (fun _ _ _ _ _ _ => 0) stub_HPeebles
         (fun _ _ _ _ _ _ _ => 0) (fun _ _ _ _ _ _ _ _ => 0)
         (fun _ _ _ _ _ _ _ _ _ f _ _ _ => (0, f))
         canonical_param tt tt s0 = Some s6e
    /\ for_loop unit unit (fuel canonical_param)
         (stage6_cond unit unit canonical_param)
         (stage678_body unit unit unit unit 3 0 1 2 1 2 3 8.617343e-5
            (fun _ _ _ _ _ _ => 0) stub_HPeebles (fun _ _ _ _ _ _ _ => 0)
            (fun _ _ _ _ _ _ _ _ => 0)
            (fun _ _ _ _ _ _ _ _ _ f _ _ _ => (0, f))
            canonical_param tt tt 2)
         s6e = Some s6
    /\ rec_build_history unit unit unit unit 3 0 1 2 1 2 3 4 311 8.617343e-5
         stub_cube (fun _ _ => tt) (fun _ => tt) stub_sahaHeII
         (fun _ _ _ _ _ => (1, 0)) (fun _ _ _ => 1)
         (fun _ _ _ _ _ _ _ f _ _ _ _ => (1, 0, f))
         (fun f _ _ _ _ _ _ _ _ _ => f) (fun _ _ _ _ _ _ => 0) stub_HPeebles
         (fun _ _ _ _ _ _ _ => 0) (fun _ _ _ _ _ _ _ _ => 0)
         (fun _ _ _ _ _ _ _ _ _ f _ _ _ => (0, f))
         canonical_param tt tt (fun _ => 0) (fun _ => 0) 0 zero_lags
       = Some s
    /\ s_fminus unit unit s3 = s_fminus unit unit s0
    /\ s_fminus unit unit s = s_fminus unit unit s6.
Proof.
  apply (X17_occupation_history_window unit unit unit unit 3 0 1 2 1 2 3
           4 311 8.617343e-5 stub_cube (fun _ _ => tt) (fun _ => tt)
           stub_sahaHeII (fun _ _ _ _ _ => (1, 0)) (fun _ _ _ => 1)
           (fun _ _ _ _ _ _ _ f _ _ _ _ => (1, 0, f))
           (fun f _ _ _ _ _ _ _ _ _ => f) (fun _ _ _ _ _ _ => 0)
           stub_HPeebles (fun _ _ _ _ _ _ _ => 0)
           (fun _ _ _ _ _ _ _ _ => 0)
           (fun _ _ _ _ _ _ _ _ _ f _ _ _ => (0, f))); discriminate.
Defined.
